(** * LuminNexus-AlchemyMind-Shared: type converters, HTML to Markdown, table renderer

    A shallow embedding of
      - [converters/type_converters.py]  ([safe_decimal], [safe_int], [safe_str]),
      - [html/markdown_converter.py]     ([HTMLToMarkdownConverter]),
      - [html/table_renderer.py]         ([convert_html_to_table]),
    together with the parts of the Python runtime these functions call
    ([str] methods, [int()], [float()], [decimal.Decimal], [re.sub] for the
    two patterns used).

    Conventions.
      - A Python [str] is a [string]; each [ascii] is read as the code point
        of the same number (code points below 256).
      - A Python [int] is a [Z], of any size.  The limit of 4300 digits on
        a conversion between [int] and [str] is that of the interpreter's
        default configuration.  A list repetition fails above the greatest
        index and above [list_limit], the length the memory at hand can
        hold ([Memory]); every other allocation is taken to succeed.
      - A call that may raise returns a [result]: [Return v] or [Raise e].
      - The parsed document is an immutable tree; a pass that rewrites the
        tree in place is a function from trees to trees.
      - Libraries outside the repository (the HTML parser and its selector
        engine, [html.unescape], [repr] of a float, the terminal renderer)
        are operations of a type class: every theorem holds for each
        implementation of them. *)

From Stdlib Require Import Bool Ascii String List ZArith NArith PArith Lia.
From Stdlib Require Import DecimalString DecimalPos.
From Stdlib Require DecimalFacts.
Import ListNotations.

Local Open Scope list_scope.
Local Open Scope string_scope.
Local Open Scope Z_scope.

(* ===================================================================== *)
(** * Python runtime *)
(* ===================================================================== *)

Module Py.

(** ** Exceptions *)

(** The text of an exception: a fixed text, possibly followed by the
    [repr] of the offending value (the quoting done by [repr] is not
    modelled, the value is kept as it is). *)
Inductive message : Type :=
| Msg (text : string)
| MsgRepr (text : string) (value : string).

Inductive exn : Type :=
| ValueError (m : message)
| TypeError (m : message)
| OverflowError (m : message)
| MemoryError
| InvalidOperation.   (* decimal.InvalidOperation, ConversionSyntax included *)

Inductive result (A : Type) : Type :=
| Return (a : A)
| Raise (e : exn).

Arguments Return {A} a.
Arguments Raise {A} e.

Definition bind {A B : Type} (c : result A) (k : A -> result B) : result B :=
  match c with
  | Return a => k a
  | Raise e => Raise e
  end.

(** [try: c  except <classes>: h]: the handler runs for the exceptions the
    clause names, every other exception propagates. *)
Definition try_except {A : Type} (c : result A) (caught : exn -> bool)
           (h : result A) : result A :=
  match c with
  | Return a => Return a
  | Raise e => if caught e then h else Raise e
  end.

(** [except Exception]: every exception of the model. *)
Definition is_Exception (e : exn) : bool := true.

(** [except (ValueError, TypeError)]. *)
Definition is_ValueError_or_TypeError (e : exn) : bool :=
  match e with
  | ValueError _ | TypeError _ => true
  | OverflowError _ | MemoryError | InvalidOperation => false
  end.

(** [except decimal.InvalidOperation]. *)
Definition is_InvalidOperation (e : exn) : bool :=
  match e with
  | InvalidOperation => true
  | _ => false
  end.

(** [for x in l: f(x)], stopping at the first exception. *)
Fixpoint for_each {A : Type} (f : A -> result unit) (l : list A) : result unit :=
  match l with
  | [] => Return tt
  | x :: l' => bind (f x) (fun _ => for_each f l')
  end.

(** [[f(x) for x in l]], stopping at the first exception. *)
Fixpoint map_result {A B : Type} (f : A -> result B) (l : list A) : result (list B) :=
  match l with
  | [] => Return []
  | x :: l' => bind (f x) (fun y => bind (map_result f l') (fun ys => Return (y :: ys)))
  end.

(** ** Memory and list repetition *)

(** The interpreter raises [MemoryError] when it cannot allocate.  The
    model keeps this for the one allocation whose size is an integer read
    from the document, a list repetition: [list_limit] is the greatest
    count for which the repetition succeeds in the run at hand.
    Allocations of the size of data the run already holds are taken to
    succeed. *)
Class Memory : Type := { list_limit : Z }.

(** [sys.maxsize], the greatest index-sized integer (a 64-bit build). *)
Definition maxsize : Z := 2 ^ 63 - 1.

Definition not_index_sized : exn :=
  OverflowError (Msg "cannot fit 'int' into an index-sized integer").

(** [[x] * n] *)
Definition list_repeat `{Memory} {A : Type} (x : A) (n : Z) : result (list A) :=
  if n <=? 0 then Return []
  else if maxsize <? n then Raise not_index_sized
  else if list_limit <? n then Raise MemoryError
  else Return (repeat x (Z.to_nat n)).


(** ** Characters and strings *)

Definition LF : string := String "010"%char EmptyString.

Definition ord (c : ascii) : N := N_of_ascii c.

(** [str.isspace] of one character, also the class [\s] of [re] on [str]:
    U+0009..U+000D, U+001C..U+001F, U+0020, U+0085, U+00A0 (the white space
    of Unicode below 256). *)
Definition isspace (c : ascii) : bool :=
  let n := ord c in
  ((9 <=? n) && (n <=? 13) || (28 <=? n) && (n <=? 32) || (n =? 133) || (n =? 160))%N.

(** The white space [int()] and [float()] skip: non-ASCII Unicode space is
    first turned into a blank, then the C locale's [isspace] decides, so
    U+001C..U+001F are not skipped. *)
Definition isspace_number (c : ascii) : bool :=
  let n := ord c in
  ((9 <=? n) && (n <=? 13) || (n =? 32) || (n =? 133) || (n =? 160))%N.

Definition isdigit (c : ascii) : bool :=
  let n := ord c in ((48 <=? n) && (n <=? 57))%N.

Definition digit_value (c : ascii) : Z := Z.of_N (ord c) - 48.

(** ASCII lower-casing, for the case-insensitive keywords of the number
    parsers. *)
Definition lower (c : ascii) : ascii :=
  let n := ord c in
  if ((65 <=? n) && (n <=? 90))%N then ascii_of_N (n + 32) else c.

Fixpoint lower_str (s : string) : string :=
  match s with
  | EmptyString => EmptyString
  | String c r => String (lower c) (lower_str r)
  end.

Fixpoint lstrip_with (sp : ascii -> bool) (s : string) : string :=
  match s with
  | EmptyString => EmptyString
  | String c r => if sp c then lstrip_with sp r else s
  end.

Fixpoint rstrip_with (sp : ascii -> bool) (s : string) : string :=
  match s with
  | EmptyString => EmptyString
  | String c r =>
      match rstrip_with sp r with
      | EmptyString => if sp c then EmptyString else String c EmptyString
      | r' => String c r'
      end
  end.

(** [s.strip()] *)
Definition strip (s : string) : string := rstrip_with isspace (lstrip_with isspace s).

(** [s.startswith(p)] *)
Definition startswith (p s : string) : bool := String.prefix p s.

(** [sep.join(l)] *)
Definition join (sep : string) (l : list string) : string := String.concat sep l.

(** [s * n] *)
Fixpoint str_mul (s : string) (n : nat) : string :=
  match n with
  | O => EmptyString
  | S n' => s ++ str_mul s n'
  end.

(** [s.split(sep)] for a separator of one character: the pieces between
    the occurrences of [sep]; always at least one piece. *)
Fixpoint split (sep : ascii) (s : string) : list string :=
  match s with
  | EmptyString => [EmptyString]
  | String c r =>
      if Ascii.eqb c sep then EmptyString :: split sep r
      else match split sep r with
           | [] => [String c EmptyString]
           | p :: ps => String c p :: ps
           end
  end.

(** [c in s] *)
Fixpoint contains (c : ascii) (s : string) : bool :=
  match s with
  | EmptyString => false
  | String d r => Ascii.eqb c d || contains c r
  end.

(** [s.replace(c, "")] for one character. *)
Fixpoint remove_char (c : ascii) (s : string) : string :=
  match s with
  | EmptyString => EmptyString
  | String d r => if Ascii.eqb c d then remove_char c r else String d (remove_char c r)
  end.

(** [str(n)] of a natural number and of an integer. *)
Definition str_of_nat (n : nat) : string := NilZero.string_of_uint (Nat.to_uint n).

Definition str_of_int (z : Z) : string := NilZero.string_of_int (Z.to_int z).

(** ** [int(s)] for a string, base 10 *)

(** The digits of a literal: decimal digits, a single underscore allowed
    between two digits.  [prev_us] tells that the previous character was an
    underscore.  Returns the value and the rest of the string; [None] on a
    doubled or trailing underscore. *)
Fixpoint scan_digits (prev_us : bool) (acc : Z) (s : string) : option (Z * string) :=
  match s with
  | EmptyString => if prev_us then None else Some (acc, s)
  | String c r =>
      if isdigit c then scan_digits false (10 * acc + digit_value c) r
      else if Ascii.eqb c "_" then
             if prev_us then None else scan_digits true acc r
           else if prev_us then None else Some (acc, s)
  end.

(** An optional sign: the sign read and the rest. *)
Definition scan_sign (s : string) : bool * string :=
  match s with
  | String "-" r => (true, r)
  | String "+" r => (false, r)
  | _ => (false, s)
  end.

Definition invalid_int_literal (s : string) : exn :=
  ValueError (MsgRepr "invalid literal for int() with base 10: " s).

(** The limit on the digits of a conversion between [int] and [str]
    ([sys.get_int_max_str_digits()], 4300 unless it is set otherwise, which
    the repository never does). *)
Definition int_max_str_digits : Z := 4300.

(** The number of digits in the run of digits and underscores that [s]
    starts with. *)
Fixpoint count_digits (s : string) : nat :=
  match s with
  | String c r =>
      if isdigit c then S (count_digits r)
      else if Ascii.eqb c "_" then count_digits r
      else O
  | EmptyString => O
  end.

Definition int_digits_exceeded (digits : nat) : exn :=
  ValueError (Msg ("Exceeds the limit (4300 digits) for integer string conversion: value has "
                   ++ str_of_nat digits
                   ++ " digits; use sys.set_int_max_str_digits() to increase the limit")).

Definition int_of_str (s : string) : result Z :=
  let '(neg, t) := scan_sign (lstrip_with isspace_number s) in
  match t with
  | String c _ =>
      if isdigit c then
        match scan_digits false 0 t with
        | Some (v, rest) =>
            (* the digits are counted when their run ends, before what
               follows them is looked at *)
            if int_max_str_digits <? Z.of_nat (count_digits t)
            then Raise (int_digits_exceeded (count_digits t))
            else
              match lstrip_with isspace_number rest with
              | EmptyString => Return (if neg then - v else v)
              | _ => Raise (invalid_int_literal s)
              end
        | None => Raise (invalid_int_literal s)
        end
      else Raise (invalid_int_literal s)
  | EmptyString => Raise (invalid_int_literal s)
  end.

(** ** Plain runs of digits, shared by [float()] and [Decimal()] *)

(** The leading decimal digits of [s]: their value on top of [acc], how
    many there are, and the rest of the string. *)
Fixpoint take_digits (acc : Z) (s : string) : Z * nat * string :=
  match s with
  | String c r =>
      if isdigit c then
        let '(v, n, rest) := take_digits (10 * acc + digit_value c) r in (v, S n, rest)
      else (acc, O, s)
  | EmptyString => (acc, O, s)
  end.

(** A parsed decimal literal [digits[.digits][(e|E)[sign]digits]]: the
    integer made of all its digits and the power of ten it is scaled by. *)
Record literal : Type := { lit_digits : Z; lit_exp10 : Z }.

(** The exponent part [(e|E)[sign]digits] at the head of [s], when there
    is one with at least one digit; otherwise nothing is consumed. *)
Definition scan_exponent (s : string) : Z * string :=
  match s with
  | String c r =>
      if Ascii.eqb (lower c) "e" then
        let '(neg, r') := scan_sign r in
        let '(v, n, rest) := take_digits 0 r' in
        match n with
        | O => (0, s)
        | S _ => ((if neg then - v else v), rest)
        end
      else (0, s)
  | EmptyString => (0, s)
  end.

(** The literal at the head of [s] and what follows it; [None] when it
    has no digit, neither before nor after the point. *)
Definition scan_literal (s : string) : option (literal * string) :=
  let '(i, ni, r1) := take_digits 0 s in
  let '(m, nf, r2) :=
    match r1 with
    | String "." r => let '(v, n, rest) := take_digits i r in (v, n, rest)
    | _ => (i, O, r1)
    end in
  match ni, nf with
  | O, O => None
  | _, _ =>
      let '(e, r3) := scan_exponent r2 in
      Some ({| lit_digits := m; lit_exp10 := e - Z.of_nat nf |}, r3)
  end.

(** ** [float]: IEEE 754 binary64, by value *)

(** A float is not-a-number, an infinity, or the finite value
    [(-1)^neg * m * 2^e]. *)
Inductive float : Type :=
| FNan
| FInf (neg : bool)
| FFin (neg : bool) (m : Z) (e : Z).

(** [num / den] rounded to the nearest integer, ties to even. *)
Definition round_half_even (num den : Z) : Z :=
  let q := num / den in
  let r := num mod den in
  match 2 * r ?= den with
  | Lt => q
  | Gt => q + 1
  | Eq => if Z.even q then q else q + 1
  end.

(** The binary64 nearest to [p / q] ([0 <= p], [0 < q]), ties to even:
    53 bits of precision, least exponent -1074; [None] when the rounded
    value does not fit (it is at least 2^1024). *)
Definition binary64 (neg : bool) (p q : Z) : option float :=
  if p =? 0 then Some (FFin neg 0 0)
  else
    let e0 := Z.log2 p - Z.log2 q in
    let e := if p * 2 ^ Z.max 0 (- e0) <? q * 2 ^ Z.max 0 e0 then e0 - 1 else e0 in
    let t := Z.max (e - 52) (-1074) in
    let m := round_half_even (p * 2 ^ Z.max 0 (- t)) (q * 2 ^ Z.max 0 t) in
    if (971 <? t) || ((t =? 971) && (2 ^ 53 <=? m)) then None
    else Some (FFin neg m t).

(** [float(n)] for an integer. *)
Definition float_of_int (z : Z) : result float :=
  match binary64 (z <? 0) (Z.abs z) 1 with
  | Some f => Return f
  | None => Raise (OverflowError (Msg "int too large to convert to float"))
  end.

(** Underscores of a numeric literal: each one stands between two digits.
    [prev] is the previous character. *)
Fixpoint underscores_ok (prev : option ascii) (s : string) : bool :=
  match s with
  | EmptyString => match prev with Some "_"%char => false | _ => true end
  | String c r =>
      (if Ascii.eqb c "_" then match prev with Some p => isdigit p | None => false end
       else match prev with Some "_"%char => isdigit c | _ => true end)
      && underscores_ok (Some c) r
  end.

Definition invalid_float_literal (s : string) : exn :=
  ValueError (MsgRepr "could not convert string to float: " s).

(** [float(s)] for a string. *)
Definition float_of_str (s : string) : result float :=
  let t := rstrip_with isspace_number (lstrip_with isspace_number s) in
  if negb (underscores_ok None t) then Raise (invalid_float_literal s)
  else
    let '(neg, body) := scan_sign (remove_char "_" t) in
    let word := lower_str body in
    if (word =? "inf")%string || (word =? "infinity")%string then Return (FInf neg)
    else if (word =? "nan")%string then Return FNan
    else
      match scan_literal body with
      | Some (l, EmptyString) =>
          let '(p, q) := if 0 <=? lit_exp10 l
                         then (lit_digits l * 10 ^ lit_exp10 l, 1)
                         else (lit_digits l, 10 ^ (- lit_exp10 l)) in
          match binary64 neg p q with
          | Some f => Return f
          | None => Return (FInf neg)
          end
      | _ => Raise (invalid_float_literal s)
      end.

(** [int(f)] for a float: truncation toward zero. *)
Definition int_of_float (f : float) : result Z :=
  match f with
  | FNan => Raise (ValueError (Msg "cannot convert float NaN to integer"))
  | FInf _ => Raise (OverflowError (Msg "cannot convert float infinity to integer"))
  | FFin neg m e =>
      let a := if 0 <=? e then m * 2 ^ e else m / 2 ^ (- e) in
      Return (if neg then - a else a)
  end.

(** ** [decimal.Decimal], under the default context (precision 28,
       ROUND_HALF_EVEN, InvalidOperation trapped); the exponent limits of
       the context are not modelled *)

(** A finite decimal [(-1)^neg * coeff * 10^exp], an infinity, or a
    (quiet or signaling) not-a-number with its diagnostic digits. *)
Inductive Decimal : Type :=
| DFin (neg : bool) (coeff : Z) (exp : Z)
| DInf (neg : bool)
| DNaN (neg : bool) (signaling : bool) (diag : Z).

Definition prec : Z := 28.

(** The number of decimal digits of a coefficient (1 for zero). *)
Definition ndigits (c : Z) : Z := Z.of_nat (Decimal.nb_digits (N.to_uint (Z.to_N c))).

Definition int_str_refused : exn :=
  ValueError (Msg ("Exceeds the limit (4300 digits) for integer string conversion; "
                   ++ "use sys.set_int_max_str_digits() to increase the limit")).

(** [str(n)] for an integer: refused when [n] has more digits than the
    limit on the digits of a conversion. *)
Definition str_of_int_checked (z : Z) : result string :=
  if int_max_str_digits <? ndigits (Z.abs z) then Raise int_str_refused
  else Return (str_of_int z).

(** [Decimal(s)]: white space stripped, underscores removed, then an
    optional sign followed by a decimal literal, [Inf], [Infinity],
    [NaN] or [sNaN] with optional digits, in any case of letters.
    The conversion is exact. *)
Definition Decimal_of_str (s : string) : result Decimal :=
  let '(neg, body) := scan_sign (remove_char "_" (strip s)) in
  let word := lower_str body in
  if (word =? "inf")%string || (word =? "infinity")%string then Return (DInf neg)
  else if startswith "nan" word then
    match take_digits 0 (substring 3 (String.length word) word) with
    | (d, _, EmptyString) => Return (DNaN neg false d)
    | _ => Raise InvalidOperation
    end
  else if startswith "snan" word then
    match take_digits 0 (substring 4 (String.length word) word) with
    | (d, _, EmptyString) => Return (DNaN neg true d)
    | _ => Raise InvalidOperation
    end
  else
    match scan_literal body with
    | Some (l, EmptyString) => Return (DFin neg (lit_digits l) (lit_exp10 l))
    | _ => Raise InvalidOperation
    end.

(** Rounding of a finite result to the precision of the context. *)
Definition fix_prec (neg : bool) (coeff exp : Z) : Decimal :=
  let k := ndigits coeff - prec in
  if 0 <? k then
    let c := round_half_even coeff (10 ^ k) in
    if c =? 10 ^ prec then DFin neg (10 ^ (prec - 1)) (exp + k + 1)
    else DFin neg c (exp + k)
  else DFin neg coeff exp.

(** [a - b] *)
Definition Decimal_sub (a b : Decimal) : result Decimal :=
  match a, b with
  | DNaN _ true _, _ => Raise InvalidOperation
  | _, DNaN _ true _ => Raise InvalidOperation
  | DNaN _ false _, _ => Return a
  | _, DNaN n false d => Return (DNaN n false d)
  | DInf na, DInf nb => if Bool.eqb na nb then Raise InvalidOperation else Return a
  | DInf _, DFin _ _ _ => Return a
  | DFin _ _ _, DInf nb => Return (DInf (negb nb))
  | DFin na ca ea, DFin nb cb eb =>
      let e := Z.min ea eb in
      let va := (if na then -1 else 1) * ca * 10 ^ (ea - e) in
      let vb := (if nb then -1 else 1) * cb * 10 ^ (eb - e) in
      let d := va - vb in
      (* a zero difference is negative only for (-0) - (+0) *)
      let neg := if d =? 0 then (ca =? 0) && (cb =? 0) && na && negb nb else d <? 0 in
      Return (fix_prec neg (Z.abs d) e)
  end.

(** [d.quantize(Decimal("1.00000"), rounding=ROUND_HALF_UP)]: the value
    with exponent -5, rounded half up; an invalid operation when the
    result needs more digits than the precision. *)
Definition quantize5 (d : Decimal) : result Decimal :=
  match d with
  | DNaN _ true _ => Raise InvalidOperation
  | DNaN _ false _ => Return d
  | DInf _ => Raise InvalidOperation
  | DFin neg c e =>
      if c =? 0 then Return (DFin neg 0 (-5))
      else if prec <? e + ndigits c - 1 + 5 + 1 then Raise InvalidOperation
      else
        let c' := if -5 <=? e then c * 10 ^ (e + 5)
                  else let k := -5 - e in
                       if 10 ^ k <=? 2 * (c mod 10 ^ k) then c / 10 ^ k + 1 else c / 10 ^ k in
        if prec <? ndigits c' then Raise InvalidOperation
        else Return (DFin neg c' (-5))
  end.

(** [abs(d)] *)
Definition Decimal_abs (d : Decimal) : result Decimal :=
  match d with
  | DNaN _ true _ => Raise InvalidOperation
  | DNaN _ false _ => Return d
  | DInf _ => Return (DInf false)
  | DFin _ c e => Return (fix_prec false c e)
  end.

(** [a >= b]: an ordering comparison signals on a not-a-number. *)
Definition Decimal_ge (a b : Decimal) : result bool :=
  match a, b with
  | DNaN _ _ _, _ | _, DNaN _ _ _ => Raise InvalidOperation
  | DInf na, DInf nb => Return (implb na nb)
  | DInf na, DFin _ _ _ => Return (negb na)
  | DFin _ _ _, DInf nb => Return nb
  | DFin na ca ea, DFin nb cb eb =>
      let e := Z.min ea eb in
      Return ((if nb then -1 else 1) * cb * 10 ^ (eb - e)
              <=? (if na then -1 else 1) * ca * 10 ^ (ea - e))
  end.

End Py.

(* ===================================================================== *)
(** * The parsed document tree (bs4) *)
(* ===================================================================== *)

Module Bs4.
Import Py.

(** A node of the parsed document: a string, or a tag with its name, its
    attributes and its children.  The document itself is the tag named
    [[document]]. *)
#[warnings="-register-all"]
Inductive node : Type :=
| NavigableString (s : string)
| Tag (name : string) (attrs : list (string * string)) (contents : list node).

Definition document (contents : list node) : node := Tag "[document]" [] contents.

Fixpoint mem (x : string) (l : list string) : bool :=
  match l with
  | [] => false
  | y :: l' => (x =? y)%string || mem x l'
  end.

(** Is the node a tag named by one of [names]? *)
Definition is_tag (names : list string) (n : node) : bool :=
  match n with
  | NavigableString _ => false
  | Tag name _ _ => mem name names
  end.

(** [n.find_all(names)]: the tags below [n] named by one of [names], in
    document order ([n] itself is not a candidate). *)
Fixpoint find_all (names : list string) (n : node) : list node :=
  match n with
  | NavigableString _ => []
  | Tag _ _ cs =>
      flat_map (fun c => ((if is_tag names c then [c] else []) ++ find_all names c)%list) cs
  end.

(** [n.find_all(names, recursive=False)]: among the children only. *)
Definition find_children (names : list string) (n : node) : list node :=
  match n with
  | NavigableString _ => []
  | Tag _ _ cs => filter (is_tag names) cs
  end.

(** The strings at and below [n], in document order. *)
Fixpoint strings (n : node) : list string :=
  match n with
  | NavigableString s => [s]
  | Tag _ _ cs => flat_map strings cs
  end.

(** [n.get_text()] *)
Definition get_text (n : node) : string := join "" (strings n).

(** [n.stripped_strings]: the strings stripped, the empty ones left out. *)
Definition stripped_strings (n : node) : list string :=
  filter (fun s => negb (s =? "")%string) (map strip (strings n)).

Fixpoint lookup (key : string) (attrs : list (string * string)) : option string :=
  match attrs with
  | [] => None
  | (k, v) :: rest => if (k =? key)%string then Some v else lookup key rest
  end.

(** [n.get(key)]: the value of an attribute, when the tag has it. *)
Definition get (key : string) (n : node) : option string :=
  match n with
  | NavigableString _ => None
  | Tag _ attrs _ => lookup key attrs
  end.

(** [for x in n.find_all(names): x.replace_with(f(x))].
    [find_all] lists a tag before the tags below it, so a tag is replaced
    by the text computed from its own subtree, and the matches below a
    replaced tag leave the document with it. *)
Fixpoint replace_all (names : list string) (f : node -> string) (n : node) : node :=
  match n with
  | NavigableString _ => n
  | Tag name attrs cs =>
      Tag name attrs
          (map (fun c => if is_tag names c then NavigableString (f c)
                         else replace_all names f c) cs)
  end.

(** The same loop when the body replaces the tag only if [f] yields a
    text; a tag left in place keeps its subtree, whose matches get their
    turn. *)
Fixpoint replace_some (names : list string) (f : node -> option string) (n : node) : node :=
  match n with
  | NavigableString _ => n
  | Tag name attrs cs =>
      Tag name attrs
          (map (fun c => if is_tag names c
                         then match f c with
                              | Some t => NavigableString t
                              | None => replace_some names f c
                              end
                         else replace_some names f c) cs)
  end.

(** The same loop when the body may raise: the body runs for every match
    in document order, also for a match below a tag already replaced (it
    left the document but is still in the list).  When no body raises, the
    document is rewritten as by [replace_all]. *)
Definition replace_all_result (names : list string) (f : node -> result string)
           (n : node) : result node :=
  bind (for_each (fun x => bind (f x) (fun _ => Return tt)) (find_all names n))
       (fun _ => Return (replace_all names
                           (fun x => match f x with
                                     | Return t => t
                                     | Raise _ => EmptyString
                                     end) n)).

(** The libraries behind the tree: the parser
    [BeautifulSoup(markup, "html.parser")] and the selector engine
    [soup.select_one(selector)], which yields the first match if there is
    one (a selector the engine rejects is outside the model). *)
Class Parser : Type := {
  BeautifulSoup : string -> node;
  select_one : node -> string -> option node
}.

End Bs4.

(** The values a public function may be handed. *)
Inductive object : Type :=
| PyNone
| PyBool (b : bool)
| PyInt (z : Z)
| PyFloat (f : Py.float)
| PyStr (s : string)
| PyTag (t : Bs4.node)   (* a BeautifulSoup or Tag object, or a NavigableString *)
| PyFloatable (outcome : Py.result Py.float)
                         (* an object [float()] reads some other way: bytes, a
                            Decimal, a Fraction, one with [__float__] or
                            [__index__]; with what [float()] makes of it *)
| PyOther.               (* any other object: a list, a dict, ... *)

(** [isinstance(value, str)]: a [str], or a [NavigableString], which is a
    subclass of [str]. *)
Definition as_str (value : object) : option string :=
  match value with
  | PyStr s => Some s
  | PyTag (Bs4.NavigableString s) => Some s
  | _ => None
  end.

(* ===================================================================== *)
(** * converters/type_converters.py *)
(* ===================================================================== *)

Module TypeConverters.
Import Py.

(** [str(f)] for a float: the shortest text that reads back as [f]; a
    library operation. *)
Class FloatStr : Type := { str_of_float : Py.float -> string }.

(** [float(value)] *)
Definition float_of_object (value : object) : result float :=
  match as_str value with
  | Some s => float_of_str s
  | None =>
      match value with
      | PyBool b => float_of_int (if b then 1 else 0)
      | PyInt z => float_of_int z
      | PyFloat f => Return f
      | PyFloatable outcome => outcome
      | _ => Raise (TypeError (Msg "float() argument must be a string or a real number"))
      end
  end.

(** [str(value)] for [isinstance(value, (int, float))]; [bool] is a
    subclass of [int].  [str] of a long integer may raise. *)
Definition str_of_number `{FloatStr} (value : object) : option (result string) :=
  match value with
  | PyBool b => Some (Return (if b then "True" else "False"))
  | PyInt z => Some (str_of_int_checked z)
  | PyFloat f => Some (Return (str_of_float f))
  | _ => None
  end.

(** Lines 41-55: the parse of the stripped text; [None] stands for the
    [return None] of the two handlers. *)
Definition parse_decimal (value_str : string) : result (option Decimal) :=
  if startswith "<" value_str then
    let possible_num := strip (substring 1 (String.length value_str) value_str) in
    try_except
      (bind (Decimal_of_str possible_num) (fun dec =>
       bind (Decimal_sub dec (DFin false 1 (-4))) (fun dec =>
       Return (Some dec))))
      is_Exception (Return None)
  else
    try_except
      (bind (Decimal_of_str value_str) (fun dec => Return (Some dec)))
      is_Exception (Return None).

(** Lines 57-69: the quantization, whose invalid operation is handled,
    then the test of the magnitude, outside any handler. *)
Definition quantize_in_range (dec : Decimal) : result (option Decimal) :=
  bind (try_except
          (bind (quantize5 dec) (fun dec => Return (Some dec)))
          is_InvalidOperation (Return None)) (fun quantized =>
  match quantized with
  | None => Return None
  | Some dec =>
      bind (Decimal_abs dec) (fun a =>
      bind (Decimal_ge a (DFin false 10000000000 0)) (fun too_large =>
      if too_large then Return None else Return (Some dec)))
  end).

Definition safe_decimal `{FloatStr} (value : object) : result (option Decimal) :=
  match value with
  | PyNone => Return None
  | _ =>
      (* line 31 stands outside every handler *)
      bind (match str_of_number value with
            | Some text => bind text (fun s => Return (PyStr s))
            | None => Return value
            end) (fun value =>
      match as_str value with
      | None => Return None
      | Some value =>
          let value_str := strip value in
          if (value_str =? "")%string then Return None
          else
            bind (parse_decimal value_str) (fun parsed =>
            match parsed with
            | None => Return None
            | Some dec => quantize_in_range dec
            end)
      end)
  end.

Definition safe_int (value : object) : result (option Z) :=
  match value with
  | PyNone => Return None
  | _ =>
      try_except
        (bind (float_of_object value) (fun f =>
         bind (int_of_float f) (fun z => Return (Some z))))
        is_ValueError_or_TypeError (Return None)
  end.

Definition safe_str (value : object) : result (option string) :=
  match as_str value with
  | Some value =>
      let val := strip value in
      Return (if (val =? "")%string then None else Some val)
  | None => Return None
  end.

End TypeConverters.

(* ===================================================================== *)
(** * html/markdown_converter.py *)
(* ===================================================================== *)

Module MarkdownConverter.
Import Py Bs4.

(** ** [re.sub] for the two patterns of the cleanup *)

(** [re.sub(pattern, repl, text)] for a pattern that never matches the
    empty string: the text is scanned from the left; where the pattern
    matches ([match_len] gives the length of its match at the head of the
    rest of the text) the replacement is written and the scan goes on after
    the match; elsewhere the character is copied.  [skip] counts the
    characters of the current match still to pass over. *)
Fixpoint re_sub (match_len : string -> option nat) (repl : string)
         (skip : nat) (s : string) : string :=
  match s with
  | EmptyString => EmptyString
  | String c r =>
      match skip with
      | S k => re_sub match_len repl k r
      | O =>
          match match_len s with
          | Some (S n) => repl ++ re_sub match_len repl n r
          | _ => String c (re_sub match_len repl 0 r)
          end
      end
  end.

(** The match of [\s*\n] at the head of [s]: [\s*] is greedy, so the match
    ends with the last line feed of the white space [s] starts with. *)
Fixpoint match_spaces_newline (s : string) : option nat :=
  match s with
  | EmptyString => None
  | String c r =>
      if isspace c then
        match match_spaces_newline r with
        | Some n => Some (S n)
        | None => if Ascii.eqb c "010" then Some 1%nat else None
        end
      else None
  end.

(** The match of [\n\s*\n] at the head of [s]. *)
Definition match_blank_lines (s : string) : option nat :=
  match s with
  | String "010" r => option_map S (match_spaces_newline r)
  | _ => None
  end.

(** The match of [ +] at the head of [s]. *)
Fixpoint match_blanks (s : string) : option nat :=
  match s with
  | String " " r => match match_blanks r with
                    | Some n => Some (S n)
                    | None => Some 1%nat
                    end
  | _ => None
  end.

(** [html.unescape], a library operation. *)
Class Html : Type := { unescape : string -> string }.

(** ** The converter *)

Record ConversionConfig : Type := {
  preserve_structure : bool;
  preserve_tables : bool;
  preserve_links : bool;
  heading_style : string;     (* atx or setext *)
  link_style : string;        (* inline or reference *)
  bullet_marker : string;
  code_block_style : string;  (* fenced or indented *)
  fence_char : string;
  emphasis_marker : string
}.

(** The defaults of the dataclass. *)
Definition default_config : ConversionConfig := {|
  preserve_structure := true;
  preserve_tables := true;
  preserve_links := true;
  heading_style := "atx";
  link_style := "inline";
  bullet_marker := "-";
  code_block_style := "fenced";
  fence_char := "`";
  emphasis_marker := "*"
|}.

(** The converter object; its logger is written to, never read, and is
    left out. *)
Record HTMLToMarkdownConverter : Type := { config : ConversionConfig }.

(** [HTMLToMarkdownConverter(config)] *)
Definition new_converter (cfg : option ConversionConfig) : HTMLToMarkdownConverter :=
  {| config := match cfg with Some c => c | None => default_config end |}.

Section Passes.

Variable self : HTMLToMarkdownConverter.

Context `{Memory}.

Definition heading_text (i : nat) (header : node) : string :=
  if (heading_style (config self) =? "atx")%string then
    LF ++ str_mul "#" i ++ " " ++ strip (get_text header) ++ LF
  else
    let text := strip (get_text header) in
    let underline := if Nat.eqb i 1 then "=" else "-" in
    LF ++ text ++ LF ++ str_mul underline (String.length text) ++ LF.

Definition _process_headings (soup : node) : node :=
  fold_left (fun soup i => replace_all ["h" ++ str_of_nat i] (heading_text i) soup)
            [6; 5; 4; 3; 2; 1]%nat soup.

(** [enumerate(items, start)] *)
Fixpoint enumerate {A : Type} (start : nat) (items : list A) : list (nat * A) :=
  match items with
  | [] => []
  | x :: rest => (start, x) :: enumerate (S start) rest
  end.

Definition ol_text (ol : node) : string :=
  let list_items :=
    map (fun '(i, li) => str_of_nat i ++ ". " ++ strip (get_text li))
        (enumerate 1 (find_children ["li"] ol)) in
  LF ++ join LF list_items ++ LF ++ LF.

Definition ul_text (ul : node) : string :=
  let list_items :=
    map (fun li => bullet_marker (config self) ++ " " ++ strip (get_text li))
        (find_children ["li"] ul) in
  LF ++ join LF list_items ++ LF ++ LF.

Definition _process_lists (soup : node) : node :=
  replace_all ["ul"] ul_text (replace_all ["ol"] ol_text soup).

Definition strong_text (strong : node) : string :=
  let marker := str_mul (emphasis_marker (config self)) 2 in
  marker ++ strip (get_text strong) ++ marker.

Definition em_text (em : node) : string :=
  let marker := emphasis_marker (config self) in
  marker ++ strip (get_text em) ++ marker.

Definition s_text (s : node) : string := "~~" ++ strip (get_text s) ++ "~~".

Definition code_text (code : node) : string := "`" ++ strip (get_text code) ++ "`".

Definition a_text (a : node) : string :=
  let href := match get "href" a with Some v => v | None => "" end in
  let text := strip (get_text a) in
  "[" ++ text ++ "](" ++ href ++ ")".

(** Lines 204-233 and 282-311: the same five loops, over a table and over
    the document.  A link is replaced only for the inline style. *)
Definition inline_formatting (soup : node) : node :=
  let soup := replace_all ["strong"; "b"] strong_text soup in
  let soup := replace_all ["em"; "i"] em_text soup in
  let soup := replace_all ["s"; "del"] s_text soup in
  let soup := replace_all ["code"] code_text soup in
  if preserve_links (config self) && (link_style (config self) =? "inline")%string
  then replace_all ["a"] a_text soup
  else soup.

Definition _process_table_inline_formatting (table : node) : node :=
  inline_formatting table.

Definition _process_basic_formatting (soup : node) : node :=
  inline_formatting soup.

(** [int(cell.get("colspan", 1))] *)
Definition colspan_of (cell : node) : result Z :=
  match get "colspan" cell with
  | Some v => int_of_str v
  | None => Return 1
  end.

(** The body of the loops over the cells of a row (lines 142-148, 163-169
    and 191-198): the text of the cell, then an empty string for each
    further column it spans; the repetition [[""] * (colspan - 1)] raises
    when the span is too large. *)
Definition expand_cell (cell : node) : result (list string) :=
  bind (colspan_of cell) (fun colspan =>
  let text := strip (get_text cell) in
  if 1 <? colspan
  then bind (list_repeat EmptyString (colspan - 1)) (fun blanks =>
       Return ([text] ++ blanks)%list)
  else Return [text]).

Fixpoint expand_cells (cells : list node) : result (list string) :=
  match cells with
  | [] => Return []
  | cell :: rest =>
      bind (expand_cell cell) (fun columns =>
      bind (expand_cells rest) (fun more => Return (columns ++ more)%list))
  end.

(** Step 1 (lines 136-149): the first row that has [th] cells is the
    header. *)
Fixpoint find_th_header (idx : nat) (rows : list node)
  : result (option nat * list string) :=
  match rows with
  | [] => Return (None, [])
  | tr :: rest =>
      match find_all ["th"] tr with
      | [] => find_th_header (S idx) rest
      | th_cells =>
          bind (expand_cells th_cells) (fun headers => Return (Some idx, headers))
      end
  end.

Definition sum (l : list Z) : Z := fold_left Z.add l 0.

(** Step 2 (lines 153-170): without [th] cells, the first row of several
    [td] cells whose spans add up to their number is the header. *)
Fixpoint find_td_header (idx : nat) (rows : list node)
  : result (option (nat * list string)) :=
  match rows with
  | [] => Return None
  | tr :: rest =>
      let td_cells := find_all ["td"] tr in
      if (1 <? List.length td_cells)%nat then
        bind (map_result colspan_of td_cells) (fun spans =>
        if sum spans =? Z.of_nat (List.length td_cells) then
          bind (expand_cells td_cells) (fun headers => Return (Some (idx, headers)))
        else find_td_header (S idx) rest)
      else find_td_header (S idx) rest
  end.

Definition pipe_row (cells : list string) : string :=
  "| " ++ join " | " cells ++ " |".

(** Step 4 (lines 179-200): the lines of the rows that are neither the
    header row nor rows holding a [th] cell. *)
Fixpoint data_rows (header_row_index : option nat) (rows : list (nat * node))
  : result (list string) :=
  match rows with
  | [] => Return []
  | (idx, tr) :: rest =>
      if match header_row_index with Some h => Nat.eqb idx h | None => false end
      then data_rows header_row_index rest
      else
        match find_all ["th"] tr with
        | _ :: _ => data_rows header_row_index rest
        | [] =>
            match find_all ["td"] tr with
            | [] => data_rows header_row_index rest
            | td_cells =>
                bind (expand_cells td_cells) (fun cells =>
                bind (data_rows header_row_index rest) (fun more =>
                Return (pipe_row cells :: more)))
            end
        end
  end.

(** The body of the loop of [_process_tables] (lines 128-202) for one
    table: the text that replaces it. *)
Definition table_text (table : node) : result string :=
  let table := _process_table_inline_formatting table in
  let all_rows := find_all ["tr"] table in
  bind (find_th_header 0 all_rows) (fun '(header_row_index, headers) =>
  bind (match headers with
        | [] =>
            bind (find_td_header 0 all_rows) (fun found =>
            match found with
            | Some (idx, headers) => Return (Some idx, headers)
            | None => Return (header_row_index, headers)
            end)
        | _ => Return (header_row_index, headers)
        end) (fun '(header_row_index, headers) =>
  let rows :=
    match headers with
    | [] => []
    | _ => [pipe_row headers;
            pipe_row (repeat "---" (List.length headers))]
    end in
  bind (data_rows header_row_index (enumerate 0 all_rows)) (fun more =>
  Return (LF ++ join LF (rows ++ more)%list ++ LF)))).

(** The table is formatted and turned into text when its turn comes; the
    loops of the tables above it have by then run some of the five inline
    passes, each from its first, over its subtree, and its own five
    passes complete them. *)
Definition _process_tables (soup : node) : result node :=
  replace_all_result ["table"] table_text soup.

Definition pre_text (pre : node) : string :=
  let code := strip (get_text pre) in
  if (code_block_style (config self) =? "fenced")%string then
    let fence := str_mul (fence_char (config self)) 3 in
    LF ++ fence ++ LF ++ code ++ LF ++ fence ++ LF
  else
    let indented := join LF (map (fun line => "    " ++ line) (split "010" code)) in
    LF ++ indented ++ LF.

Definition _process_code_blocks (soup : node) : node :=
  replace_all ["pre"] pre_text soup.

Definition blockquote_text (blockquote : node) : string :=
  let lines := split "010" (strip (get_text blockquote)) in
  let quoted := join LF (map (fun line => "> " ++ line) lines) in
  LF ++ quoted ++ LF.

Definition _process_blockquotes (soup : node) : node :=
  replace_all ["blockquote"] blockquote_text soup.

Definition _process_horizontal_rules (soup : node) : node :=
  replace_all ["hr"] (fun _ => LF ++ "---" ++ LF) soup.

Definition _process_structure (soup : node) : result node :=
  let soup := _process_headings soup in
  let soup := _process_lists soup in
  bind (if preserve_tables (config self) then _process_tables soup else Return soup)
       (fun soup =>
  let soup := _process_code_blocks soup in
  let soup := _process_blockquotes soup in
  Return (_process_horizontal_rules soup)).

(** The text of a paragraph: its strings stripped, the empty ones left
    out, joined by blanks; nothing when no string is left. *)
Definition p_text (p : node) : option string :=
  match stripped_strings p with
  | [] => None
  | content_parts => Some (LF ++ join " " content_parts ++ LF ++ LF)
  end.

Definition _process_paragraphs_final (soup : node) : node :=
  replace_some ["p"] p_text soup.

(** [re.sub(r"\n\s*\n", "\n\n", text)] *)
Definition collapse_blank_lines (text : string) : string :=
  re_sub match_blank_lines (LF ++ LF) 0 text.

(** [re.sub(r" +", " ", text)] *)
Definition collapse_blanks (text : string) : string :=
  re_sub match_blanks " " 0 text.

Definition _clean_and_format `{Html} (text : string) : string :=
  let text := collapse_blank_lines text in
  let text := collapse_blanks text in
  let text := unescape text in
  strip text ++ LF.

(** The handler of lines 84-86 logs and raises again: the outcome is that
    of the body. *)
Definition convert_html_soup `{Parser} `{Html} (soup : node)
           (container_selector : option string) : result string :=
  let soup :=
    match container_selector with
    | None => soup
    | Some sel =>
        if (sel =? "")%string then soup
        else match select_one soup sel with
             | Some container => container
             | None => soup
             end
    end in
  bind (if preserve_structure (config self) then _process_structure soup
        else Return soup) (fun soup =>
  let soup := _process_basic_formatting soup in
  let soup := _process_paragraphs_final soup in
  Return (_clean_and_format (get_text soup))).

Definition convert_html_str `{Parser} `{Html} (html_str : string)
           (container_selector : option string) : result string :=
  let soup := BeautifulSoup html_str in
  convert_html_soup soup container_selector.

Definition invalid_content : exn :=
  ValueError (Msg "Content must be either a string or BeautifulSoup/Tag object").

(** The handler of lines 55-57 logs and raises again. *)
Definition convert_html `{Parser} `{Html} (content : object)
           (container_selector : option string) : result string :=
  match as_str content with
  | Some s => convert_html_str s container_selector
  | None =>
      match content with
      | PyTag soup => convert_html_soup soup container_selector
      | _ => Raise invalid_content
      end
  end.

End Passes.

Definition convert_html_to_markdown `{Memory} `{Parser} `{Html} (html_content : object)
           (container_selector : option string) (cfg : option ConversionConfig)
  : result string :=
  let converter := new_converter cfg in
  convert_html converter html_content container_selector.

End MarkdownConverter.

(* ===================================================================== *)
(** * html/table_renderer.py *)
(* ===================================================================== *)

Module TableRenderer.
Import Py Bs4.

(** The libraries of the renderer: [textwrap.wrap(text, width)], and the
    printing of a table of so many columns with the given rows (square
    box, no header, a line between rows), captured as text. *)
Class Rich : Type := {
  wrap : string -> nat -> list string;
  print_table : nat -> list (list string) -> string
}.

Definition cell_text `{Rich} (cell : node) : string :=
  let text := join " " (stripped_strings cell) in
  if (200 <? String.length text)%nat then join LF (wrap text 200) else text.

Definition list_max (l : list nat) : nat := fold_right Nat.max 0%nat l.

Definition convert_html_to_table `{Parser} `{Rich} (html_string : option string) : string :=
  match html_string with
  | None => EmptyString
  | Some html_string =>
      if (html_string =? "")%string then EmptyString
      else
        let soup := BeautifulSoup html_string in
        if Nat.eqb (List.length (find_all ["tr"] soup)) 0 then EmptyString
        else
          let max_columns :=
            list_max (map (fun row => List.length (find_all ["td"; "th"] row))
                          (find_all ["tr"] soup)) in
          let rows :=
            map (fun row =>
                   let row_data := map cell_text (find_all ["td"; "th"] row) in
                   (row_data ++ repeat EmptyString (max_columns - List.length row_data))%list)
                (find_all ["tr"] soup) in
          print_table max_columns rows
  end.

End TableRenderer.

(* ===================================================================== *)
(** * Library operations where their behaviour is fixed *)
(* ===================================================================== *)

Module Reference.
Import Py Bs4 TypeConverters MarkdownConverter TableRenderer.

(** Text without [<] and without [&] holds neither a tag nor a character
    reference. *)
Definition plain_text (s : string) : bool :=
  negb (contains "<" s) && negb (contains "&" s).

(** What the parser does with plain text: nothing for the empty text, and
    the text as the one string of the document when some character of it
    is not white space. *)
Definition parses_plain_text (P : Parser) : Prop :=
  BeautifulSoup EmptyString = document [] /\
  forall s, plain_text s = true -> strip s <> EmptyString ->
            BeautifulSoup s = document [NavigableString s].

(** [html.unescape] returns a text without [&] as it is. *)
Definition unescapes_plain_text (H : Html) : Prop :=
  forall s, contains "&" s = false -> unescape s = s.

(** A parser that reads every markup as plain text, and selects nothing. *)
Definition text_parser : Parser := {|
  BeautifulSoup := fun s =>
    document (if (s =? "")%string then [] else [NavigableString s]);
  select_one := fun _ _ => None
|}.

(** An [unescape] for texts without character references. *)
Definition no_unescape : Html := {| unescape := fun s => s |}.

(** A run with room for lists of a million elements. *)
Definition roomy : Memory := {| list_limit := 1000000 |}.

(** A renderer that prints the cells of a row side by side. *)
Definition plain_rich : Rich := {|
  wrap := fun text _ => [text];
  print_table := fun _ rows => join LF (map (join "|") rows)
|}.

End Reference.

(* ===================================================================== *)
(** * Properties stated by the specification *)
(* ===================================================================== *)

Module Spec.
Import Py Bs4.

(** Every character of [w] is white space. *)
Fixpoint all_space (w : string) : Prop :=
  match w with
  | EmptyString => True
  | String c r => isspace c = true /\ all_space r
  end.

(** No run of blank-ish lines but a single blank line: two line feeds
    with only white space between them are adjacent. *)
Definition blank_lines_collapsed (t : string) : Prop :=
  forall a w b, t = a ++ LF ++ w ++ LF ++ b -> all_space w -> w = EmptyString.

(** No two adjacent blanks. *)
Definition blanks_collapsed (t : string) : Prop :=
  forall a b, t <> a ++ "  " ++ b.

(** The text neither starts nor ends with white space. *)
Definition trimmed (t : string) : Prop :=
  (forall c r, t = String c r -> isspace c = false) /\
  (forall b c, t = b ++ String c EmptyString -> isspace c = false).

(** The text is a trimmed body, then one line feed. *)
Definition one_trailing_newline (t : string) : Prop :=
  exists body, t = body ++ LF /\ trimmed body.

(** The text starts with a blank-ish line: white space up to a line
    feed. *)
Definition starts_blank_line (t : string) : Prop :=
  exists w rest, t = w ++ LF ++ rest /\ all_space w.

(** [blank_lines_to_one t out]: [out] is [t] with each run of blank-ish
    lines replaced by one blank line.  From left to right: a line feed,
    white space and a last line feed, the longest such run, become two
    line feeds; every other character is kept. *)
Inductive blank_lines_to_one : string -> string -> Prop :=
| blank_lines_end : blank_lines_to_one EmptyString EmptyString
| blank_lines_run : forall w rest out,
    all_space w -> ~ starts_blank_line rest ->
    blank_lines_to_one rest out ->
    blank_lines_to_one (LF ++ w ++ LF ++ rest) (LF ++ LF ++ out)
| blank_lines_keep : forall c rest out,
    (c = "010"%char -> ~ starts_blank_line rest) ->
    blank_lines_to_one rest out ->
    blank_lines_to_one (String c rest) (String c out).

(** [blanks_to_one t out]: [out] is [t] with each run of blanks, taken
    whole, replaced by one blank; every other character is kept. *)
Inductive blanks_to_one : string -> string -> Prop :=
| blanks_end : blanks_to_one EmptyString EmptyString
| blanks_run : forall n rest out,
    (forall r, rest <> String " " r) ->
    blanks_to_one rest out ->
    blanks_to_one (str_mul " " (S n) ++ rest) (String " " out)
| blanks_keep : forall c rest out,
    c <> " "%char ->
    blanks_to_one rest out ->
    blanks_to_one (String c rest) (String c out).

(** The characters of [t] that are not white space, in order. *)
Fixpoint visible (t : string) : string :=
  match t with
  | EmptyString => EmptyString
  | String c r => if isspace c then visible r else String c (visible r)
  end.

(** Is [p] a part of [t]? *)
Definition occurs (p t : string) : Prop := exists a b, t = a ++ p ++ b.

(** [t] holds a run of blank-ish lines: two line feeds with only white
    space between them. *)
Definition has_blank_run (t : string) : Prop :=
  exists a w b, t = a ++ LF ++ w ++ LF ++ b /\ all_space w.

(** [t] without its first [n] characters. *)
Fixpoint drop (n : nat) (t : string) : string :=
  match n, t with
  | O, _ => t
  | S k, String _ r => drop k r
  | S _, EmptyString => EmptyString
  end.

(** The invariant behind [blank_lines_collapsed]: after a line feed, the
    pattern [\s*\n] matches nothing or the next character only. *)
Fixpoint blank_runs_ok (t : string) : Prop :=
  match t with
  | EmptyString => True
  | String c v =>
      (c = "010"%char ->
       MarkdownConverter.match_spaces_newline v = None \/
       MarkdownConverter.match_spaces_newline v = Some 1%nat) /\
      blank_runs_ok v
  end.

(** The invariant behind [blanks_collapsed]: no blank follows a blank. *)
Fixpoint blanks_ok (t : string) : Prop :=
  match t with
  | EmptyString => True
  | String c v => (c = " "%char -> forall v', v <> String " " v') /\ blanks_ok v
  end.

(** The number of blanks [t] starts with. *)
Definition leading_blanks (t : string) : nat :=
  match MarkdownConverter.match_blanks t with
  | Some n => n
  | None => O
  end.

(** A document holding a table of one row and one cell, whose span
    attribute is [v]. *)
Definition single_cell_table (v text : string) : node :=
  document [Tag "table" [] [Tag "tr" [] [Tag "td" [("colspan", v)] [NavigableString text]]]].

(** A header row, then a row with a header cell and a normal cell. *)
Definition mixed_row_table : node :=
  document
    [Tag "table" []
       [Tag "tr" [] [Tag "th" [] [NavigableString "H1"]; Tag "th" [] [NavigableString "H2"]];
        Tag "tr" [] [Tag "th" [] [NavigableString "R"]; Tag "td" [] [NavigableString "V"]]]].

(** The failure of [int()] on a string. *)
Definition literal_error (e : exn) : Prop := exists v, e = invalid_int_literal v.

(** The failures of the table pass: those of [int()] on a span, and those
    of the repetition of empty strings. *)
Definition span_error (e : exn) : Prop :=
  literal_error e \/ (exists digits, e = int_digits_exceeded digits) \/
  e = not_index_sized \/ e = MemoryError.

(** Is the value an object that [float()] reads by a method of the
    object's own? *)
Definition is_floatable (value : object) : bool :=
  match value with
  | PyFloatable _ => true
  | _ => false
  end.

(** Is the value a markup string or a parsed tree? *)
Definition is_markup (content : object) : bool :=
  match as_str content with
  | Some _ => true
  | None => match content with PyTag _ => true | _ => false end
  end.


End Spec.

(* ===================================================================== *)
(** * Further notions used in the statements *)
(* ===================================================================== *)

Module Props.
Import Py Bs4 TypeConverters MarkdownConverter TableRenderer.

(** The text [safe_decimal] parses: the value itself when it is a string,
    its [str] when it is a number and [str] returns. *)
Definition decimal_text `{FloatStr} (value : object) : option string :=
  match str_of_number value with
  | Some (Return s) => Some s
  | Some (Raise _) => None
  | None => as_str value
  end.

(** Every character of [s] is a decimal digit. *)
Fixpoint all_digits (s : string) : bool :=
  match s with
  | EmptyString => true
  | String c r => isdigit c && all_digits r
  end.

(** A run of digits behind an optional minus sign: the decimal numeral of
    an integer other than zero. *)
Definition signed (neg : bool) (digits : string) : string :=
  (if neg then "-" else "") ++ digits.

(** The tags the passes of the structure look for (lines 88-96). *)
Definition structure_tags : list string :=
  ["h1"; "h2"; "h3"; "h4"; "h5"; "h6"; "ol"; "ul"; "table"; "pre"; "blockquote"; "hr"].

(** The tags the inline passes look for (lines 282-311). *)
Definition inline_tags : list string :=
  ["strong"; "b"; "em"; "i"; "s"; "del"; "code"; "a"].

(** The tags some pass of the converter looks for. *)
Definition handled_tags : list string := (structure_tags ++ inline_tags ++ ["p"])%list.

(** No tag below [n] is named by one of [names]. *)
Definition absent (names : list string) (n : node) : Prop := find_all names n = [].



(** The expansion of [cell] raises [e]: [int()] raises it on the span, or
    reads a span whose repetition raises it. *)
Definition span_fails `{Memory} (e : exn) (cell : node) : Prop :=
  colspan_of cell = Raise e \/
  exists k, colspan_of cell = Return k /\ 1 < k /\
            list_repeat EmptyString (k - 1) = Raise e.




(** The number of columns of the rendered table, and its rows, each the
    texts of its cells padded with empty strings (lines 40-60 of the
    renderer). *)
Definition max_columns (soup : node) : nat :=
  list_max (map (fun row => List.length (find_all ["td"; "th"] row))
                (find_all ["tr"] soup)).

Definition table_rows `{Rich} (soup : node) : list (list string) :=
  map (fun row =>
         let row_data := map cell_text (find_all ["td"; "th"] row) in
         (row_data ++ repeat EmptyString (max_columns soup - List.length row_data))%list)
      (find_all ["tr"] soup).

(** A heading followed by a rule. *)
Definition titled_document : node :=
  document [Tag "h1" [] [NavigableString "Title"]; Tag "hr" [] []].

(** Markup the converter has no pass for. *)
Definition division_document : node :=
  document [Tag "div" [("class", "note")]
              [NavigableString "Hello "; Tag "span" [] [NavigableString "World"]]].

(** A table of a header row and a data row, without spans. *)
Definition plain_table : node :=
  Tag "table" []
      [Tag "tr" [] [Tag "th" [] [NavigableString "A"]; Tag "th" [] [NavigableString "B"]];
       Tag "tr" [] [Tag "td" [] [NavigableString "1"]; Tag "td" [] [NavigableString "2"]]].

(** A table of two rows of data cells, without header cells. *)
Definition headerless_table : node :=
  Tag "table" []
      [Tag "tr" [] [Tag "td" [] [NavigableString "A"]; Tag "td" [] [NavigableString "B"]];
       Tag "tr" [] [Tag "td" [] [NavigableString "1"]; Tag "td" [] [NavigableString "2"]]].

(** The default configuration, with indented code blocks. *)
Definition indented_config : ConversionConfig := {|
  preserve_structure := true;
  preserve_tables := true;
  preserve_links := true;
  heading_style := "atx";
  link_style := "inline";
  bullet_marker := "-";
  code_block_style := "indented";
  fence_char := "`";
  emphasis_marker := "*"
|}.



End Props.

(* ===================================================================== *)
(** * Theorems: type converters *)
(* ===================================================================== *)

Import Py Bs4 TypeConverters MarkdownConverter TableRenderer Reference Spec Props.

Section TypeConverterFacts.

Context `{FloatStr}.

(** C10. [safe_int] accepts a boolean: [True] goes through [float] as 1.0
    and comes out as 1, [False] as 0.0 and 0; neither is the absence
    marker. *)
Theorem safe_int_bool :
  forall b : bool,
    exists f, float_of_object (PyBool b) = Return f /\
              int_of_float f = Return (Z.b2z b) /\
              safe_int (PyBool b) = Return (Some (Z.b2z b)).
Proof.
  intros [|].
  - exists (FFin false (2 ^ 52) (-52)). repeat split.
  - exists (FFin false 0 0). repeat split.
Qed.

(** [safe_str] returns for every value. *)
Lemma safe_str_returns (value : object) : exists r, safe_str value = Return r.
Proof.
  unfold safe_str. destruct (as_str value); eauto.
Qed.

(** An exception leaves a [try] only when the clause does not name it. *)
Lemma try_except_raises {A : Type} (c h : result A) (caught : exn -> bool) (e : exn) :
  try_except c caught h = Raise e ->
  (c = Raise e /\ caught e = false) \/ (exists e0, c = Raise e0 /\ caught e0 = true /\ h = Raise e).
Proof.
  unfold try_except. destruct c as [a|e0]; [discriminate|].
  destruct (caught e0) eqn:Hc.
  - intros Hh. right. exists e0. auto.
  - intros Hr. inversion Hr; subst. left. auto.
Qed.

Lemma bind_raises {A B : Type} (c : result A) (k : A -> result B) (e : exn) :
  bind c k = Raise e -> c = Raise e \/ exists a, c = Return a /\ k a = Raise e.
Proof.
  destruct c as [a|e0]; simpl; intros Hr.
  - right. exists a. auto.
  - left. inversion Hr. reflexivity.
Qed.

Lemma float_of_int_raises (z : Z) (e : exn) :
  float_of_int z = Raise e -> exists m, e = OverflowError m.
Proof.
  unfold float_of_int. destruct (binary64 _ _ _); intros Hr; inversion Hr. eauto.
Qed.

Lemma float_of_str_raises (s : string) (e : exn) :
  float_of_str s = Raise e -> e = invalid_float_literal s.
Proof.
  unfold float_of_str.
  destruct (negb _); [intros Hr; inversion Hr; reflexivity|].
  destruct (scan_sign _) as [neg body].
  destruct (_ || _); [discriminate|].
  destruct (_ =? _)%string; [discriminate|].
  destruct (scan_literal body) as [[l [|c r]]|]; try (intros Hr; inversion Hr; reflexivity).
  destruct (0 <=? lit_exp10 l); destruct (binary64 _ _ _); discriminate.
Qed.

(** What [safe_int] raises is an overflow, for [None], a [bool], an [int],
    a [float], a [str], a tree or an object [float()] does not read. *)
Lemma safe_int_raises (value : object) (e : exn) :
  is_floatable value = false ->
  safe_int value = Raise e -> exists m, e = OverflowError m.
Proof.
  unfold safe_int. intros Hk Hs.
  assert (Ht : exists c, try_except c is_ValueError_or_TypeError (Return None) = Raise e /\
                         c = bind (float_of_object value) (fun f =>
                             bind (int_of_float f) (fun z => Return (Some z)))).
  { destruct value; try discriminate; eexists; split; try exact Hs; reflexivity. }
  destruct Ht as (c & Ht & ->).
  apply try_except_raises in Ht. destruct Ht as [[Hb Hc]|(e0 & _ & _ & Hh)]; [|discriminate].
  apply bind_raises in Hb. destruct Hb as [Hf|(f & _ & Hi)].
  - unfold float_of_object in Hf. destruct (as_str value).
    + apply float_of_str_raises in Hf. subst e. discriminate.
    + destruct value; try discriminate Hk;
        try (inversion Hf; subst e; discriminate);
        eapply float_of_int_raises; eassumption.
  - apply bind_raises in Hi. destruct Hi as [Hi|(z & _ & Hi)]; [|discriminate].
    destruct f; simpl in Hi; inversion Hi; subst; try discriminate. eauto.
Qed.

(** C2. The helpers do raise: [safe_int] lets the overflow of an infinite
    float through, and [safe_decimal] raises on the quiet not-a-number at
    its last comparison; [safe_str] alone returns for every value. *)
Theorem converters_raise :
  safe_int (PyStr "inf") = Raise (OverflowError (Msg "cannot convert float infinity to integer")) /\
  safe_int (PyInt (10 ^ 400)) = Raise (OverflowError (Msg "int too large to convert to float")) /\
  safe_decimal (PyStr "NaN") = Raise InvalidOperation /\
  (forall value, exists r, safe_str value = Return r).
Proof.
  split; [|split; [|split]].
  - reflexivity.
  - vm_compute. reflexivity.
  - reflexivity.
  - apply safe_str_returns.
Qed.

(** C4. The examples of the specification hold, and a special value is
    handled as far as the infinities go; the quiet not-a-number passes the
    quantization and fails the comparison that follows, outside any
    handler. *)
Theorem safe_decimal_examples :
  safe_decimal (PyStr "<1") = Return (Some (DFin false 99990 (-5))) /\
  safe_decimal (PyStr "123.45") = Return (Some (DFin false 12345000 (-5))) /\
  safe_decimal (PyStr "invalid") = Return None /\
  safe_decimal (PyInt 10000000000) = Return None /\
  safe_decimal PyNone = Return None /\
  safe_decimal PyOther = Return None /\
  safe_decimal (PyStr "Infinity") = Return None /\
  safe_decimal (PyStr "sNaN") = Return None /\
  safe_decimal (PyStr "NaN") = Raise InvalidOperation /\
  safe_decimal (PyStr "<nan") = Raise InvalidOperation.
Proof.
  repeat split.
Qed.

End TypeConverterFacts.

Section DecimalFacts.

Context `{FloatStr}.

Lemma digit_value_nonneg (c : ascii) : isdigit c = true -> 0 <= digit_value c.
Proof.
  unfold isdigit, digit_value. intros Hd. apply andb_prop in Hd.
  destruct Hd as [Hlo _]. apply N.leb_le in Hlo. lia.
Qed.

Lemma take_digits_nonneg (s : string) :
  forall acc v n rest, 0 <= acc -> take_digits acc s = (v, n, rest) -> 0 <= v.
Proof.
  induction s as [|c r IH]; cbn [take_digits]; intros acc v n rest Hacc.
  - intros Heq. inversion Heq; subst. exact Hacc.
  - destruct (isdigit c) eqn:Hd.
    + destruct (take_digits (10 * acc + digit_value c) r) as [[v' n'] rest'] eqn:Ht.
      intros Heq. inversion Heq; subst.
      eapply IH; [|exact Ht]. pose proof (digit_value_nonneg c Hd). lia.
    + intros Heq. inversion Heq; subst. exact Hacc.
Qed.

Lemma scan_literal_nonneg (s : string) (l : literal) (rest : string) :
  scan_literal s = Some (l, rest) -> 0 <= lit_digits l.
Proof.
  unfold scan_literal.
  destruct (take_digits 0 s) as [[i ni] r1] eqn:Hi.
  pose proof (take_digits_nonneg s 0 i ni r1 (Z.le_refl 0) Hi) as Hi0.
  assert (Hm : forall m nf r2,
             match r1 with
             | String "." r => let '(v, n, rest) := take_digits i r in (v, n, rest)
             | _ => (i, O, r1)
             end = (m, nf, r2) -> 0 <= m).
  { intros m nf r2. destruct r1 as [|c r].
    - intros Heq. inversion Heq; subst. exact Hi0.
    - destruct (Ascii.eqb_spec c ".") as [->|Hc].
      + destruct (take_digits i r) as [[v n] rest'] eqn:Hf.
        intros Heq. inversion Heq; subst. eapply take_digits_nonneg; eassumption.
      + intros Heq.
        assert (Hsame : (m, nf, r2) = (i, O, String c r)).
        { rewrite <- Heq. clear Heq.
          destruct c as [[|] [|] [|] [|] [|] [|] [|] [|]]; try reflexivity. congruence. }
        inversion Hsame; subst. exact Hi0. }
  destruct (match r1 with String "." r => _ | _ => _ end) as [[m nf] r2] eqn:Hf.
  specialize (Hm m nf r2 eq_refl).
  destruct ni, nf; try discriminate;
    destruct (scan_exponent r2) as [e r3]; intros Heq; inversion Heq; subst; exact Hm.
Qed.

Lemma Decimal_of_str_nonneg (s : string) (neg : bool) (c e : Z) :
  Decimal_of_str s = Return (DFin neg c e) -> 0 <= c.
Proof.
  unfold Decimal_of_str. destruct (scan_sign _) as [sg body].
  destruct (_ || _); [discriminate|].
  destruct (startswith "nan" _).
  { destruct (take_digits 0 _) as [[d n] [|x r]]; discriminate. }
  destruct (startswith "snan" _).
  { destruct (take_digits 0 _) as [[d n] [|x r]]; discriminate. }
  destruct (scan_literal body) as [[l [|x r]]|] eqn:Hl; try discriminate.
  intros Heq. inversion Heq; subst. eapply scan_literal_nonneg. eassumption.
Qed.

Lemma round_half_even_nonneg (num den : Z) : 0 <= num -> 0 < den -> 0 <= round_half_even num den.
Proof.
  intros Hn Hd. unfold round_half_even.
  assert (0 <= num / den) by (apply Z.div_pos; lia).
  destruct (2 * (num mod den) ?= den); [destruct (Z.even _)|..]; lia.
Qed.

Lemma fix_prec_nonneg (neg : bool) (c e : Z) (n' : bool) (c' e' : Z) :
  0 <= c -> fix_prec neg c e = DFin n' c' e' -> 0 <= c'.
Proof.
  intros Hc. unfold fix_prec. destruct (0 <? ndigits c - prec) eqn:Hk.
  - apply Z.ltb_lt in Hk. destruct (_ =? 10 ^ prec).
    + intros Heq. injection Heq as _ <- _. apply Z.leb_le. reflexivity.
    + intros Heq. injection Heq as _ <- _. apply round_half_even_nonneg; [exact Hc|].
      apply Z.pow_pos_nonneg; lia.
  - intros Heq. inversion Heq; subst. exact Hc.
Qed.

Lemma Decimal_sub_nonneg (a b : Decimal) (neg : bool) (c e : Z) :
  Decimal_sub a b = Return (DFin neg c e) -> 0 <= c.
Proof.
  destruct a as [na ca ea|na|na [|] da], b as [nb cb eb|nb|nb [|] db]; simpl;
    try discriminate; try (destruct (Bool.eqb na nb); discriminate).
  intros Heq. inversion Heq as [Hf]. eapply fix_prec_nonneg; [|exact Hf]. apply Z.abs_nonneg.
Qed.

Lemma parse_decimal_nonneg (s : string) (neg : bool) (c e : Z) :
  parse_decimal s = Return (Some (DFin neg c e)) -> 0 <= c.
Proof.
  unfold parse_decimal. destruct (startswith "<" s).
  - destruct (Decimal_of_str _) as [d|x]; simpl; [|discriminate].
    destruct (Decimal_sub d _) as [d'|x] eqn:Hs; simpl; [|discriminate].
    intros Heq. inversion Heq; subst. eapply Decimal_sub_nonneg. eassumption.
  - destruct (Decimal_of_str s) as [d|x] eqn:Hd; simpl; [|discriminate].
    intros Heq. inversion Heq; subst. eapply Decimal_of_str_nonneg. eassumption.
Qed.

(** What the quantization returns has five decimal places and at most
    [prec] digits. *)
Lemma quantize5_finite (d q : Decimal) :
  quantize5 d = Return q ->
  (exists neg s g, d = DNaN neg s g /\ q = d) \/
  (exists neg c0 e0 c, d = DFin neg c0 e0 /\ q = DFin neg c (-5) /\
                       (0 <= c0 -> 0 <= c) /\ ndigits c <= prec).
Proof.
  destruct d as [neg c0 e0|neg|neg [|] g]; cbn [quantize5]; try discriminate.
  - destruct (c0 =? 0) eqn:Hz.
    { intros Heq. inversion Heq; subst. right. exists neg, c0, e0, 0.
      repeat split; try lia. vm_compute. discriminate. }
    destruct (prec <? _); [discriminate|].
    match goal with
    | |- context [ndigits ?x] => set (c := x)
    end.
    destruct (prec <? ndigits c) eqn:Hp; [discriminate|].
    intros Heq. inversion Heq; subst. right. exists neg, c0, e0, c.
    apply Z.ltb_ge in Hp. repeat split; auto. intros Hc0. subst c.
    destruct (-5 <=? e0) eqn:He.
    + apply Z.leb_le in He. apply Z.mul_nonneg_nonneg; [exact Hc0|].
      apply Z.pow_nonneg. lia.
    + apply Z.leb_gt in He.
      assert (0 < 10 ^ (-5 - e0)) by (apply Z.pow_pos_nonneg; lia).
      assert (0 <= c0 / 10 ^ (-5 - e0)) by (apply Z.div_pos; lia).
      cbv zeta. destruct (_ <=? _); lia.
  - intros Heq. inversion Heq; subst. left. eauto.
Qed.

Lemma quantize_in_range_finite (dec d : Decimal) :
  quantize_in_range dec = Return (Some d) ->
  exists neg c0 e0 c, dec = DFin neg c0 e0 /\ d = DFin neg c (-5) /\
                      (0 <= c0 -> 0 <= c) /\ c < 10 ^ 15.
Proof.
  unfold quantize_in_range.
  destruct (quantize5 dec) as [q|x] eqn:Hq; simpl.
  - destruct (quantize5_finite dec q Hq) as [(neg & s & g & -> & ->)|
                                             (neg & c0 & e0 & c & -> & -> & Hc & Hn)].
    + destruct s; discriminate.
    + unfold Decimal_abs, fix_prec.
      assert (Hk : (0 <? ndigits c - prec) = false) by (apply Z.ltb_ge; lia).
      rewrite Hk. cbn [bind Decimal_ge].
      change (Z.min (-5) 0) with (-5). change (0 - -5) with 5. change (-5 - -5) with 0.
      destruct (_ <=? _) eqn:Hle; [discriminate|].
      intros Heq. inversion Heq; subst. exists neg, c0, e0, c.
      apply Z.leb_gt in Hle. repeat split; auto. lia.
  - destruct (is_InvalidOperation x); simpl; discriminate.
Qed.

(** [safe_decimal] raises what [str] raised on a number, and otherwise
    goes on with the text. *)
Lemma safe_decimal_text (value : object) :
  (exists e, str_of_number value = Some (Raise e) /\ safe_decimal value = Raise e) \/
  (forall e, str_of_number value <> Some (Raise e)) /\
  safe_decimal value
  = match decimal_text value with
    | None => Return None
    | Some s =>
        if (strip s =? "")%string then Return None
        else bind (parse_decimal (strip s)) (fun parsed =>
             match parsed with
             | None => Return None
             | Some dec => quantize_in_range dec
             end)
    end.
Proof.
  unfold safe_decimal, decimal_text.
  destruct value as [|b|z|f|s|t|r|];
    try (right; split; [intros e; cbn [str_of_number]; try destruct b; discriminate
                       | reflexivity]).
  cbn [str_of_number]. destruct (str_of_int_checked z) as [s|e];
    [right; split; [discriminate | reflexivity]|].
  left. exists e. split; reflexivity.
Qed.

(** X1. What [safe_decimal] returns, when it is not the absence marker,
    has exactly five decimal places and a magnitude below 10^10. *)
Theorem safe_decimal_quantized :
  forall (value : object) (d : Decimal),
    safe_decimal value = Return (Some d) ->
    exists neg c, d = DFin neg c (-5) /\ 0 <= c < 10 ^ 15.
Proof.
  intros value d Hs.
  destruct (safe_decimal_text value) as [(e & _ & He)|[_ Hbody]]; [congruence|].
  rewrite Hbody in Hs. clear Hbody.
  destruct (decimal_text value) as [s|]; [|discriminate].
  destruct (strip s =? "")%string; [discriminate|].
  destruct (parse_decimal (strip s)) as [[dec|]|x] eqn:Hp; simpl in Hs; try discriminate.
  destruct (quantize_in_range_finite dec d Hs) as (neg & c0 & e0 & c & -> & -> & Hc & Hlt).
  exists neg, c. split; [reflexivity|]. split; [|exact Hlt].
  apply Hc. eapply parse_decimal_nonneg. eassumption.
Qed.

End DecimalFacts.

Lemma safe_decimal_quantized_witness :
  @safe_decimal {| str_of_float := fun _ => "0.0" |} (PyStr "<1")
  = Return (Some (DFin false 99990 (-5))) /\
  exists neg c, DFin false 99990 (-5) = DFin neg c (-5) /\ 0 <= c < 10 ^ 15.
Proof.
  split; [reflexivity|].
  exact (@safe_decimal_quantized {| str_of_float := fun _ => "0.0" |}
           (PyStr "<1") (DFin false 99990 (-5)) eq_refl).
Defined.

(* ===================================================================== *)
(** * Theorems: the table pass *)
(* ===================================================================== *)

Section DecimalNumerals.

Lemma scan_digits_step (c : ascii) (r : string) (acc : Z) :
  isdigit c = true ->
  scan_digits false acc (String c r) = scan_digits false (10 * acc + digit_value c) r.
Proof.
  intros Hd. simpl. rewrite Hd. reflexivity.
Qed.

Lemma scan_digits_acc (d : Decimal.uint) :
  forall p : positive,
    scan_digits false (Zpos p) (NilEmpty.string_of_uint d)
    = Some (Zpos (Pos.of_uint_acc d p), EmptyString).
Proof.
  induction d; intros p; cbn [NilEmpty.string_of_uint Pos.of_uint_acc];
    try reflexivity;
    rewrite scan_digits_step by reflexivity;
    match goal with
    | |- scan_digits _ ?a _ = Some (Z.pos (Pos.of_uint_acc _ ?q), _) =>
        replace a with (Z.pos q) by (vm_compute digit_value; lia)
    end; apply IHd.
Qed.

Lemma scan_digits_uint (d : Decimal.uint) :
  scan_digits false 0 (NilEmpty.string_of_uint d)
  = Some (Z.of_N (Pos.of_uint d), EmptyString).
Proof.
  induction d; cbn [NilEmpty.string_of_uint Pos.of_uint];
    try reflexivity;
    rewrite scan_digits_step by reflexivity;
    [exact IHd | ..]; apply scan_digits_acc.
Qed.

(** The decimal numeral of a positive number starts with a digit. *)
Lemma numeral_head (p : positive) :
  exists c r, str_of_int (Zpos p) = String c r /\
              NilEmpty.string_of_uint (Pos.to_uint p) = String c r /\
              isdigit c = true.
Proof.
  unfold str_of_int. simpl. unfold NilZero.string_of_uint.
  pose proof (DecimalPos.Unsigned.to_uint_nonnil p) as Hn.
  destruct (Pos.to_uint p); try congruence; simpl; eauto.
Qed.

Lemma count_digits_uint (d : Decimal.uint) :
  count_digits (NilEmpty.string_of_uint d) = Decimal.nb_digits d.
Proof.
  induction d; cbn [NilEmpty.string_of_uint count_digits Decimal.nb_digits];
    try reflexivity; change (isdigit _) with true; cbv iota; now rewrite IHd.
Qed.

(** [int()] reads the decimal numeral of a positive number back, when its
    digits are within the limit. *)
Lemma int_of_str_numeral (p : positive) :
  ndigits (Zpos p) <= int_max_str_digits ->
  int_of_str (str_of_int (Zpos p)) = Return (Zpos p).
Proof.
  intros Hlimit.
  destruct (numeral_head p) as (c & r & Hs & Hu & Hd).
  unfold int_of_str. rewrite Hs.
  assert (Hsp : isspace_number c = false).
  { unfold isdigit, isspace_number in *. destruct (ord c); [discriminate|].
    revert Hd. generalize (N.pos p0). intros n Hd.
    apply andb_prop in Hd. destruct Hd as [H1 H2].
    apply N.leb_le in H1, H2.
    repeat match goal with
           | |- context [(?a <=? ?b)%N] => destruct (N.leb_spec a b)
           | |- context [(?a =? ?b)%N] => destruct (N.eqb_spec a b)
           end; simpl; try reflexivity; lia. }
  simpl. rewrite Hsp.
  assert (Hsg : scan_sign (String c r) = (false, String c r)).
  { unfold isdigit in Hd. unfold scan_sign.
    destruct c as [[|] [|] [|] [|] [|] [|] [|] [|]]; try reflexivity; discriminate. }
  rewrite Hsg, Hd, <- Hu, scan_digits_uint, DecimalPos.Unsigned.of_to.
  rewrite count_digits_uint.
  replace (int_max_str_digits <? Z.of_nat (Decimal.nb_digits (Pos.to_uint p))) with false
    by (symmetry; apply Z.ltb_ge; exact Hlimit).
  reflexivity.
Qed.

End DecimalNumerals.

Section TableFacts.

Context `{Memory} `{Parser} `{Html}.



(** A span that [int()] reads as zero or as a negative number counts as
    one column. *)
Lemma expand_cell_nonpositive (cell : node) (v : string) (n : Z) :
  get "colspan" cell = Some v -> int_of_str v = Return n -> n <= 0 ->
  expand_cell cell = Return [strip (get_text cell)].
Proof.
  intros Hg Hi Hn. unfold expand_cell, colspan_of. rewrite Hg, Hi. cbn [bind].
  destruct (Z.ltb_spec 1 n); [lia | reflexivity].
Qed.

(** A cell without the attribute counts as one column. *)
Lemma expand_cell_default (cell : node) :
  get "colspan" cell = None -> expand_cell cell = Return [strip (get_text cell)].
Proof.
  intros Hg. unfold expand_cell, colspan_of. rewrite Hg. reflexivity.
Qed.

(** A row holding a header cell is passed over by the loop of the data
    rows, whatever normal cells it has. *)
Lemma data_rows_skips_th (h : option nat) (idx : nat) (tr : node)
      (rest : list (nat * node)) :
  find_all ["th"] tr <> [] ->
  data_rows h ((idx, tr) :: rest) = data_rows h rest.
Proof.
  intros Hth. simpl. destruct (match h with Some _ => _ | None => _ end); [reflexivity|].
  destruct (find_all ["th"] tr); [congruence | reflexivity].
Qed.

(** The inline passes leave a table without inline tags as it is. *)
Lemma inline_formatting_cell (self : HTMLToMarkdownConverter) (v text : string) :
  inline_formatting self
    (Tag "table" [] [Tag "tr" [] [Tag "td" [("colspan", v)] [NavigableString text]]])
  = Tag "table" [] [Tag "tr" [] [Tag "td" [("colspan", v)] [NavigableString text]]].
Proof.
  unfold inline_formatting. cbn. destruct (_ && _); reflexivity.
Qed.

(** The failure of [int()] on the span of a data cell is the outcome of
    the table. *)
Lemma table_text_malformed (self : HTMLToMarkdownConverter) (v text : string) (e : exn) :
  int_of_str v = Raise e ->
  table_text self
    (Tag "table" [] [Tag "tr" [] [Tag "td" [("colspan", v)] [NavigableString text]]])
  = Raise e.
Proof.
  intros Hv. unfold table_text, _process_table_inline_formatting.
  rewrite inline_formatting_cell.
  cbn -[int_of_str expand_cell]. unfold expand_cell, colspan_of. cbn -[int_of_str].
  rewrite Hv. reflexivity.
Qed.

(** C1. A span attribute that [int()] does not read makes the whole
    conversion raise what [int()] raised: the value is not replaced by a
    span of 1, and no text comes out. *)
Theorem malformed_colspan_raises :
  forall (self : HTMLToMarkdownConverter) (v text : string) (e : exn),
    preserve_structure (config self) = true ->
    preserve_tables (config self) = true ->
    int_of_str v = Raise e ->
    convert_html self (PyTag (single_cell_table v text)) None = Raise e.
Proof.
  intros self v text e Hs Ht Hv.
  unfold convert_html, convert_html_soup. cbn [as_str single_cell_table document].
  rewrite Hs. unfold _process_structure. rewrite Ht.
  unfold _process_tables, replace_all_result.
  cbn -[table_text]. rewrite (table_text_malformed self v text e Hv). reflexivity.
Qed.

(** The structural passes on the table with a mixed row: the header and
    its separator, and nothing of the second row. *)
Lemma mixed_row_structure :
  _process_structure (new_converter None) mixed_row_table
  = Return (document [NavigableString (LF ++ "| H1 | H2 |" ++ LF ++ "| --- | --- |" ++ LF)]).
Proof. reflexivity. Qed.

(** C3. A row that mixes a header cell and a normal cell, below the
    header row, is left out of the table: the text of its normal cell is
    not in the output. *)
Theorem mixed_row_is_dropped :
  unescapes_plain_text _ ->
  convert_html (new_converter None) (PyTag mixed_row_table) None
  = Return ("| H1 | H2 |" ++ LF ++ "| --- | --- |" ++ LF) /\
  contains "V" ("| H1 | H2 |" ++ LF ++ "| --- | --- |" ++ LF) = false.
Proof.
  intros Hu. split; [|reflexivity].
  unfold convert_html, convert_html_soup. cbn [as_str].
  change (preserve_structure (config (new_converter None))) with true. cbv iota.
  rewrite mixed_row_structure. cbn [bind]. unfold _clean_and_format.
  match goal with
  | |- context [unescape ?t] => let t' := eval vm_compute in t in change t with t'
  end.
  rewrite Hu by reflexivity. reflexivity.
Qed.

End TableFacts.


Lemma malformed_colspan_raises_witness :
  int_of_str "27'height=colspan='3'"
  = Raise (invalid_int_literal "27'height=colspan='3'") /\
  @convert_html (new_converter None) roomy text_parser no_unescape
     (PyTag (single_cell_table "27'height=colspan='3'" "Supplement Facts")) None
  = Raise (invalid_int_literal "27'height=colspan='3'").
Proof.
  split; [reflexivity|].
  exact (@malformed_colspan_raises roomy text_parser no_unescape (new_converter None)
           "27'height=colspan='3'" "Supplement Facts" _ eq_refl eq_refl eq_refl).
Defined.

Lemma mixed_row_is_dropped_witness :
  unescapes_plain_text no_unescape /\
  @convert_html (new_converter None) roomy text_parser no_unescape
     (PyTag mixed_row_table) None
  = Return ("| H1 | H2 |" ++ LF ++ "| --- | --- |" ++ LF).
Proof.
  assert (Hu : unescapes_plain_text no_unescape) by (intros s _; reflexivity).
  split; [exact Hu|].
  exact (proj1 (@mixed_row_is_dropped roomy text_parser no_unescape Hu)).
Defined.

(* ===================================================================== *)
(** * Theorems: the kinds of input and of failure *)
(* ===================================================================== *)

Section ConvertFacts.

Context `{Memory} `{Parser} `{Html}.

Variable self : HTMLToMarkdownConverter.

(** [raised H x]: the failure [H : bind c k = Raise e] is the failure of
    [c], or [c] returned some [x] and [k x] failed. *)
Ltac raised H x := apply bind_raises in H; destruct H as [H | (x & _ & H)].

Lemma int_of_str_raises (v : string) (e : exn) :
  int_of_str v = Raise e -> span_error e.
Proof.
  unfold int_of_str, span_error, literal_error. destruct (scan_sign _) as [neg t].
  destruct t as [|c r]; [|destruct (isdigit c);
    [destruct (scan_digits _ _ _) as [[v0 rest]|];
     [destruct (int_max_str_digits <? _); [|destruct (lstrip_with _ rest)]|]|]];
    intros Hr; inversion Hr; first [left; eauto; fail | right; left; eauto].
Qed.

Lemma list_repeat_raises {A : Type} (x : A) (n : Z) (e : exn) :
  list_repeat x n = Raise e -> e = not_index_sized \/ e = MemoryError.
Proof.
  unfold list_repeat. destruct (n <=? 0); [discriminate|].
  destruct (maxsize <? n); [intros Hr; inversion Hr; auto|].
  destruct (list_limit <? n); [intros Hr; inversion Hr; auto | discriminate].
Qed.

Lemma colspan_of_raises (cell : node) (e : exn) :
  colspan_of cell = Raise e -> span_error e.
Proof.
  unfold colspan_of. destruct (get "colspan" cell); [apply int_of_str_raises | discriminate].
Qed.

Create HintDb raises.
#[local] Hint Resolve colspan_of_raises : raises.

Lemma expand_cell_raises (cell : node) (e : exn) :
  expand_cell cell = Raise e -> span_error e.
Proof.
  unfold expand_cell. intros Hr. raised Hr n; [eauto with raises|].
  destruct (1 <? n); [|discriminate].
  raised Hr blanks; [|discriminate].
  apply list_repeat_raises in Hr. unfold span_error. tauto.
Qed.

#[local] Hint Resolve expand_cell_raises : raises.

Lemma expand_cells_raises (cells : list node) (e : exn) :
  expand_cells cells = Raise e -> span_error e.
Proof.
  induction cells as [|cell rest IH]; simpl; [discriminate|].
  intros Hr. raised Hr columns; [eauto with raises|].
  raised Hr more; [auto | discriminate].
Qed.

Lemma spans_raise (cells : list node) (e : exn) :
  map_result colspan_of cells = Raise e -> span_error e.
Proof.
  induction cells as [|cell rest IH]; simpl; [discriminate|].
  intros Hr. raised Hr n; [eauto with raises|].
  raised Hr more; [auto | discriminate].
Qed.

#[local] Hint Resolve expand_cells_raises spans_raise : raises.

Lemma find_th_header_raises (rows : list node) :
  forall (idx : nat) (e : exn), find_th_header idx rows = Raise e -> span_error e.
Proof.
  induction rows as [|tr rest IH]; cbn [find_th_header]; intros idx e; [discriminate|].
  destruct (find_all ["th"] tr) as [|th ths] eqn:Hth; [apply IH|].
  intros Hr. raised Hr headers; [eauto with raises | discriminate].
Qed.

Lemma find_td_header_raises (rows : list node) :
  forall (idx : nat) (e : exn), find_td_header idx rows = Raise e -> span_error e.
Proof.
  induction rows as [|tr rest IH]; cbn [find_td_header]; intros idx e; [discriminate|].
  destruct (1 <? List.length (find_all ["td"] tr))%nat; [|apply IH].
  intros Hr. raised Hr spans; [eauto with raises|].
  destruct (sum spans =? _); [|eauto].
  raised Hr headers; [eauto with raises | discriminate].
Qed.

Lemma data_rows_raises (h : option nat) (rows : list (nat * node)) (e : exn) :
  data_rows h rows = Raise e -> span_error e.
Proof.
  induction rows as [|[idx tr] rest IH]; cbn [data_rows]; [discriminate|].
  destruct (match h with Some _ => _ | None => _ end); [exact IH|].
  destruct (find_all ["th"] tr); [|exact IH].
  destruct (find_all ["td"] tr) as [|td tds] eqn:Htd; [exact IH|].
  intros Hr. raised Hr cells; [eauto with raises|].
  raised Hr more; [auto | discriminate].
Qed.

#[local] Hint Resolve find_th_header_raises find_td_header_raises data_rows_raises : raises.

Lemma table_text_raises (table : node) (e : exn) :
  table_text self table = Raise e -> span_error e.
Proof.
  unfold table_text. intros Hr.
  raised Hr header; [eauto with raises|]. destruct header as [h hs].
  raised Hr header'.
  { destruct hs; [|discriminate].
    raised Hr found; [eauto with raises|]. destruct found as [[i x]|]; discriminate. }
  destruct header' as [h' hs'].
  raised Hr more; [eauto with raises | discriminate].
Qed.

Lemma for_each_raises {A : Type} (f : A -> result unit) (l : list A) (e : exn) :
  for_each f l = Raise e -> exists x, In x l /\ f x = Raise e.
Proof.
  induction l as [|x l IH]; simpl; [discriminate|].
  intros Hr. raised Hr u.
  - exists x. auto.
  - destruct (IH Hr) as (y & Hy & Hf). exists y. auto.
Qed.

Lemma _process_tables_raises (soup : node) (e : exn) :
  _process_tables self soup = Raise e -> span_error e.
Proof.
  unfold _process_tables, replace_all_result. intros Hr.
  raised Hr u; [|discriminate].
  apply for_each_raises in Hr. destruct Hr as (table & _ & Hr).
  raised Hr t; [|discriminate].
  eapply table_text_raises; eassumption.
Qed.

(** The passes fail only where [int()] or the repetition fails. *)
Lemma convert_html_soup_raises (soup : node) (sel : option string) (e : exn) :
  convert_html_soup self soup sel = Raise e -> span_error e.
Proof.
  unfold convert_html_soup. intros Hr.
  raised Hr t; [|discriminate].
  destruct (preserve_structure (config self)); [|discriminate].
  unfold _process_structure in Hr.
  raised Hr t; [|discriminate].
  destruct (preserve_tables (config self)); [|discriminate].
  eapply _process_tables_raises; eassumption.
Qed.

Lemma invalid_content_not_span_error : ~ span_error invalid_content.
Proof.
  intros [[v Hv]|[[n Hn]|[Hn|Hn]]]; discriminate.
Qed.

(** [convert_html] raises the error of the invalid kind of input exactly
    for a value that is neither a markup string nor a parsed tree; it
    hands a string to [convert_html_str] and a tree to
    [convert_html_soup], whose outcome (a text, or the failure of a pass)
    is its own. *)
Lemma convert_html_dispatch :
  forall (content : object) (container_selector : option string),
    (convert_html self content container_selector = Raise invalid_content
     <-> is_markup content = false) /\
    (forall s, as_str content = Some s ->
               convert_html self content container_selector
               = convert_html_str self s container_selector) /\
    (forall t, as_str content = None -> content = PyTag t ->
               convert_html self content container_selector
               = convert_html_soup self t container_selector).
Proof.
  intros content sel. split; [|split].
  - unfold convert_html, is_markup. destruct (as_str content) as [s|] eqn:Hs.
    + split; [|discriminate]. intros Hr.
      apply convert_html_soup_raises in Hr. destruct (invalid_content_not_span_error Hr).
    + destruct content; split; try reflexivity; try discriminate.
      intros Hr. apply convert_html_soup_raises in Hr.
      destruct (invalid_content_not_span_error Hr).
  - intros s Hs. unfold convert_html. rewrite Hs. reflexivity.
  - intros t Hs ->. unfold convert_html. rewrite Hs. reflexivity.
Qed.

(** C5. [convert_html] raises the error of the invalid kind of input
    exactly for a value that is neither a markup string nor a parsed tree.
    But a string or a tree is not always converted to a text: the table of
    one cell whose span is [abc], given as a tree or as a markup that the
    parser reads as that tree, makes the conversion raise the error of
    [int()]. *)
Theorem valid_input_not_converted :
  (forall (content : object) (container_selector : option string),
      convert_html self content container_selector = Raise invalid_content
      <-> is_markup content = false) /\
  convert_html (new_converter None) (PyTag (single_cell_table "abc" "X")) None
  = Raise (invalid_int_literal "abc") /\
  (forall markup : string,
      BeautifulSoup markup = single_cell_table "abc" "X" ->
      convert_html (new_converter None) (PyStr markup) None
      = Raise (invalid_int_literal "abc")).
Proof.
  split; [|split].
  - intros content sel. apply convert_html_dispatch.
  - reflexivity.
  - intros markup Hparse. unfold convert_html, convert_html_str. cbn [as_str].
    rewrite Hparse. reflexivity.
Qed.

End ConvertFacts.

(* ===================================================================== *)
(** * Theorems: the table renderer *)
(* ===================================================================== *)

Section RendererFacts.

Context `{Parser} `{Rich}.

(** C8. [convert_html_to_table] returns the empty string for [None], for
    the empty string, and for a markup in which the parser finds no row;
    it is a function, and raises nothing. *)
Theorem convert_html_to_table_empty :
  convert_html_to_table None = EmptyString /\
  convert_html_to_table (Some EmptyString) = EmptyString /\
  forall markup : string,
    find_all ["tr"] (BeautifulSoup markup) = [] ->
    convert_html_to_table (Some markup) = EmptyString.
Proof.
  repeat split. intros markup Hrows.
  unfold convert_html_to_table. destruct (markup =? "")%string; [reflexivity|].
  rewrite Hrows. reflexivity.
Qed.

End RendererFacts.

Lemma convert_html_to_table_empty_witness :
  find_all ["tr"] (@BeautifulSoup text_parser "<p>No table</p>") = [] /\
  @convert_html_to_table text_parser plain_rich (Some "<p>No table</p>") = EmptyString.
Proof.
  split; [reflexivity|].
  exact (proj2 (proj2 (@convert_html_to_table_empty text_parser plain_rich))
               "<p>No table</p>" eq_refl).
Defined.

(* ===================================================================== *)
(** * Theorems: the cleanup of the text *)
(* ===================================================================== *)

Section StringFacts.

Lemma append_assoc (a b c : string) : (a ++ b) ++ c = a ++ b ++ c.
Proof.
  induction a as [|x a IH]; simpl; [reflexivity | now rewrite IH].
Qed.

Lemma append_nil_r (a : string) : a ++ EmptyString = a.
Proof.
  induction a as [|x a IH]; simpl; [reflexivity | now rewrite IH].
Qed.

Lemma drop_length (n : nat) (t : string) : (String.length (drop n t) <= String.length t)%nat.
Proof.
  revert t. induction n as [|n IH]; intros [|c r]; simpl; try lia.
  specialize (IH r). lia.
Qed.

Lemma drop_append (a b : string) : drop (String.length a) (a ++ b) = b.
Proof.
  induction a as [|x a IH]; simpl; [destruct b; reflexivity | exact IH].
Qed.

Lemma re_sub_skip (ml : string -> option nat) (repl : string) (n : nat) (s : string) :
  re_sub ml repl n s = re_sub ml repl 0 (drop n s).
Proof.
  revert n. induction s as [|c r IH]; intros [|n]; simpl; try reflexivity. apply IH.
Qed.

Lemma visible_append (a b : string) : visible (a ++ b) = visible a ++ visible b.
Proof.
  induction a as [|x a IH]; simpl; [reflexivity|].
  destruct (isspace x); simpl; now rewrite IH.
Qed.

Lemma visible_all_space (w : string) : all_space w -> visible w = EmptyString.
Proof.
  induction w as [|x w IH]; simpl; [reflexivity|]. intros [Hx Hw]. rewrite Hx. auto.
Qed.

(** ** Runs of blank lines *)

Lemma match_blank_lines_eq (c : ascii) (r : string) :
  match_blank_lines (String c r)
  = if Ascii.eqb c "010" then option_map S (match_spaces_newline r) else None.
Proof.
  destruct c as [[|] [|] [|] [|] [|] [|] [|] [|]]; reflexivity.
Qed.

(** What a match of [\s*\n] covers: white space up to a line feed, the
    last one of the white space the text starts with. *)
Lemma match_spaces_newline_spec (r : string) :
  forall n, match_spaces_newline r = Some n ->
            exists w rest, r = w ++ LF ++ rest /\ all_space w /\
                           n = S (String.length w) /\ drop n r = rest /\
                           match_spaces_newline rest = None.
Proof.
  induction r as [|c r IH]; simpl; intros n; [discriminate|].
  destruct (isspace c) eqn:Hc; [|discriminate].
  destruct (match_spaces_newline r) as [k|] eqn:Hk.
  - intros Hn. inversion Hn; subst n.
    destruct (IH k eq_refl) as (w & rest & Hr & Hw & Hl & Hd & Hm).
    exists (String c w), rest. repeat split; auto; try (simpl; now rewrite Hl).
    rewrite Hr at 1. reflexivity.
  - destruct (Ascii.eqb_spec c "010"); [|discriminate].
    intros Hn. inversion Hn; subst n c.
    exists EmptyString, r. simpl. repeat split; auto.
Qed.

(** The match is greedy: white space followed by a line feed is matched
    at least up to that line feed. *)
Lemma match_spaces_newline_greedy (w b : string) :
  all_space w ->
  exists n, match_spaces_newline (w ++ LF ++ b) = Some n /\ (String.length w < n)%nat.
Proof.
  induction w as [|x w IH]; simpl.
  - intros _. destruct (match_spaces_newline b) as [k|]; eexists; split; try reflexivity; lia.
  - intros [Hx Hw]. rewrite Hx. destruct (IH Hw) as (n & Hn & Hl).
    simpl in Hn. rewrite Hn. eexists; split; [reflexivity | lia].
Qed.

Lemma collapse_blank_lines_cons (c : ascii) (r : string) :
  collapse_blank_lines (String c r)
  = if Ascii.eqb c "010" then
      match match_spaces_newline r with
      | Some n => LF ++ LF ++ collapse_blank_lines (drop n r)
      | None => String c (collapse_blank_lines r)
      end
    else String c (collapse_blank_lines r).
Proof.
  unfold collapse_blank_lines. cbn [re_sub]. rewrite match_blank_lines_eq.
  destruct (Ascii.eqb c "010"); [|reflexivity].
  destruct (match_spaces_newline r) as [n|]; simpl; [|reflexivity].
  now rewrite re_sub_skip.
Qed.

Lemma collapse_keeps_no_match (r : string) :
  match_spaces_newline r = None ->
  match_spaces_newline (collapse_blank_lines r) = None.
Proof.
  induction r as [|c r IH]; [reflexivity|].
  rewrite collapse_blank_lines_cons. simpl. intros Hm.
  destruct (isspace c) eqn:Hc.
  - destruct (match_spaces_newline r) as [k|]; [discriminate|].
    destruct (Ascii.eqb c "010") eqn:Hlf; [discriminate|].
    simpl. now rewrite Hc, (IH eq_refl), Hlf.
  - destruct (Ascii.eqb_spec c "010"); [subst c; discriminate|].
    simpl. now rewrite Hc.
Qed.

Lemma collapse_blank_runs_ok (n : nat) :
  forall s, (String.length s <= n)%nat -> blank_runs_ok (collapse_blank_lines s).
Proof.
  induction n as [|n IH]; intros [|c r] Hl; simpl in Hl; try exact I; try lia.
  rewrite collapse_blank_lines_cons.
  destruct (Ascii.eqb_spec c "010") as [->|Hc].
  - destruct (match_spaces_newline r) as [k|] eqn:Hk.
    + destruct (match_spaces_newline_spec r k Hk) as (w & rest & _ & _ & _ & Hd & Hm).
      rewrite Hd. pose proof (drop_length k r) as Hdl. rewrite Hd in Hdl.
      pose proof (collapse_keeps_no_match rest Hm) as Hn.
      simpl. rewrite Hn. repeat split; auto. apply IH. lia.
    + simpl. split; [intros _; left; now apply collapse_keeps_no_match | apply IH; lia].
  - simpl. split; [intros; congruence | apply IH; lia].
Qed.

Lemma blank_runs_ok_suffix (a u : string) : blank_runs_ok (a ++ u) -> blank_runs_ok u.
Proof.
  induction a as [|x a IH]; simpl; [auto | intros [_ Hu]; auto].
Qed.

Lemma blank_runs_ok_collapsed (t : string) : blank_runs_ok t -> blank_lines_collapsed t.
Proof.
  intros Hok a w b Ht Hw. subst t. apply blank_runs_ok_suffix in Hok.
  change (LF ++ w ++ LF ++ b) with (String "010" (w ++ LF ++ b)) in Hok.
  cbn [blank_runs_ok] in Hok. destruct Hok as [Hhead _].
  destruct (match_spaces_newline_greedy w b Hw) as (n & Hn & Hl).
  destruct (Hhead eq_refl) as [Hm|Hm]; rewrite Hm in Hn; [discriminate|].
  inversion Hn; subst n. destruct w; [reflexivity | simpl in Hl; lia].
Qed.

Lemma blank_lines_collapsed_suffix (a u : string) :
  blank_lines_collapsed (a ++ u) -> blank_lines_collapsed u.
Proof.
  intros Hc a' w b Hu Hw. apply (Hc (a ++ a') w b); [|exact Hw].
  rewrite Hu. now rewrite append_assoc.
Qed.

Lemma collapse_blank_lines_id (n : nat) :
  forall s, (String.length s <= n)%nat -> blank_lines_collapsed s ->
            collapse_blank_lines s = s.
Proof.
  induction n as [|n IH]; intros [|c r] Hl Hc; simpl in Hl; try reflexivity; try lia.
  rewrite collapse_blank_lines_cons.
  assert (Hr : collapse_blank_lines r = r).
  { apply IH; [lia|]. apply (blank_lines_collapsed_suffix (String c EmptyString) r Hc). }
  destruct (Ascii.eqb_spec c "010") as [->|Hne]; [|now rewrite Hr].
  destruct (match_spaces_newline r) as [k|] eqn:Hk; [|now rewrite Hr].
  destruct (match_spaces_newline_spec r k Hk) as (w & rest & Hrw & Hw & Hkw & Hd & Hm).
  assert (w = EmptyString) by (apply (Hc EmptyString w rest); [now rewrite Hrw | exact Hw]).
  subst w. simpl in Hrw, Hkw. subst k r. simpl drop.
  assert (Hrest : collapse_blank_lines rest = rest).
  { apply IH; [simpl in Hl; lia|].
    apply (blank_lines_collapsed_suffix (LF ++ LF) rest). exact Hc. }
  now rewrite Hrest.
Qed.

Lemma collapse_blank_lines_visible (n : nat) :
  forall s, (String.length s <= n)%nat -> visible (collapse_blank_lines s) = visible s.
Proof.
  induction n as [|n IH]; intros [|c r] Hl; simpl in Hl; try reflexivity; try lia.
  rewrite collapse_blank_lines_cons.
  destruct (Ascii.eqb_spec c "010") as [->|Hne].
  - destruct (match_spaces_newline r) as [k|] eqn:Hk.
    + destruct (match_spaces_newline_spec r k Hk) as (w & rest & Hrw & Hw & _ & Hd & _).
      rewrite Hd. pose proof (drop_length k r) as Hdl. rewrite Hd in Hdl.
      simpl. rewrite IH by lia. rewrite Hrw, visible_append, (visible_all_space w Hw).
      reflexivity.
    + simpl. now rewrite IH by lia.
  - simpl. destruct (isspace c); now rewrite IH by lia.
Qed.

(** ** Runs of blanks *)

Lemma match_blanks_eq (c : ascii) (r : string) :
  match_blanks (String c r)
  = if Ascii.eqb c " " then Some (S (leading_blanks r)) else None.
Proof.
  unfold leading_blanks.
  destruct c as [[|] [|] [|] [|] [|] [|] [|] [|]]; try reflexivity.
  simpl. destruct (match_blanks r); reflexivity.
Qed.

Lemma leading_blanks_cons (c : ascii) (r : string) :
  leading_blanks (String c r) = if Ascii.eqb c " " then S (leading_blanks r) else O.
Proof.
  unfold leading_blanks at 1. rewrite match_blanks_eq. destruct (Ascii.eqb c " "); reflexivity.
Qed.

(** The blanks a text starts with, and what follows them. *)
Lemma leading_blanks_spec (r : string) :
  exists rest, r = str_mul " " (leading_blanks r) ++ rest /\
               drop (leading_blanks r) r = rest /\
               forall r', rest <> String " " r'.
Proof.
  induction r as [|c r IH].
  - exists EmptyString. repeat split. discriminate.
  - rewrite leading_blanks_cons. destruct (Ascii.eqb_spec c " ") as [->|Hc].
    + destruct IH as (rest & Hr & Hd & Hn). exists rest. repeat split; auto.
      simpl. now rewrite <- Hr.
    + exists (String c r). repeat split. intros r' Hr. inversion Hr. congruence.
Qed.

Lemma collapse_blanks_cons (c : ascii) (r : string) :
  collapse_blanks (String c r)
  = if Ascii.eqb c " " then String " " (collapse_blanks (drop (leading_blanks r) r))
    else String c (collapse_blanks r).
Proof.
  unfold collapse_blanks. cbn [re_sub]. rewrite match_blanks_eq.
  destruct (Ascii.eqb c " "); [|reflexivity]. simpl. now rewrite re_sub_skip.
Qed.

Lemma collapse_blanks_head (u : string) :
  (forall r', u <> String " " r') -> forall r', collapse_blanks u <> String " " r'.
Proof.
  destruct u as [|c r]; intros Hu r'; [discriminate|].
  rewrite collapse_blanks_cons. destruct (Ascii.eqb_spec c " ") as [->|Hc].
  - destruct (Hu r eq_refl).
  - intros Heq. inversion Heq. congruence.
Qed.

Lemma collapse_blanks_ok (n : nat) :
  forall s, (String.length s <= n)%nat -> blanks_ok (collapse_blanks s).
Proof.
  induction n as [|n IH]; intros [|c r] Hl; simpl in Hl; try exact I; try lia.
  rewrite collapse_blanks_cons. destruct (Ascii.eqb_spec c " ") as [->|Hc].
  - destruct (leading_blanks_spec r) as (rest & _ & Hd & Hn).
    pose proof (drop_length (leading_blanks r) r) as Hdl. rewrite Hd in *.
    simpl. split; [intros _; now apply collapse_blanks_head | apply IH; lia].
  - simpl. split; [intros; congruence | apply IH; lia].
Qed.

Lemma blanks_ok_suffix (a u : string) : blanks_ok (a ++ u) -> blanks_ok u.
Proof.
  induction a as [|x a IH]; simpl; [auto | intros [_ Hu]; auto].
Qed.

Lemma blanks_ok_collapsed (t : string) : blanks_ok t -> blanks_collapsed t.
Proof.
  intros Hok a b Ht. subst t. apply blanks_ok_suffix in Hok.
  simpl in Hok. destruct Hok as [Hhead _]. exact (Hhead eq_refl b eq_refl).
Qed.

Lemma blanks_collapsed_suffix (a u : string) : blanks_collapsed (a ++ u) -> blanks_collapsed u.
Proof.
  intros Hc a' b Hu. apply (Hc (a ++ a') b). rewrite Hu. now rewrite append_assoc.
Qed.

Lemma collapse_blanks_id (s : string) : blanks_collapsed s -> collapse_blanks s = s.
Proof.
  induction s as [|c r IH]; intros Hc; [reflexivity|].
  rewrite collapse_blanks_cons.
  assert (Hr : collapse_blanks r = r).
  { apply IH. apply (blanks_collapsed_suffix (String c EmptyString) r Hc). }
  destruct (Ascii.eqb_spec c " ") as [->|Hne]; [|now rewrite Hr].
  assert (Hl : leading_blanks r = O).
  { destruct r as [|d r']; [reflexivity|]. rewrite leading_blanks_cons.
    destruct (Ascii.eqb_spec d " ") as [->|Hd]; [|reflexivity].
    destruct (Hc EmptyString r' eq_refl). }
  rewrite Hl. simpl drop. now rewrite Hr.
Qed.

Lemma visible_blanks (n : nat) : visible (str_mul " " n) = EmptyString.
Proof.
  induction n as [|n IH]; simpl; [reflexivity | exact IH].
Qed.

Lemma collapse_blanks_visible (n : nat) :
  forall s, (String.length s <= n)%nat -> visible (collapse_blanks s) = visible s.
Proof.
  induction n as [|n IH]; intros [|c r] Hl; simpl in Hl; try reflexivity; try lia.
  rewrite collapse_blanks_cons. destruct (Ascii.eqb_spec c " ") as [->|Hc].
  - destruct (leading_blanks_spec r) as (rest & Hr & Hd & _).
    pose proof (drop_length (leading_blanks r) r) as Hdl. rewrite Hd in *.
    simpl. rewrite IH by lia. rewrite Hr at 1. now rewrite visible_append, visible_blanks.
  - simpl. destruct (isspace c); now rewrite IH by lia.
Qed.

(** ** Stripping *)

Lemma rstrip_with_last (sp : ascii -> bool) (s : string) :
  forall b c, rstrip_with sp s = b ++ String c EmptyString -> sp c = false.
Proof.
  induction s as [|d r IH]; simpl; intros b c.
  - destruct b; discriminate.
  - destruct (rstrip_with sp r) as [|e r'] eqn:Hr.
    + destruct (sp d) eqn:Hd; [destruct b; discriminate|].
      destruct b as [|x b]; simpl; intros Heq; inversion Heq; subst; auto.
      destruct b; discriminate.
    + destruct b as [|x b]; simpl; intros Heq; inversion Heq; subst.
      eapply IH. eassumption.
Qed.

Lemma rstrip_with_id (sp : ascii -> bool) (s : string) :
  (forall b c, s = b ++ String c EmptyString -> sp c = false) -> rstrip_with sp s = s.
Proof.
  induction s as [|d r IH]; intros Hs; [reflexivity|]. simpl.
  rewrite IH.
  - destruct r; [|reflexivity]. now rewrite (Hs EmptyString d eq_refl).
  - intros b c Hr. apply (Hs (String d b) c). simpl. now rewrite Hr.
Qed.

Lemma strip_trimmed (s : string) : trimmed s -> strip s = s.
Proof.
  intros [Hfirst Hlast]. unfold strip.
  assert (Hl : lstrip_with isspace s = s).
  { destruct s as [|c r]; [reflexivity|]. simpl. now rewrite (Hfirst c r eq_refl). }
  rewrite Hl. now apply rstrip_with_id.
Qed.

Lemma lstrip_with_head (sp : ascii -> bool) (s : string) :
  forall c r, lstrip_with sp s = String c r -> sp c = false.
Proof.
  induction s as [|d s IH]; simpl; intros c r; [discriminate|].
  destruct (sp d) eqn:Hd; [apply IH|]. intros Heq. inversion Heq; subst. exact Hd.
Qed.

Lemma rstrip_with_head (sp : ascii -> bool) (s : string) :
  forall c r, rstrip_with sp s = String c r -> exists r0, s = String c r0.
Proof.
  destruct s as [|d s]; simpl; intros c r; [discriminate|].
  destruct (rstrip_with sp s); [destruct (sp d)|]; intros Heq; inversion Heq; subst; eauto.
Qed.

Lemma strip_is_trimmed (x : string) : trimmed (strip x).
Proof.
  split.
  - intros c r Hs. unfold strip in Hs. apply rstrip_with_head in Hs.
    destruct Hs as [r0 Hs]. eapply lstrip_with_head. eassumption.
  - intros b c. apply rstrip_with_last.
Qed.

Lemma strip_fixed_trimmed (s : string) : strip s = s -> trimmed s.
Proof.
  intros Hs. rewrite <- Hs. apply strip_is_trimmed.
Qed.

Lemma strip_one_trailing_newline (x : string) : one_trailing_newline (strip x ++ LF).
Proof.
  exists (strip x). split; [reflexivity | apply strip_is_trimmed].
Qed.

Lemma occurs_cons (p t : string) (c : ascii) : occurs p t -> occurs p (String c t).
Proof.
  intros (a & b & ->). exists (String c a), b. reflexivity.
Qed.

(** A run of blank-ish lines leaves a blank line behind. *)
Lemma collapse_blank_lines_keeps (s : string) :
  has_blank_run s -> occurs (LF ++ LF) (collapse_blank_lines s).
Proof.
  induction s as [|c r IH]; intros (a & w & b & Hs & Hw).
  - destruct a; discriminate.
  - rewrite collapse_blank_lines_cons.
    destruct a as [|x a]; simpl in Hs; inversion Hs; subst.
    + destruct (match_spaces_newline_greedy w b Hw) as (n & Hn & _).
      simpl. simpl in Hn. rewrite Hn.
      exists EmptyString, (collapse_blank_lines (drop n (w ++ LF ++ b))). reflexivity.
    + assert (Hocc : occurs (LF ++ LF) (collapse_blank_lines (a ++ LF ++ w ++ LF ++ b))).
      { apply IH. exists a, w, b. auto. }
      destruct (Ascii.eqb x "010"); [|now apply occurs_cons].
      destruct (match_spaces_newline _) as [n|]; [|now apply occurs_cons].
      exists EmptyString, (collapse_blank_lines (drop n (a ++ LF ++ w ++ LF ++ b))). reflexivity.
Qed.

(** A run of blanks leaves a blank behind. *)
Lemma collapse_blanks_keeps (s : string) :
  occurs " " s -> occurs " " (collapse_blanks s).
Proof.
  induction s as [|c r IH]; intros (a & b & Hs).
  - destruct a; discriminate.
  - rewrite collapse_blanks_cons. destruct (Ascii.eqb_spec c " ") as [->|Hc].
    + exists EmptyString, (collapse_blanks (drop (leading_blanks r) r)). reflexivity.
    + destruct a as [|x a]; simpl in Hs; inversion Hs; subst; [congruence|].
      apply occurs_cons. apply IH. exists a, b. reflexivity.
Qed.

(** ** The cleanup as a relation *)

Lemma no_match_no_blank_line (r : string) :
  match_spaces_newline r = None -> ~ starts_blank_line r.
Proof.
  intros Hm (w & rest & -> & Hw).
  destruct (match_spaces_newline_greedy w rest Hw) as (n & Hn & _). congruence.
Qed.

Lemma collapse_blank_lines_relation (n : nat) :
  forall s, (String.length s <= n)%nat -> blank_lines_to_one s (collapse_blank_lines s).
Proof.
  induction n as [|n IH]; intros [|c r] Hl; simpl in Hl; try constructor; try lia.
  - rewrite collapse_blank_lines_cons.
    destruct (Ascii.eqb_spec c "010") as [->|Hc].
    + destruct (match_spaces_newline r) as [k|] eqn:Hk.
      * destruct (match_spaces_newline_spec r k Hk) as (w & rest & Hr & Hw & _ & Hd & Hm).
        rewrite Hd. pose proof (drop_length k r) as Hdl. rewrite Hd in Hdl.
        rewrite Hr.
        apply (blank_lines_run w rest); [assumption | now apply no_match_no_blank_line|].
        apply IH. lia.
      * apply blank_lines_keep; [intros _; now apply no_match_no_blank_line|].
        apply IH. lia.
    + apply blank_lines_keep; [congruence|]. apply IH. lia.
Qed.

Lemma collapse_blanks_relation (n : nat) :
  forall s, (String.length s <= n)%nat -> blanks_to_one s (collapse_blanks s).
Proof.
  induction n as [|n IH]; intros [|c r] Hl; simpl in Hl; try constructor; try lia.
  - rewrite collapse_blanks_cons.
    destruct (Ascii.eqb_spec c " ") as [->|Hc].
    + destruct (leading_blanks_spec r) as (rest & Hr & Hd & Hn).
      rewrite Hd. pose proof (drop_length (leading_blanks r) r) as Hdl. rewrite Hd in Hdl.
      replace (String " " r) with (str_mul " " (S (leading_blanks r)) ++ rest)
        by (cbn [str_mul append]; now rewrite <- Hr).
      apply blanks_run; [assumption|]. apply IH. lia.
    + apply blanks_keep; [assumption|]. apply IH. lia.
Qed.

Lemma lstrip_decompose (s : string) :
  exists lead, s = lead ++ lstrip_with isspace s /\ all_space lead.
Proof.
  induction s as [|c r (lead & Hr & Hl)]; [exists EmptyString; split; [reflexivity | exact I]|].
  cbn [lstrip_with]. destruct (isspace c) eqn:Hc.
  - exists (String c lead). cbn [append all_space]. split; [now rewrite <- Hr | auto].
  - exists EmptyString. split; [reflexivity | exact I].
Qed.

Lemma rstrip_decompose (s : string) :
  exists trail, s = rstrip_with isspace s ++ trail /\ all_space trail.
Proof.
  induction s as [|c r (trail & Hr & Ht)]; [exists EmptyString; split; [reflexivity | exact I]|].
  cbn [rstrip_with]. destruct (rstrip_with isspace r) as [|d r'] eqn:Hrs.
  - cbn [append] in Hr. destruct (isspace c) eqn:Hc.
    + exists (String c trail). cbn [append all_space]. split; [now rewrite <- Hr | auto].
    + exists trail. cbn [append]. split; [now rewrite <- Hr | assumption].
  - exists trail. cbn [append]. split; [|assumption].
    rewrite Hr at 1. reflexivity.
Qed.

(** What [strip] takes away is white space at both ends. *)
Lemma strip_decompose (s : string) :
  exists lead trail, s = lead ++ strip s ++ trail /\ all_space lead /\ all_space trail.
Proof.
  destruct (lstrip_decompose s) as (lead & Hs & Hlead).
  destruct (rstrip_decompose (lstrip_with isspace s)) as (trail & Ht & Htrail).
  exists lead, trail. unfold strip. split; [|auto]. rewrite <- Ht. exact Hs.
Qed.

Lemma append_split (a : string) :
  forall b x y, a ++ x = b ++ y -> (String.length a <= String.length b)%nat ->
                exists m, b = a ++ m /\ x = m ++ y.
Proof.
  induction a as [|c a IH]; intros b x y Heq Hl.
  - exists b. split; [reflexivity | exact Heq].
  - destruct b as [|d b]; simpl in Hl; [lia|].
    simpl in Heq. inversion Heq; subst d.
    destruct (IH b x y H1 ltac:(lia)) as (m & -> & ->).
    exists m. split; reflexivity.
Qed.

Lemma all_space_append (a b : string) : all_space (a ++ b) -> all_space a /\ all_space b.
Proof.
  induction a as [|c a IH]; simpl; [auto|]. intros [Hc Hr]. destruct (IH Hr). auto.
Qed.

Lemma no_blank_line_no_match (r : string) :
  ~ starts_blank_line r -> match_spaces_newline r = None.
Proof.
  intros Hn. destruct (match_spaces_newline r) as [k|] eqn:Hk; [|reflexivity].
  destruct (match_spaces_newline_spec r k Hk) as (w & rest & Hr & Hw & _).
  exfalso. apply Hn. exists w, rest. auto.
Qed.

(** The match of [\s*\n] ends at the last line feed of the white space. *)
Lemma match_spaces_newline_last (w rest : string) :
  all_space w -> ~ starts_blank_line rest ->
  match_spaces_newline (w ++ LF ++ rest) = Some (S (String.length w)) /\
  drop (S (String.length w)) (w ++ LF ++ rest) = rest.
Proof.
  intros Hw Hrest.
  destruct (match_spaces_newline_greedy w rest Hw) as (n & Hn & Hl).
  destruct (match_spaces_newline_spec _ n Hn) as (w' & rest' & Hr & Hw' & Hk & Hd & _).
  destruct (append_split w w' (LF ++ rest) (LF ++ rest') Hr ltac:(lia)) as (m & Hm & Hx).
  destruct m as [|c m].
  - assert (Hrest' : rest' = rest) by (simpl in Hx; congruence).
    rewrite append_nil_r in Hm. rewrite Hrest', Hm in *.
    split; [congruence|]. rewrite <- Hk. exact Hd.
  - exfalso. simpl in Hx. inversion Hx; subst c. apply Hrest.
    rewrite Hm in Hw'. apply all_space_append in Hw'. destruct Hw' as [_ [_ Hm']].
    exists m, rest'. auto.
Qed.

Lemma blank_lines_to_one_unique (s out : string) :
  blank_lines_to_one s out -> out = collapse_blank_lines s.
Proof.
  induction 1 as [|w rest out Hw Hrest _ IH|c rest out Hc _ IH].
  - reflexivity.
  - change (LF ++ w ++ LF ++ rest) with (String "010" (w ++ LF ++ rest)).
    rewrite collapse_blank_lines_cons. cbn [Ascii.eqb Bool.eqb].
    destruct (match_spaces_newline_last w rest Hw Hrest) as [-> ->].
    now rewrite IH.
  - rewrite collapse_blank_lines_cons.
    destruct (Ascii.eqb_spec c "010") as [Heq|Hne]; [|now rewrite IH].
    rewrite (no_blank_line_no_match rest (Hc Heq)). now rewrite IH.
Qed.

Lemma leading_blanks_run (n : nat) (rest : string) :
  (forall r, rest <> String " " r) ->
  leading_blanks (str_mul " " n ++ rest) = n /\ drop n (str_mul " " n ++ rest) = rest.
Proof.
  intros Hrest. induction n as [|n [IHl IHd]].
  - simpl. split; [|reflexivity]. destruct rest as [|c r]; [reflexivity|].
    rewrite leading_blanks_cons. destruct (Ascii.eqb_spec c " ") as [->|]; [|reflexivity].
    exfalso. now apply (Hrest r).
  - cbn [str_mul append]. rewrite leading_blanks_cons. cbn [Ascii.eqb Bool.eqb drop].
    rewrite IHl. auto.
Qed.

Lemma blanks_to_one_unique (s out : string) :
  blanks_to_one s out -> out = collapse_blanks s.
Proof.
  induction 1 as [|n rest out Hrest _ IH|c rest out Hc _ IH].
  - reflexivity.
  - cbn [str_mul append]. rewrite collapse_blanks_cons. cbn [Ascii.eqb Bool.eqb].
    destruct (leading_blanks_run n rest Hrest) as [-> ->]. now rewrite IH.
  - rewrite collapse_blanks_cons.
    destruct (Ascii.eqb_spec c " ") as [Heq|Hne]; [congruence | now rewrite IH].
Qed.

Lemma lstrip_all_space (lead x : string) :
  all_space lead -> lstrip_with isspace (lead ++ x) = lstrip_with isspace x.
Proof.
  induction lead as [|c r IH]; simpl; [reflexivity|]. intros [Hc Hr]. rewrite Hc. auto.
Qed.

Lemma rstrip_all_space (b trail : string) :
  all_space trail -> rstrip_with isspace (b ++ trail) = rstrip_with isspace b.
Proof.
  intros Ht. induction b as [|c r IH]; cbn [append rstrip_with].
  - induction trail as [|c r IH]; [reflexivity|]. destruct Ht as [Hc Hr].
    cbn [rstrip_with]. rewrite (IH Hr), Hc. reflexivity.
  - rewrite IH. reflexivity.
Qed.

(** [strip] is the one way to take white space from both ends and leave
    a trimmed text. *)
Lemma strip_unique (lead body trail : string) :
  all_space lead -> all_space trail -> trimmed body ->
  strip (lead ++ body ++ trail) = body.
Proof.
  intros Hl Ht [Hfirst Hlast]. unfold strip. rewrite (lstrip_all_space _ _ Hl).
  destruct body as [|c r].
  - cbn [append]. pose proof (lstrip_all_space trail EmptyString Ht) as Hz.
    rewrite append_nil_r in Hz. rewrite Hz. reflexivity.
  - cbn [append lstrip_with]. rewrite (Hfirst c r eq_refl).
    change (String c (r ++ trail)) with (String c r ++ trail).
    rewrite (rstrip_all_space _ _ Ht). now apply rstrip_with_id.
Qed.

End StringFacts.

Section CleanupFacts.

Context `{Html}.

(** C6. The cleanup: each run of blank-ish lines is collapsed to one
    blank line and each run of blanks to one blank (the run leaves one
    behind, the visible characters are untouched, and a text already
    collapsed stays as it is); the character references are then decoded,
    and the result is trimmed and ended by exactly one line feed.  The
    two collapsed texts are the ones, and the only ones, that the
    relations [blank_lines_to_one] and [blanks_to_one] give; the output
    is the decoded text without the white space at its two ends, whichever
    way that white space is split off, and then one line feed. *)
Theorem clean_and_format_spec :
  forall text : string,
    let t1 := collapse_blank_lines text in
    let t2 := collapse_blanks t1 in
    (blank_lines_collapsed t1 /\ visible t1 = visible text /\
     (has_blank_run text -> occurs (LF ++ LF) t1) /\
     (blank_lines_collapsed text -> t1 = text)) /\
    (blanks_collapsed t2 /\ visible t2 = visible t1 /\
     (occurs " " t1 -> occurs " " t2) /\
     (blanks_collapsed t1 -> t2 = t1)) /\
    _clean_and_format text = strip (unescape t2) ++ LF /\
    one_trailing_newline (_clean_and_format text) /\
    (forall out, blank_lines_to_one text out <-> out = t1) /\
    (forall out, blanks_to_one t1 out <-> out = t2) /\
    (exists lead body trail,
        unescape t2 = lead ++ body ++ trail /\
        all_space lead /\ all_space trail /\ trimmed body /\
        _clean_and_format text = body ++ LF) /\
    (forall lead body trail,
        unescape t2 = lead ++ body ++ trail ->
        all_space lead -> all_space trail -> trimmed body ->
        _clean_and_format text = body ++ LF).
Proof.
  intros text t1 t2.
  split; [repeat split|]. 5: split; [repeat split|]. 9: repeat split.
  - apply blank_runs_ok_collapsed. eapply collapse_blank_runs_ok. reflexivity.
  - eapply collapse_blank_lines_visible. reflexivity.
  - apply collapse_blank_lines_keeps.
  - eapply collapse_blank_lines_id. reflexivity.
  - apply blanks_ok_collapsed. eapply collapse_blanks_ok. reflexivity.
  - eapply collapse_blanks_visible. reflexivity.
  - apply collapse_blanks_keeps.
  - apply collapse_blanks_id.
  - unfold _clean_and_format. apply strip_one_trailing_newline.
  - apply blank_lines_to_one_unique.
  - intros ->. eapply collapse_blank_lines_relation. reflexivity.
  - apply blanks_to_one_unique.
  - intros ->. eapply collapse_blanks_relation. reflexivity.
  - destruct (strip_decompose (unescape t2)) as (lead & trail & Hs & Hlead & Htrail).
    exists lead, (strip (unescape t2)), trail.
    repeat split; try assumption; apply strip_is_trimmed.
  - intros lead body trail Hs Hlead Htrail Hbody. unfold _clean_and_format.
    fold t1. fold t2. rewrite Hs. now rewrite strip_unique.
Qed.

End CleanupFacts.

Section PlainTextFacts.

Context `{Memory} `{Parser} `{Html}.

Variable self : HTMLToMarkdownConverter.

Lemma text_document_replace_all (names : list string) (f : node -> string)
      (contents : list string) :
  replace_all names f (document (map NavigableString contents))
  = document (map NavigableString contents).
Proof.
  unfold document. cbn [replace_all]. f_equal. rewrite map_map. apply map_ext. reflexivity.
Qed.

Lemma text_document_replace_some (names : list string) (f : node -> option string)
      (contents : list string) :
  replace_some names f (document (map NavigableString contents))
  = document (map NavigableString contents).
Proof.
  unfold document. cbn [replace_some]. f_equal. rewrite map_map. apply map_ext. reflexivity.
Qed.

Lemma text_document_find_all (names : list string) (contents : list string) :
  find_all names (document (map NavigableString contents)) = [].
Proof.
  unfold document. cbn [find_all].
  induction contents as [|c cs IH]; [reflexivity | exact IH].
Qed.

Lemma text_document_get_text (contents : list string) :
  get_text (document (map NavigableString contents)) = join "" contents.
Proof.
  unfold get_text, document. cbn [strings]. f_equal.
  induction contents as [|c cs IH]; [reflexivity|]. simpl. now rewrite IH.
Qed.

(** No pass rewrites a document without tags. *)
Lemma convert_text_document (contents : list string) :
  convert_html_soup self (document (map NavigableString contents)) None
  = Return (_clean_and_format (join "" contents)).
Proof.
  pose proof (fun names f => text_document_replace_all names f contents) as Hrep.
  pose proof (fun names f => text_document_replace_some names f contents) as Hsome.
  pose proof (fun names => text_document_find_all names contents) as Hfind.
  pose proof (text_document_get_text contents) as Htext.
  unfold convert_html_soup.
  assert (Hst : (if preserve_structure (config self)
                 then _process_structure self (document (map NavigableString contents))
                 else Return (document (map NavigableString contents)))
                = Return (document (map NavigableString contents))).
  { destruct (preserve_structure (config self)); [|reflexivity].
    unfold _process_structure, _process_headings, _process_lists, _process_tables,
      replace_all_result, _process_code_blocks, _process_blockquotes,
      _process_horizontal_rules.
    cbn [fold_left]. rewrite !Hrep.
    destruct (preserve_tables (config self)); [|cbn [bind]; now rewrite !Hrep].
    rewrite Hfind. cbn [for_each bind]. now rewrite !Hrep. }
  rewrite Hst. cbn [bind].
  unfold _process_basic_formatting, inline_formatting, _process_paragraphs_final.
  rewrite !Hrep.
  destruct (preserve_links (config self) && _); rewrite ?Hrep, Hsome, Htext; reflexivity.
Qed.

(** C9, amended. A text without tags and character references, holding
    some character that is not white space, is converted to its cleanup;
    it comes back as it is, followed by one line feed, when it is trimmed
    and holds neither two adjacent blanks nor a blank-ish line. *)
Theorem plain_text_conversion :
  parses_plain_text _ -> unescapes_plain_text _ ->
  forall s : string,
    plain_text s = true ->
    (strip s <> EmptyString ->
     convert_html_str self s None = Return (_clean_and_format s)) /\
    (trimmed s -> blanks_collapsed s -> blank_lines_collapsed s ->
     convert_html_str self s None = Return (s ++ LF)).
Proof.
  intros [Hempty Hparse] Hunescape s Hplain.
  assert (Hconv : strip s <> EmptyString ->
                  convert_html_str self s None = Return (_clean_and_format s)).
  { intros Hs. unfold convert_html_str. rewrite (Hparse s Hplain Hs).
    change (document [NavigableString s]) with (document (map NavigableString [s])).
    rewrite (convert_text_document [s]). reflexivity. }
  split; [exact Hconv|]. intros Ht Hb Hl.
  assert (Hclean : _clean_and_format s = s ++ LF).
  { unfold _clean_and_format.
    rewrite (collapse_blank_lines_id (String.length s) s (le_n _) Hl).
    rewrite (collapse_blanks_id s Hb). rewrite Hunescape.
    - now rewrite (strip_trimmed s Ht).
    - unfold plain_text in Hplain. apply andb_prop in Hplain.
      destruct Hplain as [_ Hamp]. now apply negb_true_iff in Hamp. }
  destruct s as [|c r].
  - unfold convert_html_str. rewrite Hempty.
    change (document []) with (document (map NavigableString [])).
    rewrite (convert_text_document []). simpl join. now rewrite Hclean.
  - rewrite Hconv, Hclean; [reflexivity|]. now rewrite (strip_trimmed _ Ht).
Qed.

End PlainTextFacts.

(** C9, as stated, fails: two adjacent blanks in a text without markup
    come back as one. *)
Lemma plain_text_not_returned :
  exists s : string,
    plain_text s = true /\
    forall (M : Memory) (P : Parser) (H : Html),
      parses_plain_text P -> unescapes_plain_text H ->
      convert_html_str (new_converter None) s None <> Return (s ++ LF).
Proof.
  exists "a  b". split; [reflexivity|].
  intros M P H [_ Hparse] Hunescape. unfold convert_html_str.
  rewrite (Hparse "a  b" eq_refl) by discriminate.
  change (document [NavigableString "a  b"])
    with (document (map NavigableString ["a  b"])).
  rewrite (convert_text_document (new_converter None) ["a  b"]).
  unfold _clean_and_format.
  match goal with
  | |- context [unescape ?t] => let t' := eval vm_compute in t in change t with t'
  end.
  rewrite Hunescape by reflexivity. discriminate.
Qed.

Lemma text_parser_parses_plain_text : parses_plain_text text_parser.
Proof.
  split; [reflexivity|]. intros s _ Hs. simpl.
  destruct s; [destruct (Hs eq_refl) | reflexivity].
Qed.

Lemma no_unescape_unescapes_plain_text : unescapes_plain_text no_unescape.
Proof.
  intros s _. reflexivity.
Qed.

Lemma hello_world_clean :
  trimmed "Hello World" /\ blanks_collapsed "Hello World" /\
  blank_lines_collapsed "Hello World".
Proof.
  split; [apply strip_fixed_trimmed; reflexivity|]. split.
  - apply blanks_ok_collapsed. simpl. repeat split; intros; discriminate.
  - apply blank_runs_ok_collapsed. simpl. repeat split; intros; discriminate.
Qed.

Lemma plain_text_conversion_witness :
  parses_plain_text text_parser /\ unescapes_plain_text no_unescape /\
  plain_text "Hello World" = true /\
  @convert_html_str (new_converter None) roomy text_parser no_unescape "Hello World" None
  = Return ("Hello World" ++ LF).
Proof.
  split; [exact text_parser_parses_plain_text|].
  split; [exact no_unescape_unescapes_plain_text|].
  split; [reflexivity|].
  exact (proj2 (@plain_text_conversion roomy text_parser no_unescape (new_converter None)
                  text_parser_parses_plain_text no_unescape_unescapes_plain_text
                  "Hello World" eq_refl)
               (proj1 hello_world_clean)
               (proj1 (proj2 hello_world_clean))
               (proj2 (proj2 hello_world_clean))).
Defined.

(* ===================================================================== *)
(** * Further theorems: the outcomes of the type converters *)
(* ===================================================================== *)

Section ConverterOutcomes.

Context `{FloatStr}.

(** The two handlers of the parse catch every exception. *)
Lemma parse_decimal_returns (s : string) : exists r, parse_decimal s = Return r.
Proof.
  unfold parse_decimal, try_except, is_Exception.
  destruct (startswith "<" s).
  - destruct (bind _ _); eauto.
  - destruct (bind _ _); eauto.
Qed.

(** Past the parse, only the quiet not-a-number makes [safe_decimal]
    raise. *)
Lemma quantize_in_range_raises (dec : Decimal) (e : exn) :
  quantize_in_range dec = Raise e <->
  e = InvalidOperation /\ exists neg diag, dec = DNaN neg false diag.
Proof.
  split.
  - destruct dec as [neg c ex|neg|neg [|] diag]; unfold quantize_in_range.
    + destruct (quantize5 (DFin neg c ex)) as [q|x] eqn:Hq; cbn [bind try_except].
      * destruct (quantize5_finite _ _ Hq) as [(n & s & g & Hd & _)|
                                                (n & c0 & e0 & c' & _ & -> & _ & _)];
          [discriminate|].
        unfold Decimal_abs, fix_prec.
        destruct (0 <? _); [destruct (_ =? _)|]; cbn [bind Decimal_ge];
          destruct (_ <=? _); discriminate.
      * cbn [quantize5] in Hq.
        destruct (c =? 0); [discriminate|].
        destruct (prec <? _); [inversion Hq; subst; discriminate|].
        destruct (prec <? ndigits _); inversion Hq; subst; discriminate.
    + discriminate.
    + discriminate.
    + cbn. intros Hr. inversion Hr. eauto.
  - intros [-> (neg & diag & ->)]. reflexivity.
Qed.

Lemma str_of_number_raises (value : object) (e : exn) :
  str_of_number value = Some (Raise e) <->
  exists z, value = PyInt z /\ int_max_str_digits < ndigits (Z.abs z) /\
            e = int_str_refused.
Proof.
  split.
  - destruct value as [|b|z|f|s|t|r|]; cbn [str_of_number]; try discriminate.
    unfold str_of_int_checked.
    destruct (Z.ltb_spec int_max_str_digits (ndigits (Z.abs z))); [|discriminate].
    intros Hr. inversion Hr. eauto.
  - intros (z & -> & Hz & ->). cbn [str_of_number]. unfold str_of_int_checked.
    apply Z.ltb_lt in Hz. rewrite Hz. reflexivity.
Qed.

(** X2. [safe_decimal] raises in exactly two cases: the value is an
    integer of more digits than [str] converts, and the error of [str]
    comes out; or the text it parses is read as a quiet not-a-number, and
    the invalid operation of the last comparison comes out. *)
Theorem safe_decimal_raises_iff :
  forall (value : object) (e : exn),
    safe_decimal value = Raise e <->
    (exists z, value = PyInt z /\ int_max_str_digits < ndigits (Z.abs z) /\
               e = int_str_refused) \/
    (e = InvalidOperation /\
     exists s neg diag,
       decimal_text value = Some s /\
       parse_decimal (strip s) = Return (Some (DNaN neg false diag))).
Proof.
  intros value e.
  destruct (safe_decimal_text value) as [(e0 & He0 & Hr)|[Hok Hbody]].
  - rewrite Hr. pose proof He0 as Hz. apply str_of_number_raises in Hz.
    destruct Hz as (z & -> & Hz & ->). split.
    + intros Heq. inversion Heq. left. eauto.
    + intros [(z' & _ & _ & ->)|[_ (s & neg & diag & Ht & _)]]; [reflexivity|].
      unfold decimal_text in Ht. rewrite He0 in Ht. discriminate.
  - rewrite Hbody. clear Hbody.
    assert (Hno : forall z, value = PyInt z -> int_max_str_digits < ndigits (Z.abs z) ->
                            False).
    { intros z Hv Hz. apply (Hok int_str_refused).
      apply str_of_number_raises. eauto. }
    destruct (decimal_text value) as [s|].
    + destruct (strip s =? "")%string eqn:Hs.
      * apply String.eqb_eq in Hs. split; [discriminate|].
        intros [(z & Hv & Hz & _)|[_ (s' & neg & diag & Heq & Hp)]].
        -- destruct (Hno z Hv Hz).
        -- inversion Heq; subst s'. rewrite Hs in Hp. discriminate.
      * destruct (parse_decimal_returns (strip s)) as [[dec|] Hp]; rewrite Hp; cbn [bind].
        -- rewrite quantize_in_range_raises. split.
           ++ intros [-> (neg & diag & ->)]. right. split; [reflexivity|].
              exists s, neg, diag. auto.
           ++ intros [(z & Hv & Hz & _)|[-> (s' & neg & diag & Heq & Hp')]].
              ** destruct (Hno z Hv Hz).
              ** inversion Heq; subst s'. rewrite Hp in Hp'. inversion Hp'. eauto.
        -- split; [discriminate|].
           intros [(z & Hv & Hz & _)|[_ (s' & neg & diag & Heq & Hp')]].
           ++ destruct (Hno z Hv Hz).
           ++ inversion Heq; subst s'. rewrite Hp in Hp'. discriminate.
    + split; [discriminate|].
      intros [(z & Hv & Hz & _)|[_ (s' & neg & diag & Heq & _)]]; [|discriminate].
      destruct (Hno z Hv Hz).
Qed.

Lemma object_is_None (value : object) : value = PyNone \/ value <> PyNone.
Proof. destruct value; auto; right; discriminate. Qed.

Lemma safe_int_body (value : object) :
  value <> PyNone ->
  safe_int value
  = try_except
      (bind (float_of_object value) (fun f =>
       bind (int_of_float f) (fun z => Return (Some z))))
      is_ValueError_or_TypeError (Return None).
Proof. destruct value; intros Hn; [congruence | reflexivity ..]. Qed.

(** Of the values [float()] reads as the model says, only an integer too
    large makes it raise something else than a value or type error. *)
Lemma float_of_object_raises (value : object) (x : exn) :
  is_floatable value = false ->
  float_of_object value = Raise x ->
  is_ValueError_or_TypeError x = true \/
  (exists z, value = PyInt z) /\
  x = OverflowError (Msg "int too large to convert to float").
Proof.
  unfold float_of_object. intros Hk. destruct (as_str value).
  - intros Hf. apply float_of_str_raises in Hf. subst x. left. reflexivity.
  - assert (Hi : forall z, float_of_int z = Raise x ->
                           x = OverflowError (Msg "int too large to convert to float")).
    { intros z. unfold float_of_int. destruct (binary64 _ _ _); intros Hr; inversion Hr.
      reflexivity. }
    destruct value as [|b|z|f|s|t|r|]; try discriminate Hk; intros Hf;
      try discriminate Hf;
      try (inversion Hf; left; reflexivity).
    + destruct b; discriminate Hf.
    + right. split; [eauto | eapply Hi; exact Hf].
Qed.

(** X4. [safe_int] raises exactly when [float(value)] is an infinity, which
    [int()] refuses, or when [float(value)] itself raises something else
    than a [ValueError] or a [TypeError]; for [None], a [bool], an [int],
    a [float], a [str], a tree or an object [float()] does not read, the
    latter is the overflow of an [int] too large for a float. *)
Theorem safe_int_raises_iff :
  forall (value : object) (e : exn),
    (safe_int value = Raise e <->
     value <> PyNone /\
     ((exists neg, float_of_object value = Return (FInf neg) /\
                   e = OverflowError (Msg "cannot convert float infinity to integer")) \/
      (float_of_object value = Raise e /\ is_ValueError_or_TypeError e = false))) /\
    (is_floatable value = false ->
     float_of_object value = Raise e -> is_ValueError_or_TypeError e = false ->
     exists z, value = PyInt z /\
               e = OverflowError (Msg "int too large to convert to float")).
Proof.
  intros value e. split.
  - destruct (object_is_None value) as [->|Hn].
    + split; [discriminate | intros [Hn _]; congruence].
    + rewrite (safe_int_body value Hn). unfold try_except.
      destruct (float_of_object value) as [f|x] eqn:Hf; cbn [bind].
      * destruct f as [|neg|neg m ex]; cbn [int_of_float bind is_ValueError_or_TypeError].
        -- split; [discriminate|]. intros [_ [(neg & Hc & _)|[Hc _]]]; discriminate.
        -- split.
           ++ intros Hr. inversion Hr. split; [assumption|]. left. eauto.
           ++ intros [_ [(neg' & Hc & ->)|[Hc _]]]; [reflexivity | discriminate].
        -- split.
           ++ destruct (0 <=? ex); discriminate.
           ++ intros [_ [(neg' & Hc & _)|[Hc _]]]; discriminate.
      * destruct (is_ValueError_or_TypeError x) eqn:Hx.
        -- split; [discriminate|].
           intros [_ [(neg & Hc & _)|[Hc He]]]; [discriminate|].
           inversion Hc; subst x. congruence.
        -- split.
           ++ intros Hr. inversion Hr; subst x. split; [assumption|]. right. auto.
           ++ intros [_ [(neg & Hc & _)|[Hc He]]]; [discriminate | congruence].
  - intros Hk Hf He.
    destruct (float_of_object_raises value e Hk Hf) as [Hx|[(z & ->) ->]];
      [congruence | eauto].
Qed.

(** X6. [safe_str] puts a string in normal form: what it returns is not empty
    and has no white space at either end, and [safe_str] returns it
    unchanged when given it again. *)
Theorem safe_str_normal_form :
  forall (value : object) (s : string),
    safe_str value = Return (Some s) ->
    s <> "" /\ trimmed s /\ safe_str (PyStr s) = Return (Some s).
Proof.
  intros value s. unfold safe_str.
  destruct (as_str value) as [x|]; [|discriminate].
  destruct (strip x =? "")%string eqn:He; intros Hr; inversion Hr; subst s.
  apply String.eqb_neq in He.
  split; [assumption|]. split; [apply strip_is_trimmed|].
  cbn [as_str]. rewrite (strip_trimmed (strip x)) by apply strip_is_trimmed.
  apply String.eqb_neq in He. rewrite He. reflexivity.
Qed.

End ConverterOutcomes.

Lemma safe_str_normal_form_witness :
  safe_str (PyStr "  hello  ") = Return (Some "hello") /\
  "hello" <> "" /\ trimmed "hello" /\ safe_str (PyStr "hello") = Return (Some "hello").
Proof.
  split; [reflexivity|].
  exact (safe_str_normal_form (PyStr "  hello  ") "hello" eq_refl).
Defined.

Section DigitCounts.

Lemma of_uint_acc_lower (d : Decimal.uint) :
  forall acc : positive,
    Zpos acc * 10 ^ Z.of_nat (Decimal.nb_digits d) <= Zpos (Pos.of_uint_acc d acc).
Proof.
  induction d; intros acc; cbn [Decimal.nb_digits Pos.of_uint_acc];
    [rewrite Z.pow_0_r; lia | ..];
    rewrite Nat2Z.inj_succ, Z.pow_succ_r by lia;
    (etransitivity; [|apply IHd]);
    pose proof (Z.pow_pos_nonneg 10 (Z.of_nat (Decimal.nb_digits d))); nia.
Qed.

(** [head_digit]: a numeral that starts with the digit [q], followed by
    the digits [l], is at least [q] times the power of ten of their
    number. *)
Ltac head_digit :=
  match goal with
  | Hof : N.pos (Pos.of_uint_acc ?l ?q) = N.pos _ |- _ =>
      exists q, l; injection Hof as <-;
      cbn [Decimal.nb_digits]; rewrite Nat2Z.inj_succ;
      replace (Z.succ (Z.of_nat (Decimal.nb_digits l)) - 1)
        with (Z.of_nat (Decimal.nb_digits l)) by lia;
      apply of_uint_acc_lower
  end.

Lemma to_uint_head (p : positive) :
  exists (q : positive) (l : Decimal.uint),
    Zpos q * 10 ^ (Z.of_nat (Decimal.nb_digits (Pos.to_uint p)) - 1) <= Zpos p.
Proof.
  pose proof (DecimalPos.Unsigned.of_to p) as Hof.
  pose proof (DecimalPos.Unsigned.to_of (Pos.to_uint p)) as Hto.
  rewrite Hof in Hto. cbn [N.to_uint] in Hto.
  pose proof (DecimalPos.Unsigned.to_uint_nonzero p) as Hnz.
  pose proof (DecimalPos.Unsigned.to_uint_nonnil p) as Hnn.
  destruct (Pos.to_uint p) as [|l|l|l|l|l|l|l|l|l|l] eqn:Hd; [congruence | | ..];
    cbn [Pos.of_uint] in Hof.
  1:{ exfalso. unfold Decimal.unorm in Hto. cbn [Decimal.nzhead] in Hto.
      pose proof (DecimalFacts.nb_digits_nzhead l) as Hle.
      destruct (Decimal.nzhead l) eqn:Hl; try congruence;
        rewrite <- Hto in Hle; cbn [Decimal.nb_digits] in Hle; lia. }
  all: head_digit.
Qed.

(** A positive number is at least the power of ten of its digits but one. *)
Lemma ndigits_lower (c : Z) : 0 < c -> 10 ^ (ndigits c - 1) <= c.
Proof.
  intros Hc. destruct c as [|p|p]; try lia.
  unfold ndigits. cbn [Z.to_N N.to_uint].
  destruct (to_uint_head p) as (q & _ & Hq).
  pose proof (Z.pow_nonneg 10 (Z.of_nat (Decimal.nb_digits (Pos.to_uint p)) - 1)).
  nia.
Qed.

Lemma ndigits_le (c k : Z) : 0 <= c < 10 ^ k -> 1 <= k -> ndigits c <= k.
Proof.
  intros Hc Hk. destruct (Z.eq_dec c 0) as [->|Hne]; [vm_compute ndigits; lia|].
  pose proof (ndigits_lower c ltac:(lia)) as Hl.
  destruct (Z.le_gt_cases (ndigits c) k) as [|Hgt]; [assumption|exfalso].
  assert (10 ^ k <= 10 ^ (ndigits c - 1)) by (apply Z.pow_le_mono_r; lia).
  lia.
Qed.

End DigitCounts.

Section ExactDecimals.

Context `{FloatStr}.

(** What the number parsers need to know of a digit. *)
Lemma digit_facts (c : ascii) :
  isdigit c = true ->
  isspace_number c = false /\ isspace c = false /\ Ascii.eqb c "_" = false /\
  lower c = c /\
  scan_sign (String c EmptyString) = (false, String c EmptyString) /\
  Ascii.eqb c "i" = false /\ Ascii.eqb c "n" = false /\ Ascii.eqb c "s" = false /\
  Ascii.eqb c "<" = false.
Proof.
  destruct c as [[|] [|] [|] [|] [|] [|] [|] [|]]; intros Hd;
    try discriminate Hd; repeat split; reflexivity.
Qed.

Lemma all_digits_numeral (d : Decimal.uint) : all_digits (NilEmpty.string_of_uint d) = true.
Proof. induction d; simpl; auto. Qed.

Lemma all_digits_rstrip (sp : ascii -> bool) (s : string) :
  (forall c, isdigit c = true -> sp c = false) ->
  all_digits s = true -> rstrip_with sp s = s.
Proof.
  intros Hsp. induction s as [|c r IH]; [reflexivity|]. cbn [all_digits rstrip_with].
  intros Hd. apply andb_prop in Hd. destruct Hd as [Hc Hr].
  rewrite (IH Hr). destruct r; [|reflexivity]. rewrite (Hsp c Hc). reflexivity.
Qed.

Lemma all_digits_remove (s : string) :
  all_digits s = true -> remove_char "_" s = s.
Proof.
  induction s as [|c r IH]; [reflexivity|]. cbn [all_digits remove_char].
  intros Hd. apply andb_prop in Hd. destruct Hd as [Hc Hr].
  destruct (digit_facts c Hc) as (_ & _ & Hu & _).
  rewrite Ascii.eqb_sym, Hu, (IH Hr). reflexivity.
Qed.

Lemma all_digits_take (s : string) :
  all_digits s = true ->
  forall acc v, scan_digits false acc s = Some (v, EmptyString) ->
                take_digits acc s = (v, String.length s, EmptyString).
Proof.
  induction s as [|c r IH]; cbn [all_digits]; intros Hd acc v Hs.
  - simpl in Hs. inversion Hs. reflexivity.
  - apply andb_prop in Hd. destruct Hd as [Hc Hr].
    rewrite scan_digits_step in Hs by assumption.
    cbn [take_digits String.length]. rewrite Hc, (IH Hr _ _ Hs). reflexivity.
Qed.

Lemma signed_strip (sp : ascii -> bool) (neg : bool) (c : ascii) (r : string) :
  (forall c, isdigit c = true -> sp c = false) -> sp "-"%char = false ->
  all_digits (String c r) = true ->
  rstrip_with sp (lstrip_with sp (signed neg (String c r))) = signed neg (String c r).
Proof.
  intros Hsp Hm Hd.
  pose proof Hd as Hd'. cbn [all_digits] in Hd'. apply andb_prop in Hd'.
  destruct Hd' as [Hc Hr].
  unfold signed. destruct neg; cbn [append lstrip_with].
  - rewrite Hm.
    change (rstrip_with sp (String "-" (String c r)))
      with (match rstrip_with sp (String c r) with
            | EmptyString => if sp "-"%char then EmptyString else "-"
            | r' => String "-" r'
            end).
    rewrite (all_digits_rstrip sp _ Hsp Hd). reflexivity.
  - rewrite (Hsp c Hc). apply all_digits_rstrip; assumption.
Qed.

Lemma signed_sign (neg : bool) (c : ascii) (r : string) :
  all_digits (String c r) = true ->
  scan_sign (remove_char "_" (signed neg (String c r))) = (neg, String c r).
Proof.
  intros Hd.
  pose proof Hd as Hd'. cbn [all_digits] in Hd'. apply andb_prop in Hd'.
  destruct Hd' as [Hc Hr].
  destruct (digit_facts c Hc) as (_ & _ & _ & _ & Hsg & _).
  unfold signed. destruct neg; cbn [append].
  - change (remove_char "_" (String "-" (String c r)))
      with (String "-" (remove_char "_" (String c r))).
    rewrite (all_digits_remove _ Hd). reflexivity.
  - rewrite (all_digits_remove _ Hd). revert Hsg. unfold scan_sign.
    destruct c as [[|] [|] [|] [|] [|] [|] [|] [|]]; intros Hsg;
      try reflexivity; discriminate Hsg.
Qed.

Lemma literal_of_digits (s : string) (p : Z) :
  all_digits s = true -> s <> "" ->
  scan_digits false 0 s = Some (p, EmptyString) ->
  scan_literal s = Some ({| lit_digits := p; lit_exp10 := 0 |}, EmptyString).
Proof.
  intros Hd Hne Hs. unfold scan_literal. rewrite (all_digits_take _ Hd _ _ Hs).
  destruct s; [congruence|]. reflexivity.
Qed.

(** [Decimal()] reads a signed run of digits as the integer it denotes. *)
Lemma Decimal_of_digits (neg : bool) (c : ascii) (r : string) (p : Z) :
  all_digits (String c r) = true ->
  scan_digits false 0 (String c r) = Some (p, EmptyString) ->
  Decimal_of_str (signed neg (String c r)) = Return (DFin neg p 0).
Proof.
  intros Hd Hs.
  pose proof Hd as Hd'. cbn [all_digits] in Hd'. apply andb_prop in Hd'.
  destruct Hd' as [Hc Hr].
  destruct (digit_facts c Hc) as (_ & Hsp & _ & Hlow & _ & Hi & Hn & Hss & _).
  unfold Decimal_of_str, strip.
  rewrite signed_strip, signed_sign; try assumption; try reflexivity;
    [|intros c0 Hc0; apply (digit_facts c0 Hc0)].
  assert (Hw : forall w, (lower_str (String c r) =? String "i" w)%string = false).
  { intros w. cbn [lower_str String.eqb]. rewrite Hlow, Hi. reflexivity. }
  rewrite !Hw. cbn [orb].
  assert (Hp : forall w, startswith (String "n" w) (lower_str (String c r)) = false /\
                         startswith (String "s" w) (lower_str (String c r)) = false).
  { intros w. unfold startswith. cbn [lower_str String.prefix]. rewrite Hlow.
    split.
    - destruct (ascii_dec "n" c) as [<-|]; [discriminate Hc | reflexivity].
    - destruct (ascii_dec "s" c) as [<-|]; [discriminate Hc | reflexivity]. }
  rewrite (proj1 (Hp "an")), (proj2 (Hp "nan")).
  rewrite (literal_of_digits _ p Hd ltac:(discriminate) Hs). reflexivity.
Qed.

(** The quantization and the range test on a non-zero integer. *)
Lemma quantize_in_range_int (neg : bool) (p : Z) :
  0 < p ->
  quantize_in_range (DFin neg p 0)
  = Return (if p <? 10 ^ 10 then Some (DFin neg (p * 10 ^ 5) (-5)) else None).
Proof.
  intros Hp. unfold quantize_in_range. cbn [quantize5].
  replace (p =? 0) with false by (symmetry; apply Z.eqb_neq; lia).
  change (-5 <=? 0) with true. change (0 + 5) with 5.
  assert (Habs : ndigits (p * 10 ^ 5) <= prec ->
                 Decimal_abs (DFin neg (p * 10 ^ 5) (-5))
                 = Return (DFin false (p * 10 ^ 5) (-5))).
  { intros Hn. cbn [Decimal_abs]. unfold fix_prec.
    replace (0 <? ndigits (p * 10 ^ 5) - prec) with false
      by (symmetry; apply Z.ltb_ge; lia).
    reflexivity. }
  assert (Hge : Decimal_ge (DFin false (p * 10 ^ 5) (-5)) (DFin false 10000000000 0)
                = Return (negb (p <? 10 ^ 10))).
  { cbn [Decimal_ge]. f_equal. change (Z.min (-5) 0) with (-5).
    change (0 - -5) with 5. change (-5 - -5) with 0.
    destruct (Z.ltb_spec p (10 ^ 10)); cbn [negb];
      [apply Z.leb_gt | apply Z.leb_le]; lia. }
  destruct (Z.ltb_spec p (10 ^ 10)) as [Hlt|Hge10].
  - assert (H1 : ndigits p <= 10) by (apply ndigits_le; lia).
    assert (H2 : ndigits (p * 10 ^ 5) <= 15).
    { apply ndigits_le; [|lia]. change (10 ^ 15) with (10 ^ 10 * 10 ^ 5). lia. }
    replace (prec <? 0 + ndigits p - 1 + 5 + 1) with false
      by (symmetry; apply Z.ltb_ge; unfold prec; lia).
    replace (prec <? ndigits (p * 10 ^ 5)) with false
      by (symmetry; apply Z.ltb_ge; unfold prec; lia).
    cbn [bind try_except]. rewrite Habs by (unfold prec; lia). cbn [bind].
    rewrite Hge. reflexivity.
  - destruct (prec <? 0 + ndigits p - 1 + 5 + 1); [reflexivity|].
    destruct (Z.ltb_spec prec (ndigits (p * 10 ^ 5))) as [|Hn]; [reflexivity|].
    cbn [bind try_except]. rewrite (Habs Hn). cbn [bind].
    rewrite Hge. reflexivity.
Qed.

(** X3. [safe_decimal] on an integer.  Given as its decimal numeral, it is
    the integer itself with five decimal places when its magnitude is
    below 10^10, and absent from there on.  Given as an [int], it is the
    same, unless the integer has more digits than [str] converts: the
    error of [str] then comes out. *)
Theorem safe_decimal_int :
  forall z : Z,
    let exact := Return (if Z.abs z <? 10 ^ 10
                         then Some (DFin (z <? 0) (Z.abs z * 10 ^ 5) (-5))
                         else None) in
    safe_decimal (PyStr (str_of_int z)) = exact /\
    safe_decimal (PyInt z)
    = (if int_max_str_digits <? ndigits (Z.abs z) then Raise int_str_refused else exact).
Proof.
  intros z exact.
  assert (Hnum : forall neg p c r,
             all_digits (String c r) = true ->
             scan_digits false 0 (String c r) = Some (Zpos p, EmptyString) ->
             str_of_int z = signed neg (String c r) ->
             safe_decimal (PyStr (str_of_int z))
             = Return (if Zpos p <? 10 ^ 10
                       then Some (DFin neg (Zpos p * 10 ^ 5) (-5)) else None)).
  { intros neg p c r Hd Hs Hz.
    pose proof Hd as Hd'. cbn [all_digits] in Hd'. apply andb_prop in Hd'.
    destruct Hd' as [Hc Hr].
    unfold safe_decimal. cbn [str_of_number as_str bind]. rewrite Hz.
    unfold strip at 1 2.
    rewrite !signed_strip; try assumption; try reflexivity;
      try (intros c0 Hc0; apply (digit_facts c0 Hc0)).
    replace (signed neg (String c r) =? "")%string with false
      by (destruct neg; reflexivity).
    unfold parse_decimal.
    replace (startswith "<" (signed neg (String c r))) with false.
    2:{ destruct neg; [reflexivity|]. unfold signed, startswith. cbn [append String.prefix].
        destruct (ascii_dec "<" c) as [<-|]; [discriminate Hc | reflexivity]. }
    rewrite (Decimal_of_digits neg c r (Zpos p) Hd Hs). cbn [bind try_except].
    apply quantize_in_range_int. lia. }
  assert (Hstr : safe_decimal (PyStr (str_of_int z)) = exact).
  { destruct z as [|p|p].
    - reflexivity.
    - destruct (numeral_head p) as (c & r & Hs & Hu & _).
      apply (Hnum false p c r).
      + rewrite <- Hu. apply all_digits_numeral.
      + rewrite <- Hu, scan_digits_uint, DecimalPos.Unsigned.of_to. reflexivity.
      + exact Hs.
    - destruct (numeral_head p) as (c & r & Hs & Hu & _).
      apply (Hnum true p c r).
      + rewrite <- Hu. apply all_digits_numeral.
      + rewrite <- Hu, scan_digits_uint, DecimalPos.Unsigned.of_to. reflexivity.
      + unfold signed. rewrite <- Hs. reflexivity. }
  split; [exact Hstr|].
  rewrite <- Hstr. unfold safe_decimal at 1. cbn [str_of_number].
  unfold str_of_int_checked.
  destruct (int_max_str_digits <? ndigits (Z.abs z)); reflexivity.
Qed.

End ExactDecimals.

Section ExactIntegers.

(** An integer of at most 53 bits is a float, and comes back from it. *)
Lemma binary64_int (neg : bool) (p : Z) :
  0 < p <= 2 ^ 53 ->
  exists m t, binary64 neg p 1 = Some (FFin neg m t) /\
              int_of_float (FFin neg m t) = Return (if neg then - p else p).
Proof.
  intros Hp. destruct (Z.eq_dec p (2 ^ 53)) as [->|Hne].
  - exists (2 ^ 52), 1. split; [reflexivity | destruct neg; reflexivity].
  - pose proof (Z.log2_spec p (proj1 Hp)) as [Hlo Hhi].
    pose proof (Z.log2_nonneg p) as Hl0.
    assert (Hl : Z.log2 p < 53) by (apply Z.log2_lt_pow2; lia).
    exists (p * 2 ^ (52 - Z.log2 p)), (Z.log2 p - 52). split.
    + unfold binary64.
      replace (p =? 0) with false by (symmetry; apply Z.eqb_neq; lia).
      change (Z.log2 1) with 0. rewrite Z.sub_0_r.
      rewrite (Z.max_l 0 (- Z.log2 p)), (Z.max_r 0 (Z.log2 p)) by lia.
      rewrite Z.pow_0_r, !Z.mul_1_r, Z.mul_1_l.
      replace (p <? 2 ^ Z.log2 p) with false by (symmetry; apply Z.ltb_ge; lia).
      rewrite (Z.max_l (Z.log2 p - 52) (-1074)) by lia.
      rewrite (Z.max_r 0 (- (Z.log2 p - 52))), (Z.max_l 0 (Z.log2 p - 52)) by lia.
      replace (- (Z.log2 p - 52)) with (52 - Z.log2 p) by lia.
      rewrite Z.pow_0_r.
      unfold round_half_even. rewrite Z.mod_1_r, Z.div_1_r. change (2 * 0 ?= 1) with Lt.
      replace (971 <? Z.log2 p - 52) with false by (symmetry; apply Z.ltb_ge; lia).
      replace (Z.log2 p - 52 =? 971) with false by (symmetry; apply Z.eqb_neq; lia).
      reflexivity.
    + cbn [int_of_float].
      assert (Hv : (if 0 <=? Z.log2 p - 52
                    then p * 2 ^ (52 - Z.log2 p) * 2 ^ (Z.log2 p - 52)
                    else p * 2 ^ (52 - Z.log2 p) / 2 ^ (- (Z.log2 p - 52))) = p).
      { destruct (Z.leb_spec 0 (Z.log2 p - 52)).
        - replace (Z.log2 p) with 52 by lia. change (52 - 52) with 0.
          rewrite Z.pow_0_r. lia.
        - replace (- (Z.log2 p - 52)) with (52 - Z.log2 p) by lia.
          apply Z.div_mul. apply Z.pow_nonzero; lia. }
      rewrite Hv. reflexivity.
Qed.

Lemma float_of_int_exact (z : Z) :
  Z.abs z <= 2 ^ 53 ->
  exists f, float_of_int z = Return f /\ int_of_float f = Return z.
Proof.
  intros Hz. unfold float_of_int. destruct z as [|p|p].
  - exists (FFin false 0 0). split; reflexivity.
  - destruct (binary64_int false (Zpos p)) as (m & t & Hb & Hi); [lia|].
    change (Z.pos p <? 0) with false. change (Z.abs (Z.pos p)) with (Z.pos p).
    rewrite Hb. eauto.
  - destruct (binary64_int true (Zpos p)) as (m & t & Hb & Hi); [lia|].
    change (Z.neg p <? 0) with true. change (Z.abs (Z.neg p)) with (Z.pos p).
    rewrite Hb. eauto.
Qed.

Lemma all_digits_underscores (s : string) :
  all_digits s = true ->
  forall prev, prev <> Some "_"%char -> underscores_ok prev s = true.
Proof.
  induction s as [|c r IH]; cbn [all_digits underscores_ok]; intros Hd prev Hp.
  - destruct prev as [[[|] [|] [|] [|] [|] [|] [|] [|]]|]; try reflexivity. congruence.
  - apply andb_prop in Hd. destruct Hd as [Hc Hr].
    destruct (digit_facts c Hc) as (_ & _ & Hu & _). rewrite Hu.
    rewrite IH; [|assumption|].
    + rewrite andb_true_r.
      destruct prev as [[[|] [|] [|] [|] [|] [|] [|] [|]]|]; try reflexivity. congruence.
    + intros Heq. inversion Heq; subst c. discriminate.
Qed.

(** [float()] reads a signed run of digits as the integer it denotes. *)
Lemma float_of_digits (neg : bool) (c : ascii) (r : string) (p : Z) :
  all_digits (String c r) = true ->
  scan_digits false 0 (String c r) = Some (p, EmptyString) ->
  0 < p <= 2 ^ 53 ->
  exists f, float_of_str (signed neg (String c r)) = Return f /\
            int_of_float f = Return (if neg then - p else p).
Proof.
  intros Hd Hs Hp.
  pose proof Hd as Hd'. cbn [all_digits] in Hd'. apply andb_prop in Hd'.
  destruct Hd' as [Hc Hr].
  destruct (digit_facts c Hc) as (_ & _ & _ & Hlow & _ & Hi & Hn & _).
  destruct (binary64_int neg p Hp) as (m & t & Hb & Hint).
  exists (FFin neg m t). split; [|assumption].
  unfold float_of_str.
  rewrite signed_strip; try assumption; try reflexivity;
    [|intros c0 Hc0; apply (digit_facts c0 Hc0)].
  assert (Hu : underscores_ok None (signed neg (String c r)) = true).
  { unfold signed. destruct neg; cbn [append].
    - change (underscores_ok None (String "-" (String c r)))
        with (underscores_ok (Some "-"%char) (String c r)).
      apply all_digits_underscores; [assumption | discriminate].
    - apply all_digits_underscores; [assumption | discriminate]. }
  rewrite Hu, signed_sign by assumption. cbn [negb].
  assert (Hw : forall w, (lower_str (String c r) =? String "i" w)%string = false /\
                         (lower_str (String c r) =? String "n" w)%string = false).
  { intros w. cbn [lower_str String.eqb]. rewrite Hlow, Hi, Hn. auto. }
  rewrite (proj1 (Hw "nf")), (proj1 (Hw "nfinity")), (proj2 (Hw "an")). cbn [orb].
  rewrite (literal_of_digits _ p Hd ltac:(discriminate) Hs).
  cbn [lit_exp10 lit_digits]. change (0 <=? 0) with true.
  rewrite Z.pow_0_r, Z.mul_1_r, Hb. reflexivity.
Qed.

Lemma float_of_numeral (z : Z) :
  Z.abs z <= 2 ^ 53 ->
  exists f, float_of_str (str_of_int z) = Return f /\ int_of_float f = Return z.
Proof.
  intros Hz. destruct z as [|p|p].
  - exists (FFin false 0 0). split; reflexivity.
  - destruct (numeral_head p) as (c & r & Hs & Hu & _).
    destruct (float_of_digits false c r (Zpos p)) as (f & Hf & Hi).
    + rewrite <- Hu. apply all_digits_numeral.
    + rewrite <- Hu, scan_digits_uint, DecimalPos.Unsigned.of_to. reflexivity.
    + lia.
    + exists f. rewrite Hs. auto.
  - destruct (numeral_head p) as (c & r & Hs & Hu & _).
    destruct (float_of_digits true c r (Zpos p)) as (f & Hf & Hi).
    + rewrite <- Hu. apply all_digits_numeral.
    + rewrite <- Hu, scan_digits_uint, DecimalPos.Unsigned.of_to. reflexivity.
    + lia.
    + exists f. split; [|exact Hi].
      replace (str_of_int (Z.neg p)) with (signed true (String c r)); [exact Hf|].
      unfold signed. rewrite <- Hs. reflexivity.
Qed.

(** X5. [safe_int] is exact on the integers of magnitude at most 2^53,
    given as an integer or as its decimal numeral: the passage through
    [float] loses nothing there. *)
Theorem safe_int_exact :
  forall z : Z,
    Z.abs z <= 2 ^ 53 ->
    safe_int (PyInt z) = Return (Some z) /\
    safe_int (PyStr (str_of_int z)) = Return (Some z).
Proof.
  intros z Hz. split.
  - destruct (float_of_int_exact z Hz) as (f & Hf & Hi).
    unfold safe_int, float_of_object. cbn [as_str]. rewrite Hf. cbn [bind].
    rewrite Hi. reflexivity.
  - destruct (float_of_numeral z Hz) as (f & Hf & Hi).
    unfold safe_int, float_of_object. cbn [as_str]. rewrite Hf. cbn [bind].
    rewrite Hi. reflexivity.
Qed.

Lemma safe_int_exact_witness :
  Z.abs (-9007199254740992) <= 2 ^ 53 /\
  safe_int (PyInt (-9007199254740992)) = Return (Some (-9007199254740992)) /\
  safe_int (PyStr "-9007199254740992") = Return (Some (-9007199254740992)).
Proof.
  split; [vm_compute; discriminate|].
  apply (safe_int_exact (-9007199254740992)). vm_compute. discriminate.
Defined.

End ExactIntegers.


(* ===================================================================== *)
(** * Further theorems: the passes over the document tree *)
(* ===================================================================== *)

Section TreeFacts.

(** Induction on a node, with the hypothesis for every child of a tag. *)
Lemma node_induction (P : node -> Prop) :
  (forall s, P (NavigableString s)) ->
  (forall name attrs cs, Forall P cs -> P (Tag name attrs cs)) ->
  forall n, P n.
Proof.
  intros Hs Ht. fix IH 1. intros [s|name attrs cs]; [apply Hs|].
  apply Ht. induction cs as [|c cs IHcs]; constructor; [apply IH | exact IHcs].
Qed.

(** The tags found below a tag: a child named by [names], or a tag found
    below a child. *)
Lemma in_find_all (names : list string) (name : string) attrs (cs : list node) (x : node) :
  In x (find_all names (Tag name attrs cs)) <->
  exists c, In c cs /\ ((is_tag names c = true /\ x = c) \/ In x (find_all names c)).
Proof.
  cbn [find_all]. rewrite in_flat_map. split; intros (c & Hc & Hx); exists c; split; auto.
  - apply in_app_or in Hx. destruct Hx as [Hx|Hx]; [left|right; assumption].
    destruct (is_tag names c); [|contradiction]. destruct Hx as [<-|[]]. auto.
  - apply in_or_app. destruct Hx as [[Ht ->]|Hx]; [left|right; assumption].
    rewrite Ht. left. reflexivity.
Qed.

Lemma find_all_is_tag (names : list string) (x : node) :
  forall n, In x (find_all names n) -> is_tag names x = true.
Proof.
  induction n as [s|name attrs cs IH] using node_induction; [contradiction|].
  rewrite in_find_all. intros (c & Hc & [[Ht ->]|Hx]); [assumption|].
  rewrite Forall_forall in IH. eauto.
Qed.

Lemma absent_iff (names : list string) (n : node) :
  absent names n <-> forall x, ~ In x (find_all names n).
Proof.
  unfold absent. split; [intros -> x []|].
  intros Hn. destruct (find_all names n) as [|x l]; [reflexivity|].
  destruct (Hn x). left. reflexivity.
Qed.

(** A tag below a tag found below [n] is below [n]. *)
Lemma find_all_trans (names names' : list string) (t x : node) :
  forall n, In t (find_all names n) -> In x (find_all names' t) ->
            In x (find_all names' n).
Proof.
  induction n as [s|name attrs cs IH] using node_induction; [contradiction|].
  rewrite !in_find_all. intros (c & Hc & Ht) Hx. exists c. split; [assumption|].
  right. destruct Ht as [[_ ->]|Ht]; [assumption|].
  rewrite Forall_forall in IH. eauto.
Qed.

(** More names find more tags. *)
Lemma find_all_incl (names names' : list string) (x : node) :
  (forall s, mem s names = true -> mem s names' = true) ->
  forall n, In x (find_all names n) -> In x (find_all names' n).
Proof.
  intros Hm.
  induction n as [s|name attrs cs IH] using node_induction; [contradiction|].
  rewrite !in_find_all. intros (c & Hc & Hx). exists c. split; [assumption|].
  destruct Hx as [[Ht ->]|Hx].
  - left. split; [|reflexivity]. destruct c; [discriminate|]. apply Hm. exact Ht.
  - right. rewrite Forall_forall in IH. eauto.
Qed.

Lemma absent_incl (names names' : list string) (n : node) :
  (forall s, mem s names = true -> mem s names' = true) ->
  absent names' n -> absent names n.
Proof.
  rewrite !absent_iff. intros Hm Ha x Hx. apply (Ha x).
  eapply find_all_incl; eassumption.
Qed.

Lemma is_tag_replace_all (names names' : list string) (f : node -> string) (n : node) :
  is_tag names (replace_all names' f n) = is_tag names n.
Proof. destruct n; reflexivity. Qed.

Lemma is_tag_replace_some (names names' : list string) f (n : node) :
  is_tag names (replace_some names' f n) = is_tag names n.
Proof. destruct n; reflexivity. Qed.

(** A tag found after a pass is the image of a tag found before it, one
    that the pass did not replace. *)
Lemma find_all_replace_all (names names' : list string) (f : node -> string) (x : node) :
  forall n, In x (find_all names (replace_all names' f n)) ->
            exists y, In y (find_all names n) /\ is_tag names' y = false /\
                      x = replace_all names' f y.
Proof.
  induction n as [s|name attrs cs IH] using node_induction; [contradiction|].
  cbn [replace_all]. rewrite in_find_all. intros (c' & Hc' & Hx).
  apply in_map_iff in Hc'. destruct Hc' as (c & <- & Hc).
  destruct (is_tag names' c) eqn:Hr.
  - destruct Hx as [[Ht _]|[]]. discriminate.
  - destruct Hx as [[Ht ->]|Hx].
    + exists c. rewrite is_tag_replace_all in Ht. split; [|auto].
      apply in_find_all. exists c. auto.
    + rewrite Forall_forall in IH. destruct (IH c Hc Hx) as (y & Hy & Hn & ->).
      exists y. split; [|auto]. apply in_find_all. exists c. auto.
Qed.

Lemma find_all_replace_some (names names' : list string) f (x : node) :
  forall n, In x (find_all names (replace_some names' f n)) ->
            exists y, In y (find_all names n) /\ x = replace_some names' f y.
Proof.
  induction n as [s|name attrs cs IH] using node_induction; [contradiction|].
  cbn [replace_some]. rewrite in_find_all. intros (c' & Hc' & Hx).
  apply in_map_iff in Hc'. destruct Hc' as (c & <- & Hc).
  assert (Hkeep : (is_tag names (replace_some names' f c) = true /\
                   x = replace_some names' f c) \/
                  In x (find_all names (replace_some names' f c)) ->
                  exists y, In y (find_all names (Tag name attrs cs)) /\
                            x = replace_some names' f y).
  { intros [[Ht ->]|Hx'].
    - exists c. rewrite is_tag_replace_some in Ht. split; [|auto].
      apply in_find_all. exists c. auto.
    - rewrite Forall_forall in IH. destruct (IH c Hc Hx') as (y & Hy & ->).
      exists y. split; [|auto]. apply in_find_all. exists c. auto. }
  destruct (is_tag names' c); [|auto].
  destruct (f c); [|auto].
  destruct Hx as [[Ht _]|[]]. discriminate.
Qed.

(** A pass removes the tags it names. *)
Lemma replace_all_absent (names : list string) (f : node -> string) (n : node) :
  absent names (replace_all names f n).
Proof.
  apply absent_iff. intros x Hx.
  destruct (find_all_replace_all _ _ _ _ _ Hx) as (y & Hy & Hn & _).
  apply find_all_is_tag in Hy. congruence.
Qed.

(** A pass brings in no tag. *)
Lemma replace_all_keeps_absent (names names' : list string) (f : node -> string) (n : node) :
  absent names n -> absent names (replace_all names' f n).
Proof.
  rewrite !absent_iff. intros Ha x Hx.
  destruct (find_all_replace_all _ _ _ _ _ Hx) as (y & Hy & _). exact (Ha y Hy).
Qed.

Lemma replace_some_keeps_absent (names names' : list string) f (n : node) :
  absent names n -> absent names (replace_some names' f n).
Proof.
  rewrite !absent_iff. intros Ha x Hx.
  destruct (find_all_replace_some _ _ _ _ _ Hx) as (y & Hy & _). exact (Ha y Hy).
Qed.

Lemma absent_children (names : list string) (name : string) attrs (cs : list node) :
  absent names (Tag name attrs cs) ->
  forall c, In c cs -> is_tag names c = false /\ absent names c.
Proof.
  intros Ha c Hc. rewrite absent_iff in Ha. split.
  - destruct (is_tag names c) eqn:Ht; [|reflexivity].
    destruct (Ha c). apply in_find_all. exists c. auto.
  - apply absent_iff. intros x Hx. apply (Ha x). apply in_find_all. exists c. auto.
Qed.

(** A pass leaves a document without its tags as it is. *)
Lemma replace_all_id (names : list string) (f : node -> string) :
  forall n, absent names n -> replace_all names f n = n.
Proof.
  induction n as [s|name attrs cs IH] using node_induction; [reflexivity|].
  intros Ha. cbn [replace_all]. f_equal.
  rewrite <- (map_id cs) at 2. apply map_ext_in. intros c Hc.
  destruct (absent_children _ _ _ _ Ha c Hc) as [-> Hc'].
  rewrite Forall_forall in IH. auto.
Qed.

Lemma replace_some_id (names : list string) f :
  forall n, absent names n -> replace_some names f n = n.
Proof.
  induction n as [s|name attrs cs IH] using node_induction; [reflexivity|].
  intros Ha. cbn [replace_some]. f_equal.
  rewrite <- (map_id cs) at 2. apply map_ext_in. intros c Hc.
  destruct (absent_children _ _ _ _ Ha c Hc) as [-> Hc'].
  rewrite Forall_forall in IH. auto.
Qed.

Lemma replace_all_result_id (names : list string) (f : node -> result string) (n : node) :
  absent names n -> replace_all_result names f n = Return n.
Proof.
  intros Ha. unfold replace_all_result. rewrite Ha. cbn [for_each bind].
  rewrite replace_all_id by exact Ha. reflexivity.
Qed.

Lemma replace_all_result_absent (names : list string) (f : node -> result string)
      (n n' : node) :
  replace_all_result names f n = Return n' -> absent names n'.
Proof.
  unfold replace_all_result. destruct (for_each _ _); [|discriminate].
  cbn [bind]. intros Hr. inversion Hr. apply replace_all_absent.
Qed.

Lemma replace_all_result_keeps_absent (names names' : list string)
      (f : node -> result string) (n n' : node) :
  replace_all_result names' f n = Return n' -> absent names n -> absent names n'.
Proof.
  unfold replace_all_result. destruct (for_each _ _); [|discriminate].
  cbn [bind]. intros Hr. inversion Hr. apply replace_all_keeps_absent.
Qed.

Lemma find_all_retag (names names' : list string) (x : node) :
  forall n, In x (find_all names n) -> is_tag names' x = true ->
            In x (find_all names' n).
Proof.
  induction n as [s|name attrs cs IH] using node_induction; [contradiction|].
  rewrite !in_find_all. intros (c & Hc & Hx) Ht. exists c. split; [assumption|].
  destruct Hx as [[_ ->]|Hx]; [left; auto|].
  right. rewrite Forall_forall in IH. eauto.
Qed.

Lemma mem_app (s : string) (a b : list string) :
  mem s (a ++ b) = mem s a || mem s b.
Proof.
  induction a as [|x a IH]; [reflexivity|]. cbn [mem app]. rewrite IH.
  apply orb_assoc.
Qed.

(** Tags absent under two lists of names are absent under both. *)
Lemma absent_app (a b : list string) (n : node) :
  absent a n -> absent b n -> absent (a ++ b) n.
Proof.
  rewrite !absent_iff. intros Ha Hb x Hx.
  pose proof (find_all_is_tag _ _ _ Hx) as Ht.
  assert (Hor : is_tag a x = true \/ is_tag b x = true).
  { destruct x; [discriminate|]. cbn [is_tag] in *. rewrite mem_app in Ht.
    apply orb_prop in Ht. exact Ht. }
  destruct Hor as [Hta|Htb].
  - apply (Ha x). eapply find_all_retag; eassumption.
  - apply (Hb x). eapply find_all_retag; eassumption.
Qed.

End TreeFacts.

(** [absent_step]: a pass removes its tags and brings none in. *)
Ltac absent_step :=
  first [ apply replace_all_absent
        | apply replace_all_keeps_absent
        | apply replace_some_keeps_absent ].

(** [mem_subset]: the names of a short list are among those of a longer
    one. *)
Ltac mem_subset :=
  let s := fresh "s" in
  let Hm := fresh "Hm" in
  intros s; cbn [mem]; intros Hm;
  repeat (apply orb_prop in Hm; destruct Hm as [Hm|Hm]);
  try discriminate Hm; apply String.eqb_eq in Hm; subst s; reflexivity.

Section PassFacts.

Context `{Memory}.

Variable self : HTMLToMarkdownConverter.

Lemma _process_headings_eq (soup : node) :
  _process_headings self soup
  = replace_all ["h1"] (heading_text self 1)
      (replace_all ["h2"] (heading_text self 2)
         (replace_all ["h3"] (heading_text self 3)
            (replace_all ["h4"] (heading_text self 4)
               (replace_all ["h5"] (heading_text self 5)
                  (replace_all ["h6"] (heading_text self 6) soup))))).
Proof. reflexivity. Qed.

Lemma inline_formatting_absent :
  forall soup : node,
    absent ["strong"; "b"; "em"; "i"; "s"; "del"; "code"] (inline_formatting self soup) /\
    absent (if preserve_links (config self) && (link_style (config self) =? "inline")%string
            then ["a"] else []) (inline_formatting self soup).
Proof.
  intros soup. unfold inline_formatting.
  destruct (preserve_links (config self) && (link_style (config self) =? "inline")%string).
  - split; [|apply replace_all_absent].
    apply (absent_app ["strong"; "b"] ["em"; "i"; "s"; "del"; "code"]);
      [repeat absent_step|].
    apply (absent_app ["em"; "i"] ["s"; "del"; "code"]); [repeat absent_step|].
    apply (absent_app ["s"; "del"] ["code"]); repeat absent_step.
  - split.
    + apply (absent_app ["strong"; "b"] ["em"; "i"; "s"; "del"; "code"]);
        [repeat absent_step|].
      apply (absent_app ["em"; "i"] ["s"; "del"; "code"]); [repeat absent_step|].
      apply (absent_app ["s"; "del"] ["code"]); repeat absent_step.
    + apply absent_iff. intros x Hx. apply find_all_is_tag in Hx.
      destruct x; discriminate.
Qed.

(** X7. After the inline passes, over the document or over a table, no
    tag of strong or emphasised text, of struck text or of code is left,
    and no link when links are written inline. *)
Theorem inline_tags_removed :
  forall soup table : node,
    (absent ["strong"; "b"; "em"; "i"; "s"; "del"; "code"]
            (_process_basic_formatting self soup) /\
     absent (if preserve_links (config self) && (link_style (config self) =? "inline")%string
             then ["a"] else []) (_process_basic_formatting self soup)) /\
    (absent ["strong"; "b"; "em"; "i"; "s"; "del"; "code"]
            (_process_table_inline_formatting self table) /\
     absent (if preserve_links (config self) && (link_style (config self) =? "inline")%string
             then ["a"] else []) (_process_table_inline_formatting self table)).
Proof.
  intros soup table. unfold _process_basic_formatting, _process_table_inline_formatting.
  split; [|split]; apply inline_formatting_absent.
Qed.

(** X8. The inline passes are idempotent: run again on their own result
    they change nothing. *)
Theorem inline_formatting_idempotent :
  forall soup : node,
    inline_formatting self (inline_formatting self soup) = inline_formatting self soup.
Proof.
  intros soup. destruct (inline_formatting_absent soup) as [Ha Hl].
  generalize dependent (inline_formatting self soup). intros t Ha Hl.
  unfold inline_formatting.
  assert (H1 : absent ["strong"; "b"] t) by (revert Ha; apply absent_incl; intros s;
    cbn [mem]; intros Hm; repeat (apply orb_prop in Hm; destruct Hm as [->|Hm]);
    rewrite ?orb_true_r; try reflexivity; discriminate).
  assert (H2 : absent ["em"; "i"] t) by (revert Ha; apply absent_incl; intros s;
    cbn [mem]; intros Hm; repeat (apply orb_prop in Hm; destruct Hm as [->|Hm]);
    rewrite ?orb_true_r; try reflexivity; discriminate).
  assert (H3 : absent ["s"; "del"] t) by (revert Ha; apply absent_incl; intros s;
    cbn [mem]; intros Hm; repeat (apply orb_prop in Hm; destruct Hm as [->|Hm]);
    rewrite ?orb_true_r; try reflexivity; discriminate).
  assert (H4 : absent ["code"] t) by (revert Ha; apply absent_incl; intros s;
    cbn [mem]; intros Hm; repeat (apply orb_prop in Hm; destruct Hm as [->|Hm]);
    rewrite ?orb_true_r; try reflexivity; discriminate).
  rewrite (replace_all_id _ _ t H1), (replace_all_id _ _ t H2),
          (replace_all_id _ _ t H3), (replace_all_id _ _ t H4).
  destruct (preserve_links (config self) && (link_style (config self) =? "inline")%string);
    [apply replace_all_id; exact Hl | reflexivity].
Qed.

(** X9. After the passes of the structure no heading, list, code block, quote
    or rule is left in the tree, and no table when tables are kept. *)
Theorem structure_tags_removed :
  forall soup soup' : node,
    _process_structure self soup = Return soup' ->
    absent ["h1"; "h2"; "h3"; "h4"; "h5"; "h6"; "ol"; "ul"; "pre"; "blockquote"; "hr"] soup' /\
    (preserve_tables (config self) = true -> absent ["table"] soup').
Proof.
  intros soup soup'. unfold _process_structure.
  rewrite _process_headings_eq.
  unfold _process_lists, _process_code_blocks, _process_blockquotes,
    _process_horizontal_rules, _process_tables.
  set (t := replace_all ["ul"] _ _).
  assert (Ht : absent ["h1"; "h2"; "h3"; "h4"; "h5"; "h6"; "ol"; "ul"] t).
  { subst t.
    repeat match goal with
           | |- absent (?a :: ?b :: ?l) ?n => apply (absent_app [a] (b :: l))
           end; repeat absent_step. }
  clearbody t.
  assert (Hkeep : forall t', absent ["h1"; "h2"; "h3"; "h4"; "h5"; "h6"; "ol"; "ul"] t' ->
            absent ["h1"; "h2"; "h3"; "h4"; "h5"; "h6"; "ol"; "ul"; "pre"; "blockquote"; "hr"]
                   (replace_all ["hr"] (fun _ => LF ++ "---" ++ LF)
                      (replace_all ["blockquote"] (blockquote_text)
                         (replace_all ["pre"] (pre_text self) t')))).
  { intros t' Ht'.
    apply (absent_app ["h1"; "h2"; "h3"; "h4"; "h5"; "h6"; "ol"; "ul"]
                      ["pre"; "blockquote"; "hr"]); [repeat absent_step; exact Ht'|].
    apply (absent_app ["pre"] ["blockquote"; "hr"]); [repeat absent_step|].
    apply (absent_app ["blockquote"] ["hr"]); repeat absent_step. }
  destruct (preserve_tables (config self)).
  - destruct (replace_all_result ["table"] (table_text self) t) as [t'|e] eqn:Hr;
      [|discriminate].
    cbn [bind]. intros Heq. inversion Heq; subst soup'. split.
    + apply Hkeep. eapply replace_all_result_keeps_absent; eassumption.
    + intros _. repeat apply replace_all_keeps_absent.
      eapply replace_all_result_absent; eassumption.
  - cbn [bind]. intros Heq. inversion Heq; subst soup'. split; [auto | discriminate].
Qed.

End PassFacts.

Lemma structure_tags_removed_witness :
  @_process_structure (new_converter None) roomy titled_document
  = Return (document [NavigableString (LF ++ "# Title" ++ LF);
                      NavigableString (LF ++ "---" ++ LF)]) /\
  absent ["h1"; "h2"; "h3"; "h4"; "h5"; "h6"; "ol"; "ul"; "pre"; "blockquote"; "hr"]
         (document [NavigableString (LF ++ "# Title" ++ LF);
                    NavigableString (LF ++ "---" ++ LF)]) /\
  (preserve_tables (config (new_converter None)) = true ->
   absent ["table"] (document [NavigableString (LF ++ "# Title" ++ LF);
                               NavigableString (LF ++ "---" ++ LF)])).
Proof.
  split; [reflexivity|].
  exact (@structure_tags_removed roomy (new_converter None) titled_document _ eq_refl).
Defined.

Section ConversionOrigins.

Context `{Memory} `{Parser} `{Html}.

Variable self : HTMLToMarkdownConverter.

Ltac raised H x := apply bind_raises in H; destruct H as [H | (x & _ & H)].

(** X10. Markup the converter has no pass for is flattened: a tree without any
    of the tags the passes look for is converted to the cleanup of its
    text. *)
Theorem unhandled_markup_is_flattened :
  forall soup : node,
    absent handled_tags soup ->
    convert_html_soup self soup None = Return (_clean_and_format (get_text soup)).
Proof.
  intros soup Ha. unfold convert_html_soup, _process_structure.
  rewrite _process_headings_eq.
  unfold _process_lists, _process_tables, _process_code_blocks, _process_blockquotes,
    _process_horizontal_rules, _process_basic_formatting, inline_formatting,
    _process_paragraphs_final.
  assert (Hone : forall names, (forall s, mem s names = true -> mem s handled_tags = true) ->
                               absent names soup).
  { intros names Hm. eapply absent_incl; eassumption. }
  assert (Hid : forall names f, (forall s, mem s names = true -> mem s handled_tags = true) ->
                                replace_all names f soup = soup).
  { intros names f Hm. apply replace_all_id. auto. }
  destruct (preserve_structure (config self)).
  - rewrite !Hid by mem_subset.
    destruct (preserve_tables (config self));
      [rewrite replace_all_result_id by (apply Hone; mem_subset)|];
      cbn [bind]; rewrite !Hid by mem_subset;
      (destruct (preserve_links (config self) && (link_style (config self) =? "inline")%string);
       rewrite ?Hid by mem_subset;
       rewrite replace_some_id by (apply Hone; mem_subset); reflexivity).
  - cbn [bind]. rewrite !Hid by mem_subset.
    destruct (preserve_links (config self) && (link_style (config self) =? "inline")%string);
      rewrite ?Hid by mem_subset;
      rewrite replace_some_id by (apply Hone; mem_subset); reflexivity.
Qed.

Lemma colspan_of_replace_all (names : list string) (f : node -> string) (y : node) :
  colspan_of (replace_all names f y) = colspan_of y.
Proof. destruct y; reflexivity. Qed.



Lemma span_fails_replace_all (names : list string) (f : node -> string) (y : node)
      (e : exn) :
  span_fails e (replace_all names f y) <-> span_fails e y.
Proof. unfold span_fails. rewrite colspan_of_replace_all. reflexivity. Qed.


















End ConversionOrigins.

Lemma unhandled_markup_is_flattened_witness :
  absent handled_tags division_document /\
  @convert_html_soup (new_converter None) roomy text_parser no_unescape
     division_document None
  = Return (@_clean_and_format no_unescape (get_text division_document)).
Proof.
  split; [reflexivity|].
  exact (@unhandled_markup_is_flattened roomy text_parser no_unescape (new_converter None)
           division_document eq_refl).
Defined.




Section SimpleTables.

Context `{Memory}.

Variable self : HTMLToMarkdownConverter.

Lemma inline_formatting_id (t : node) :
  absent inline_tags t -> inline_formatting self t = t.
Proof.
  intros Ha. unfold inline_formatting.
  assert (Hid : forall names f, (forall s, mem s names = true -> mem s inline_tags = true) ->
                                replace_all names f t = t).
  { intros names f Hm. apply replace_all_id. eapply absent_incl; eassumption. }
  rewrite !Hid by mem_subset.
  destruct (preserve_links (config self) && (link_style (config self) =? "inline")%string);
    reflexivity.
Qed.

Lemma expand_cells_plain (cells : list node) :
  Forall (fun cell => get "colspan" cell = None) cells ->
  expand_cells cells = Return (map (fun cell => strip (get_text cell)) cells).
Proof.
  induction 1 as [|cell rest Hc _ IH]; [reflexivity|].
  cbn [expand_cells map]. unfold expand_cell, colspan_of. rewrite Hc. cbn [bind].
  change (1 <? 1) with false. cbv iota. rewrite IH. reflexivity.
Qed.

Lemma data_rows_plain (rows : list node) :
  Forall (fun tr => find_all ["th"] tr = [] /\ find_all ["td"] tr <> [] /\
                    Forall (fun cell => get "colspan" cell = None) (find_all ["td"] tr))
         rows ->
  forall start,
    data_rows (Some 0%nat) (enumerate (S start) rows)
    = Return (map (fun tr => pipe_row (map (fun cell => strip (get_text cell))
                                           (find_all ["td"] tr))) rows).
Proof.
  induction 1 as [|tr rest (Hth & Htd & Hc) _ IH]; intros start; [reflexivity|].
  cbn [enumerate data_rows map Nat.eqb]. rewrite Hth.
  destruct (find_all ["td"] tr) as [|td tds] eqn:Hcells; [congruence|].
  rewrite (expand_cells_plain _ Hc). cbn [bind]. rewrite IH. reflexivity.
Qed.

(** X13. The Markdown of a plain table: a table without inline markup and
    without spans, whose first row holds header cells and whose other
    rows hold only data cells, becomes the line of its header cells, the
    separator of as many columns, and one line for each other row. *)
Theorem plain_table_text :
  forall (table header : node) (body : list node),
    absent inline_tags table ->
    (forall cell, In cell (find_all ["td"; "th"] table) -> get "colspan" cell = None) ->
    find_all ["tr"] table = header :: body ->
    find_all ["th"] header <> [] ->
    Forall (fun tr => find_all ["th"] tr = [] /\ find_all ["td"] tr <> []) body ->
    let text := fun cell => strip (get_text cell) in
    table_text self table
    = Return (LF ++ join LF (pipe_row (map text (find_all ["th"] header))
                             :: pipe_row (repeat "---" (List.length (find_all ["th"] header)))
                             :: map (fun tr => pipe_row (map text (find_all ["td"] tr))) body)
                 ++ LF).
Proof.
  intros table header body Ha Hspan Hrows Hth Hbody text.
  unfold table_text, _process_table_inline_formatting.
  rewrite (inline_formatting_id table Ha), Hrows.
  assert (Hcells : forall tr names,
             In tr (header :: body) ->
             (forall s, mem s names = true -> mem s ["td"; "th"] = true) ->
             Forall (fun cell => get "colspan" cell = None) (find_all names tr)).
  { intros tr names Htr Hm. apply Forall_forall. intros cell Hc. apply Hspan.
    apply (find_all_trans ["tr"] _ tr); [rewrite Hrows; exact Htr|].
    eapply find_all_incl; eassumption. }
  assert (Hhead : find_th_header 0 (header :: body)
                  = Return (Some 0%nat, map text (find_all ["th"] header))).
  { cbn [find_th_header].
    destruct (find_all ["th"] header) as [|th ths] eqn:Hh; [congruence|].
    rewrite <- Hh.
    rewrite (expand_cells_plain (find_all ["th"] header))
      by (apply Hcells; [left; reflexivity | mem_subset]).
    reflexivity. }
  rewrite Hhead. cbn [bind].
  assert (Hdata : data_rows (Some 0%nat) (enumerate 0 (header :: body))
                  = Return (map (fun tr => pipe_row (map text (find_all ["td"] tr))) body)).
  { cbn [enumerate data_rows Nat.eqb]. apply data_rows_plain.
    apply Forall_forall. intros tr Htr. rewrite Forall_forall in Hbody.
    destruct (Hbody tr Htr) as [H1 H2]. repeat split; try assumption.
    apply Hcells; [right; exact Htr | mem_subset]. }
  rewrite <- (length_map text (find_all ["th"] header)).
  destruct (map text (find_all ["th"] header)) as [|x xs] eqn:Hm.
  - destruct (find_all ["th"] header); [congruence | discriminate].
  - cbn [bind]. rewrite Hdata. reflexivity.
Qed.

End SimpleTables.

Lemma plain_table_cells :
  forall cell, In cell (find_all ["td"; "th"] plain_table) -> get "colspan" cell = None.
Proof.
  intros cell Hc. simpl in Hc.
  repeat (destruct Hc as [<-|Hc]; [reflexivity|]). destruct Hc.
Qed.

Lemma plain_table_text_witness :
  absent inline_tags plain_table /\
  (forall cell, In cell (find_all ["td"; "th"] plain_table) -> get "colspan" cell = None) /\
  find_all ["tr"] plain_table
  = [Tag "tr" [] [Tag "th" [] [NavigableString "A"]; Tag "th" [] [NavigableString "B"]];
     Tag "tr" [] [Tag "td" [] [NavigableString "1"]; Tag "td" [] [NavigableString "2"]]] /\
  find_all ["th"]
    (Tag "tr" [] [Tag "th" [] [NavigableString "A"]; Tag "th" [] [NavigableString "B"]]) <> [] /\
  Forall (fun tr => find_all ["th"] tr = [] /\ find_all ["td"] tr <> [])
    [Tag "tr" [] [Tag "td" [] [NavigableString "1"]; Tag "td" [] [NavigableString "2"]]] /\
  @table_text (new_converter None) roomy plain_table
  = Return (LF ++ "| A | B |" ++ LF ++ "| --- | --- |" ++ LF ++ "| 1 | 2 |" ++ LF).
Proof.
  split; [reflexivity|]. split; [exact plain_table_cells|]. split; [reflexivity|].
  split; [discriminate|]. split; [repeat constructor; discriminate|].
  refine (@plain_table_text roomy (new_converter None) plain_table _ _
            eq_refl plain_table_cells eq_refl _ _).
  - discriminate.
  - repeat constructor; discriminate.
Defined.

Section HeaderlessTables.

Context `{Memory}.

Variable self : HTMLToMarkdownConverter.

Lemma spans_plain (cells : list node) :
  Forall (fun cell => get "colspan" cell = None) cells ->
  map_result colspan_of cells = Return (map (fun _ => 1) cells).
Proof.
  induction 1 as [|cell rest Hc _ IH]; [reflexivity|].
  cbn [map_result map]. unfold colspan_of at 1. rewrite Hc. cbn [bind].
  rewrite IH. reflexivity.
Qed.

Lemma sum_ones {A : Type} (l : list A) :
  sum (map (fun _ => 1) l) = Z.of_nat (List.length l).
Proof.
  unfold sum.
  assert (Hacc : forall a, fold_left Z.add (map (fun _ : A => 1) l) a
                           = a + Z.of_nat (List.length l)).
  { induction l as [|x l IH]; intros a; cbn [map fold_left List.length]; [lia|].
    rewrite IH. lia. }
  rewrite Hacc. lia.
Qed.

Lemma find_th_header_none (rows : list node) :
  Forall (fun tr => find_all ["th"] tr = []) rows ->
  forall idx, find_th_header idx rows = Return (None, []).
Proof.
  induction 1 as [|tr rest Hth _ IH]; intros idx; [reflexivity|].
  cbn [find_th_header]. rewrite Hth. apply IH.
Qed.

(** X20. The Markdown of a table without header cells: for a table
    without inline markup, without [th] cells and without spans, whose
    first row holds at least two cells, that row is the header, followed
    by the separator of as many columns and by one line for each other
    row that has cells. *)
Theorem headerless_table_text :
  forall (table first : node) (body : list node),
    absent inline_tags table ->
    absent ["th"] table ->
    (forall cell, In cell (find_all ["td"] table) -> get "colspan" cell = None) ->
    find_all ["tr"] table = first :: body ->
    (1 < List.length (find_all ["td"] first))%nat ->
    Forall (fun tr => find_all ["td"] tr <> []) body ->
    let text := fun cell => strip (get_text cell) in
    table_text self table
    = Return (LF ++ join LF (pipe_row (map text (find_all ["td"] first))
                             :: pipe_row (repeat "---" (List.length (find_all ["td"] first)))
                             :: map (fun tr => pipe_row (map text (find_all ["td"] tr))) body)
                 ++ LF).
Proof.
  intros table first body Ha Hno Hspan Hrows Hfirst Hbody text.
  unfold table_text, _process_table_inline_formatting.
  rewrite (inline_formatting_id self table Ha), Hrows.
  assert (Hth : forall tr, In tr (first :: body) -> find_all ["th"] tr = []).
  { intros tr Htr. change (absent ["th"] tr). apply absent_iff. intros x Hx.
    apply (proj1 (absent_iff ["th"] table) Hno x).
    apply (find_all_trans ["tr"] _ tr); [rewrite Hrows|]; assumption. }
  assert (Hcells : forall tr, In tr (first :: body) ->
                              Forall (fun cell => get "colspan" cell = None)
                                     (find_all ["td"] tr)).
  { intros tr Htr. apply Forall_forall. intros cell Hc. apply Hspan.
    apply (find_all_trans ["tr"] _ tr); [rewrite Hrows|]; assumption. }
  rewrite find_th_header_none by (apply Forall_forall; exact Hth).
  cbn [bind find_td_header].
  apply Nat.ltb_lt in Hfirst. rewrite Hfirst.
  rewrite (spans_plain _ (Hcells first (or_introl eq_refl))). cbn [bind].
  rewrite sum_ones, Z.eqb_refl.
  rewrite (expand_cells_plain _ (Hcells first (or_introl eq_refl))). cbn [bind].
  fold text.
  assert (Hdata : data_rows (Some 0%nat) (enumerate 0 (first :: body))
                  = Return (map (fun tr => pipe_row (map text (find_all ["td"] tr))) body)).
  { cbn [enumerate data_rows Nat.eqb]. apply data_rows_plain.
    apply Forall_forall. intros tr Htr. rewrite Forall_forall in Hbody.
    repeat split; [apply Hth; right; exact Htr | apply Hbody; exact Htr
                  | apply Hcells; right; exact Htr]. }
  rewrite <- (length_map text (find_all ["td"] first)).
  destruct (map text (find_all ["td"] first)) as [|x xs] eqn:Hm.
  - destruct (find_all ["td"] first); [discriminate Hfirst | discriminate Hm].
  - cbn [bind]. rewrite Hdata. reflexivity.
Qed.

End HeaderlessTables.

Lemma headerless_table_cells :
  forall cell, In cell (find_all ["td"] headerless_table) -> get "colspan" cell = None.
Proof.
  intros cell Hc. simpl in Hc.
  repeat (destruct Hc as [<-|Hc]; [reflexivity|]). destruct Hc.
Qed.

Lemma headerless_table_text_witness :
  absent inline_tags headerless_table /\
  absent ["th"] headerless_table /\
  (forall cell, In cell (find_all ["td"] headerless_table) -> get "colspan" cell = None) /\
  find_all ["tr"] headerless_table
  = [Tag "tr" [] [Tag "td" [] [NavigableString "A"]; Tag "td" [] [NavigableString "B"]];
     Tag "tr" [] [Tag "td" [] [NavigableString "1"]; Tag "td" [] [NavigableString "2"]]] /\
  @table_text (new_converter None) roomy headerless_table
  = Return (LF ++ "| A | B |" ++ LF ++ "| --- | --- |" ++ LF ++ "| 1 | 2 |" ++ LF).
Proof.
  split; [reflexivity|]. split; [reflexivity|].
  split; [exact headerless_table_cells|]. split; [reflexivity|].
  refine (@headerless_table_text roomy (new_converter None) headerless_table _ _
            eq_refl eq_refl headerless_table_cells eq_refl _ _).
  - apply Nat.ltb_lt. reflexivity.
  - repeat constructor; discriminate.
Defined.

Section SpannedTables.

Context `{Memory}.






End SpannedTables.



(* ===================================================================== *)
(** * Further theorems: lines, lists and rendered rows *)
(* ===================================================================== *)

Section LineFacts.

Lemma join_cons (sep x : string) (l : list string) :
  l <> [] -> join sep (x :: l) = x ++ sep ++ join sep l.
Proof. destruct l; [congruence | reflexivity]. Qed.

Lemma split_nonempty (sep : ascii) (s : string) : split sep s <> [].
Proof.
  induction s as [|c r IH]; cbn [split]; [discriminate|].
  destruct (Ascii.eqb c sep); [discriminate|]. destruct (split sep r); discriminate.
Qed.

(** The pieces of a text, joined by the separator, are the text. *)
Lemma join_split (sep : ascii) (s : string) :
  join (String sep "") (split sep s) = s.
Proof.
  induction s as [|c r IH]; [reflexivity|]. cbn [split].
  destruct (Ascii.eqb_spec c sep) as [->|Hne].
  - rewrite join_cons by apply split_nonempty. rewrite IH. reflexivity.
  - pose proof (split_nonempty sep r) as Hn.
    destruct (split sep r) as [|p ps]; [congruence|].
    destruct ps as [|q ps].
    + unfold join in *. cbn [String.concat] in *. congruence.
    + rewrite join_cons in IH by discriminate.
      rewrite (join_cons _ (String c p)) by discriminate. cbn [append] in *. congruence.
Qed.

Lemma split_no_sep (sep : ascii) (s : string) :
  contains sep s = false -> split sep s = [s].
Proof.
  induction s as [|c r IH]; [reflexivity|]. cbn [contains split].
  intros Hc. apply orb_false_elim in Hc. destruct Hc as [Hc Hr].
  rewrite Ascii.eqb_sym, Hc, (IH Hr). reflexivity.
Qed.

Lemma split_app (sep : ascii) (a b : string) :
  contains sep a = false ->
  split sep (a ++ String sep b) = a :: split sep b.
Proof.
  induction a as [|c r IH]; cbn [contains append split].
  - intros _. rewrite Ascii.eqb_refl. reflexivity.
  - intros Hc. apply orb_false_elim in Hc. destruct Hc as [Hc Hr].
    rewrite Ascii.eqb_sym, Hc, (IH Hr). reflexivity.
Qed.

(** Lines without the separator, joined and split again, are the lines. *)
Lemma split_join (sep : ascii) (l : list string) :
  l <> [] -> Forall (fun p => contains sep p = false) l ->
  split sep (join (String sep "") l) = l.
Proof.
  induction l as [|x l IH]; [congruence|]. intros _ Hf.
  inversion Hf as [|? ? Hx Hl]; subst.
  destruct l as [|y l].
  - unfold join. cbn [String.concat]. apply split_no_sep. exact Hx.
  - rewrite join_cons by discriminate. cbn [append].
    rewrite split_app by exact Hx. rewrite IH; [reflexivity | discriminate | exact Hl].
Qed.

Lemma split_pieces (sep : ascii) (s : string) :
  Forall (fun p => contains sep p = false) (split sep s).
Proof.
  induction s as [|c r IH]; cbn [split]; [repeat constructor|].
  destruct (Ascii.eqb c sep) eqn:Hc; [constructor; [reflexivity | exact IH]|].
  destruct (split sep r) as [|p ps]; [repeat constructor; cbn; now rewrite Ascii.eqb_sym, Hc|].
  inversion IH; subst. constructor; [|assumption].
  cbn [contains]. rewrite Ascii.eqb_sym, Hc. assumption.
Qed.

Lemma contains_app (c : ascii) (a b : string) :
  contains c (a ++ b) = contains c a || contains c b.
Proof.
  induction a as [|d a IH]; [reflexivity|]. cbn [append contains]. rewrite IH.
  apply orb_assoc.
Qed.

Lemma drop_prefix (p s : string) : drop (String.length p) (p ++ s) = s.
Proof. induction p as [|c p IH]; [destruct s; reflexivity | exact IH]. Qed.

(** The lines of a text, each behind a prefix that holds no line feed:
    splitting the result gives the prefixed lines back, and dropping the
    prefixes gives the text back. *)
Lemma prefixed_lines (prefix text : string) :
  contains "010" prefix = false ->
  let block := join LF (map (fun line => prefix ++ line) (split "010" text)) in
  split "010" block = map (fun line => prefix ++ line) (split "010" text) /\
  join LF (map (drop (String.length prefix)) (split "010" block)) = text.
Proof.
  intros Hp block.
  assert (Hs : split "010" block = map (fun line => prefix ++ line) (split "010" text)).
  { unfold block, LF. apply split_join.
    - pose proof (split_nonempty "010" text). destruct (split "010" text); [congruence|discriminate].
    - apply Forall_map. eapply Forall_impl; [|apply split_pieces].
      intros line Hl. cbv beta. rewrite contains_app, Hp, Hl. reflexivity. }
  split; [exact Hs|]. rewrite Hs, map_map.
  rewrite (map_ext _ (fun line => line)) by (intros line; apply drop_prefix).
  rewrite map_id. apply join_split.
Qed.

End LineFacts.

Section BlockFacts.

Context `{Memory} `{Parser} `{Html}.

Variable self : HTMLToMarkdownConverter.

(** X15. A quotation is its stripped text line by line, each line behind the
    mark of a quotation: the lines of the block are the lines of the text
    with the mark before them, and without the marks they are the text. *)
Theorem blockquote_lines :
  forall blockquote : node,
    let text := strip (get_text blockquote) in
    exists quoted,
      blockquote_text blockquote = LF ++ quoted ++ LF /\
      split "010" quoted = map (fun line => "> " ++ line) (split "010" text) /\
      join LF (map (drop 2) (split "010" quoted)) = text.
Proof.
  intros blockquote text.
  exists (join LF (map (fun line => "> " ++ line) (split "010" text))).
  split; [reflexivity|]. apply (prefixed_lines "> " text). reflexivity.
Qed.

(** X16. A code block that is not fenced is its stripped text line by line,
    each line indented by four blanks. *)
Theorem indented_code_lines :
  forall pre : node,
    code_block_style (config self) <> "fenced" ->
    let code := strip (get_text pre) in
    exists indented,
      pre_text self pre = LF ++ indented ++ LF /\
      split "010" indented = map (fun line => "    " ++ line) (split "010" code) /\
      join LF (map (drop 4) (split "010" indented)) = code.
Proof.
  intros pre Hstyle code.
  exists (join LF (map (fun line => "    " ++ line) (split "010" code))).
  split; [|apply (prefixed_lines "    " code); reflexivity].
  unfold pre_text. apply String.eqb_neq in Hstyle. rewrite Hstyle. reflexivity.
Qed.

Lemma enumerate_nth {A : Type} (items : list A) :
  forall (start k : nat) (x : A),
    nth_error items k = Some x ->
    nth_error (enumerate start items) k = Some ((start + k)%nat, x).
Proof.
  induction items as [|y items IH]; intros start [|k] x; cbn [nth_error enumerate];
    try discriminate.
  - intros Hx. inversion Hx. now rewrite Nat.add_0_r.
  - intros Hx. rewrite (IH (S start) k x Hx). f_equal. f_equal. lia.
Qed.

Lemma enumerate_length {A : Type} (items : list A) :
  forall start, List.length (enumerate start items) = List.length items.
Proof.
  induction items as [|y items IH]; intros start; [reflexivity|].
  cbn [enumerate List.length]. now rewrite IH.
Qed.

(** X17. The items of an ordered list are its direct [li] children, in order,
    numbered from 1. *)
Theorem ordered_list_numbering :
  forall ol : node,
    exists items,
      ol_text ol = LF ++ join LF items ++ LF ++ LF /\
      List.length items = List.length (find_children ["li"] ol) /\
      forall k li, nth_error (find_children ["li"] ol) k = Some li ->
                   nth_error items k
                   = Some (str_of_nat (k + 1) ++ ". " ++ strip (get_text li)).
Proof.
  intros ol. eexists. split; [reflexivity|]. split.
  - rewrite length_map. apply enumerate_length.
  - intros k li Hk. rewrite nth_error_map, (enumerate_nth _ 1 k li Hk).
    cbn [option_map]. rewrite (Nat.add_comm k 1). reflexivity.
Qed.

(** X14. The columns a row of cells stands for: as many as the spans of its
    cells add up to, a span below 1 counting for 1. *)
Theorem expand_cells_columns :
  forall (cells : list node) (columns : list string),
    expand_cells cells = Return columns ->
    exists spans,
      map_result colspan_of cells = Return spans /\
      Z.of_nat (List.length columns) = sum (map (Z.max 1) spans).
Proof.
  assert (Hsum : forall l a, fold_left Z.add l a = a + fold_left Z.add l 0).
  { induction l as [|x l IH]; intros a; cbn [fold_left]; [lia|].
    rewrite (IH (a + x)), (IH (0 + x)). lia. }
  assert (Hrep : forall (n : Z) (blanks : list string),
             list_repeat EmptyString n = Return blanks -> 0 < n ->
             Z.of_nat (List.length blanks) = n).
  { intros n blanks. unfold list_repeat.
    destruct (Z.leb_spec n 0); [lia|].
    destruct (maxsize <? n); [discriminate|].
    destruct (list_limit <? n); [discriminate|].
    intros Hr _. inversion Hr. rewrite repeat_length. lia. }
  induction cells as [|cell rest IH]; intros columns; cbn [expand_cells map_result].
  - intros Hr. inversion Hr. exists []. split; reflexivity.
  - unfold expand_cell.
    destruct (colspan_of cell) as [n|e]; [|discriminate]. cbn [bind].
    destruct (Z.ltb_spec 1 n) as [Hlt|Hge].
    + destruct (list_repeat EmptyString (n - 1)) as [blanks|e] eqn:Hb; [|discriminate].
      cbn [bind].
      destruct (expand_cells rest) as [more|e]; [|discriminate]. cbn [bind].
      destruct (IH more eq_refl) as (spans & -> & Hl).
      intros Hr. inversion Hr; subst columns. exists (n :: spans). split; [reflexivity|].
      cbn [map]. unfold sum in *. cbn [fold_left]. rewrite Hsum, <- Hl.
      cbn [app List.length]. rewrite length_app.
      pose proof (Hrep _ _ Hb ltac:(lia)). lia.
    + cbn [bind].
      destruct (expand_cells rest) as [more|e]; [|discriminate]. cbn [bind].
      destruct (IH more eq_refl) as (spans & -> & Hl).
      intros Hr. inversion Hr; subst columns. exists (n :: spans). split; [reflexivity|].
      cbn [map]. unfold sum in *. cbn [fold_left]. rewrite Hsum, <- Hl.
      cbn [app List.length]. lia.
Qed.

(** X18. Whatever is converted and whichever container is selected, the
    Markdown that comes out is a trimmed text ended by one line feed. *)
Theorem markdown_ends_with_newline :
  forall (content : object) (container_selector : option string) (markdown : string),
    convert_html self content container_selector = Return markdown ->
    one_trailing_newline markdown.
Proof.
  assert (Hsoup : forall soup sel markdown,
             convert_html_soup self soup sel = Return markdown ->
             one_trailing_newline markdown).
  { intros soup sel markdown. unfold convert_html_soup.
    destruct (if preserve_structure (config self) then _ else _); [|discriminate].
    cbn [bind]. intros Hr. inversion Hr. unfold _clean_and_format.
    apply strip_one_trailing_newline. }
  intros content sel markdown. unfold convert_html, convert_html_str.
  destruct (as_str content); [apply Hsoup|].
  destruct content; try discriminate. apply Hsoup.
Qed.

End BlockFacts.

Lemma indented_code_lines_witness :
  code_block_style (config (new_converter (Some indented_config))) <> "fenced" /\
  exists indented,
    pre_text (new_converter (Some indented_config))
             (Tag "pre" [] [NavigableString ("x = 1" ++ LF ++ "y = 2")])
    = LF ++ indented ++ LF /\
    split "010" indented
    = map (fun line => "    " ++ line) (split "010" ("x = 1" ++ LF ++ "y = 2")) /\
    join LF (map (drop 4) (split "010" indented)) = "x = 1" ++ LF ++ "y = 2".
Proof.
  split; [discriminate|].
  refine (indented_code_lines (new_converter (Some indented_config))
            (Tag "pre" [] [NavigableString ("x = 1" ++ LF ++ "y = 2")]) _).
  discriminate.
Defined.

Lemma expand_cells_columns_witness :
  @expand_cells roomy [Tag "td" [("colspan", "3")] [NavigableString "a"];
                       Tag "td" [] [NavigableString "b"]]
  = Return ["a"; ""; ""; "b"] /\
  exists spans,
    map_result colspan_of [Tag "td" [("colspan", "3")] [NavigableString "a"];
                           Tag "td" [] [NavigableString "b"]]
    = Return spans /\
    Z.of_nat (List.length ["a"; ""; ""; "b"]) = sum (map (Z.max 1) spans).
Proof.
  split; [reflexivity|].
  exact (@expand_cells_columns roomy
           [Tag "td" [("colspan", "3")] [NavigableString "a"];
            Tag "td" [] [NavigableString "b"]]
           ["a"; ""; ""; "b"] eq_refl).
Defined.

Lemma markdown_ends_with_newline_witness :
  @convert_html (new_converter None) roomy text_parser no_unescape
     (PyStr "Hello World") None
  = Return ("Hello World" ++ LF) /\
  one_trailing_newline ("Hello World" ++ LF).
Proof.
  split; [reflexivity|].
  exact (@markdown_ends_with_newline roomy text_parser no_unescape (new_converter None)
           (PyStr "Hello World") None ("Hello World" ++ LF) eq_refl).
Defined.

Section RendererRows.

Context `{Parser} `{Rich}.

Lemma list_max_ge (l : list nat) (x : nat) : In x l -> (x <= list_max l)%nat.
Proof.
  induction l as [|y l IH]; [contradiction|]. cbn [list_max fold_right].
  intros [->|Hx]; [lia|]. specialize (IH Hx). unfold list_max in IH. lia.
Qed.

(** X19. The rows handed to the table printer form a rectangle: one row for
    each [tr] of the document, in order, each holding the texts of its
    cells followed by empty strings up to the number of columns, which is
    the number of cells of the longest row. *)
Theorem table_rows_rectangular :
  forall html_string : string,
    let soup := BeautifulSoup html_string in
    convert_html_to_table (Some html_string)
    = (if (html_string =? "")%string then ""
       else if Nat.eqb (List.length (find_all ["tr"] soup)) 0 then ""
            else print_table (max_columns soup) (table_rows soup)) /\
    List.length (table_rows soup) = List.length (find_all ["tr"] soup) /\
    Forall (fun row => List.length row = max_columns soup) (table_rows soup) /\
    (forall i tr, nth_error (find_all ["tr"] soup) i = Some tr ->
       exists row, nth_error (table_rows soup) i = Some row /\
                   firstn (List.length (find_all ["td"; "th"] tr)) row
                   = map cell_text (find_all ["td"; "th"] tr) /\
                   Forall (fun cell => cell = "")
                          (skipn (List.length (find_all ["td"; "th"] tr)) row)) /\
    (find_all ["tr"] soup <> [] ->
     exists tr, In tr (find_all ["tr"] soup) /\
                List.length (find_all ["td"; "th"] tr) = max_columns soup).
Proof.
  intros html_string soup. split; [reflexivity|]. split; [|split; [|split]].
  - unfold table_rows. apply length_map.
  - unfold table_rows. apply Forall_map. apply Forall_forall. intros tr Htr.
    cbv zeta. rewrite length_app, repeat_length, length_map.
    assert (List.length (find_all ["td"; "th"] tr) <= max_columns soup)%nat.
    { apply list_max_ge.
      apply (in_map (fun row => List.length (find_all ["td"; "th"] row))). exact Htr. }
    lia.
  - intros i tr Hi. unfold table_rows. rewrite nth_error_map, Hi. cbn [option_map].
    eexists. split; [reflexivity|]. cbv zeta.
    set (data := map cell_text (find_all ["td"; "th"] tr)).
    replace (List.length (find_all ["td"; "th"] tr)) with (List.length data)
      by apply length_map.
    split.
    + rewrite firstn_app, Nat.sub_diag, firstn_all. cbn [firstn]. apply List.app_nil_r.
    + rewrite skipn_app, Nat.sub_diag, skipn_all. cbn [skipn app].
      apply Forall_forall. intros cell Hc. apply repeat_spec in Hc. exact Hc.
  - unfold max_columns. generalize (find_all ["tr"] soup) as rows.
    induction rows as [|tr rows IH]; [congruence|]. intros _.
    cbn [map list_max fold_right].
    destruct rows as [|tr' rows].
    + exists tr. split; [left; reflexivity|]. cbn. lia.
    + destruct (IH ltac:(discriminate)) as (r & Hr & Hl).
      fold (list_max (map (fun row => List.length (find_all ["td"; "th"] row)) (tr' :: rows))).
      destruct (Nat.max_spec (List.length (find_all ["td"; "th"] tr))
                  (list_max (map (fun row => List.length (find_all ["td"; "th"] row))
                                 (tr' :: rows)))) as [[_ ->]|[_ ->]].
      * exists r. split; [right; exact Hr | exact Hl].
      * exists tr. split; [left; reflexivity | reflexivity].
Qed.

End RendererRows.
